(** * generate-schema: the two-pass schema generator of [src/generate.ts]

    A shallow embedding of [generate] (and of the entry point of
    [src/index.ts]) together with the properties of its specification.

    - JavaScript strings are [string]; the string methods the generator
      calls ([split], [join], [replace], template literals) are in
      module [Js].
    - A JavaScript object used as a dictionary is an association list
      with unique keys in insertion order ([Js.obj]): the generator
      iterates such objects with [Object.entries] and serialises them,
      so the order is observable.  No key of the modelled objects is a
      canonical array index.
    - Values of type [any] that reach the output are [Js.value].
    - A thrown exception is [Err]; the mutable variables of [generate]
      are threaded explicitly through the loops. *)

From Stdlib Require Import String Ascii List Bool Arith Lia.
Import ListNotations.
Local Open Scope list_scope.
Local Open Scope string_scope.

Set Implicit Arguments.
Set Warnings "-register-all".

(* ===================================================================== *)
(** ** Exceptions *)

Inductive error : Type :=
| TypeError      (* property access or method call on [undefined] *)
| OnlyError      (* [.only()] on a result set that is not a singleton *)
| NoSuchEntity.  (* [db.get] with an identifier that is not in the database *)

Inductive result (A : Type) : Type :=
| Ok (a : A)
| Err (e : error).

Arguments Ok {A} a.
Arguments Err {A} e.

Definition bind {A B} (r : result A) (k : A -> result B) : result B :=
  match r with
  | Ok a => k a
  | Err e => Err e
  end.

Notation "x <- c ;; k" := (bind c (fun x => k))
  (at level 61, c at next level, right associativity).
Notation "' p <- c ;; k" := (bind c (fun x => match x with p => k end))
  (at level 61, p pattern, c at next level, right associativity).

(** [for (const x of xs) { acc = step(acc, x) }] where [step] may throw. *)
Fixpoint foldM {A B} (step : A -> B -> result A) (acc : A) (xs : list B)
  : result A :=
  match xs with
  | [] => Ok acc
  | x :: xs' => acc' <- step acc x ;; foldM step acc' xs'
  end.

(** [xs.map(f)] where [f] may throw. *)
Fixpoint mapM {A B} (f : A -> result B) (xs : list A) : result (list B) :=
  match xs with
  | [] => Ok []
  | x :: xs' => y <- f x ;; ys <- mapM f xs' ;; Ok (y :: ys)
  end.

Definition is_ok {A} (r : result A) : bool :=
  match r with Ok _ => true | Err _ => false end.

(* ===================================================================== *)
(** ** JavaScript strings, objects and values *)

Module Js.

(** [s.substring(n)] *)
Fixpoint drop (n : nat) (s : string) : string :=
  match n, s with
  | O, _ => s
  | S _, EmptyString => EmptyString
  | S k, String _ s' => drop k s'
  end.

(** [s.replace(pat, repl)] with a string pattern.  None of the
    replacement strings of the generator contains a [$]. *)
Fixpoint replace (s pat repl : string) {struct s} : string :=
  if String.prefix pat s then repl ++ drop (String.length pat) s
  else match s with
       | EmptyString => EmptyString
       | String c s' => String c (replace s' pat repl)
       end.

(** [s.split(sep)] for a non-empty separator: [cur] is the segment
    being read, [skip] the number of characters of a separator just
    matched that are still to be passed over. *)
Fixpoint split_from (sep : string) (skip : nat) (cur s : string)
  : list string :=
  match s with
  | EmptyString => [cur]
  | String c s' =>
      match skip with
      | S k => split_from sep k cur s'
      | O =>
          if String.prefix sep s
          then cur :: split_from sep (String.length sep - 1) "" s'
          else split_from sep 0 (cur ++ String c "") s'
      end
  end.

Definition split (s sep : string) : list string := split_from sep 0 "" s.

(** [xs.join(sep)] *)
Fixpoint join (xs : list string) (sep : string) : string :=
  match xs with
  | [] => ""
  | [x] => x
  | x :: xs' => x ++ sep ++ join xs' sep
  end.

(** [xs.pop()]: the value returned, and the array left behind. *)
Definition pop {A} (xs : list A) : option A * list A :=
  match rev xs with
  | [] => (None, [])
  | x :: r => (Some x, rev r)
  end.

(** A string-keyed object. *)
Definition obj (V : Type) : Type := list (string * V).

(** [o[k]] *)
Fixpoint get {V} (o : obj V) (k : string) : option V :=
  match o with
  | [] => None
  | (k', v) :: o' => if String.eqb k' k then Some v else get o' k
  end.

(** [o[k] = v] *)
Fixpoint set {V} (o : obj V) (k : string) (v : V) : obj V :=
  match o with
  | [] => [(k, v)]
  | (k', v') :: o' =>
      if String.eqb k' k then (k', v) :: o' else (k', v') :: set o' k v
  end.

Definition keys {V} (o : obj V) : list string := map fst o.

(** The values found in the output documents. *)
Inductive value : Type :=
| Undefined
| Bool (b : bool)
| Str (s : string)
| Arr (xs : list value)
| Obj (o : list (string * value)).

(** [a ?? b] *)
Definition nullish (a b : value) : value :=
  match a with
  | Undefined => b
  | _ => a
  end.

(** [`${x}`] for [x : string | undefined] *)
Definition template (x : option string) : string :=
  match x with
  | Some s => s
  | None => "undefined"
  end.

(** Member access on a value: [v[k]]. *)
Definition member (v : value) (k : string) : value :=
  match v with
  | Obj o => match get o k with Some x => x | None => Undefined end
  | _ => Undefined
  end.

Definition keys_of (v : value) : list string :=
  match v with
  | Obj o => keys o
  | _ => []
  end.

End Js.

(* ===================================================================== *)
(** ** The specification database *)

(** A property-type descriptor as it arrives from the database: a JSON
    object with a [type] tag and, depending on the tag, a [reference]
    (its [$ref]), an [element] or a list of member [types].  [doGetType]
    dispatches on the tag string. *)
Module PropertyType.
Inductive t : Type :=
  Make { type : string;
         reference : option string;
         element : option t;
         types : option (list t) }.

Definition primitive (tag : string) : t :=
  Make tag None None None.
Definition ref (id : string) : t :=
  Make "ref" (Some id) None None.
Definition array (e : t) : t :=
  Make "array" None (Some e) None.
Definition map (e : t) : t :=
  Make "map" None (Some e) None.
Definition union (ts : list t) : t :=
  Make "union" None None (Some ts).
End PropertyType.

Module Attribute.
Record t : Type :=
  Make { type : PropertyType.t;
         previousTypes : option (list PropertyType.t) }.
End Attribute.

Module Property.
Record t : Type :=
  Make { type : PropertyType.t;
         previousTypes : option (list PropertyType.t);
         required : option bool }.
End Property.

Module Service.
Record t : Type :=
  Make { name : string;
         cloudFormationNamespace : string }.
End Service.

Module Resource.
Record t : Type :=
  Make { cloudFormationType : string;
         name : string;
         attributes : Js.obj Attribute.t;
         properties : Js.obj Property.t }.
End Resource.

Module TypeDefinition.
Record t : Type :=
  Make { id : string;        (* [$id] *)
         name : string;
         properties : Js.obj Property.t }.
End TypeDefinition.

(** The database provider ([loadAwsServiceSpec]) is an external library;
    its operations follow section 6 of the specification. *)
Module Database.

(** What [db.all(kind)] returns for the three kinds, in the stable order
    of the database. *)
Record t : Type :=
  Make { services : list Service.t;
         resources : list Resource.t;
         typeDefinitions : list TypeDefinition.t }.

(** Modelled from the spec: [db.lookup('service',
    'cloudFormationNamespace', 'equals', namespace)] of the external
    database library, the result set of the services whose namespace
    equals the value.  The specification fixes no order for the result
    set; the generator reads it only through [only], which does not
    depend on the order. *)
Definition lookup_service (db : t) (namespace : string) : list Service.t :=
  filter (fun s => String.eqb (Service.cloudFormationNamespace s) namespace)
         (services db).

(** Modelled from the spec: [.only()] of the external database library,
    which fails if there is not exactly one match. *)
Definition only {A} (xs : list A) : result A :=
  match xs with
  | [x] => Ok x
  | _ => Err OnlyError
  end.

(** Modelled from the spec: [db.get('typeDefinition', id)] of the
    external database library, the single record with that identifier;
    an identifier without a record ends in an exception. *)
Definition get_typeDefinition (db : t) (id : string)
  : result TypeDefinition.t :=
  match find (fun d => String.eqb (TypeDefinition.id d) id)
             (typeDefinitions db) with
  | Some d => Ok d
  | None => Err NoSuchEntity
  end.
End Database.

(** The constants [Type.X.spec] of the external library
    [@cdklabs/typewriter]. *)
Module Type_.

(** Modelled from the spec: the canonical primitive descriptors of the
    external typewriter library; section 4.1 maps each primitive tag to
    a fixed primitive descriptor ([integer] and [number] to the same
    one, [null] to an "undefined" primitive), and the end-to-end example
    of section 8 shows [{primitive: "string"}]. *)
Definition prim (kind : string) : Js.value :=
  Js.Obj [("primitive", Js.Str kind)].
Definition STRING : Js.value := prim "string".
Definition BOOLEAN : Js.value := prim "boolean".
Definition NUMBER : Js.value := prim "number".
Definition DATE_TIME : Js.value := prim "date-time".
Definition UNDEFINED : Js.value := prim "undefined".
End Type_.

(* ===================================================================== *)
(** ** TypeResolver: [getType] and its inner [doGetType] *)

Definition recognized_tags : list string :=
  ["string"; "boolean"; "number"; "integer"; "date-time"; "ref"; "array";
   "json"; "map"; "tag"; "union"; "null"].

Section TypeResolver.
Variable db : Database.t.

(** [refIds] is the object captured by the closure; every call of
    [doGetType] within one [getType] updates the same object. *)
Fixpoint doGetType (_propType : PropertyType.t) (_cfnType : string)
         (refIds : Js.obj string) {struct _propType}
  : result (Js.value * Js.obj string) :=
  match _propType with
  | PropertyType.Make tag reference element types =>
      if String.eqb tag "string" then Ok (Type_.STRING, refIds)
      else if String.eqb tag "boolean" then Ok (Type_.BOOLEAN, refIds)
      else if String.eqb tag "number" then Ok (Type_.NUMBER, refIds)
      else if String.eqb tag "integer" then Ok (Type_.NUMBER, refIds)
      else if String.eqb tag "date-time" then Ok (Type_.DATE_TIME, refIds)
      else if String.eqb tag "ref" then
        match reference with
        | None => Err TypeError
        | Some id =>
            ref <- Database.get_typeDefinition db id ;;
            Ok (Js.Obj [("named",
                         Js.Str (_cfnType ++ "." ++ TypeDefinition.name ref))],
                Js.set refIds (TypeDefinition.id ref)
                       (TypeDefinition.name ref))
        end
      else if String.eqb tag "array" then
        match element with
        | None => Err TypeError
        | Some e =>
            '(v, ids) <- doGetType e _cfnType refIds ;;
            Ok (Js.Obj [("listOf", v)], ids)
        end
      else if String.eqb tag "json" then
        Ok (Js.Obj [("primitive", Js.Str "json")], refIds)
      else if String.eqb tag "map" then
        match element with
        | None => Err TypeError
        | Some e =>
            '(v, ids) <- doGetType e _cfnType refIds ;;
            Ok (Js.Obj [("mapOf", v)], ids)
        end
      else if String.eqb tag "tag" then
        Ok (Js.Obj [("named", Js.Str "CfnTag")], refIds)
      else if String.eqb tag "union" then
        match types with
        | None => Err TypeError
        | Some ts =>
            '(union, ids) <-
              (fix members (ts : list PropertyType.t) (ids : Js.obj string)
                 : result (list Js.value * Js.obj string) :=
                 match ts with
                 | [] => Ok ([], ids)
                 | t :: ts' =>
                     '(v, ids1) <- doGetType t _cfnType ids ;;
                     '(vs, ids2) <- members ts' ids1 ;;
                     Ok (v :: vs, ids2)
                 end) ts refIds ;;
            Ok (Js.Obj [("unionOf", Js.Arr union)], ids)
        end
      else if String.eqb tag "null" then Ok (Type_.UNDEFINED, refIds)
      else Ok (Js.Undefined, refIds)  (* the switch has no default *)
  end.

End TypeResolver.

Module TypeResult.
Record t : Type := Make { type : Js.value; ids : Js.obj string }.
End TypeResult.

Definition getType (db : Database.t) (propType : PropertyType.t)
           (cfnType : string) : result TypeResult.t :=
  '(ty, refIds) <- doGetType db propType cfnType [] ;;
  Ok (TypeResult.Make ty refIds).

(** [field.previousTypes?.map((t) => getType(t, cfnType).type).pop()]:
    the reference ids of the previous types are dropped. *)
Definition previousTypeOf (db : Database.t)
           (previousTypes : option (list PropertyType.t)) (cfnType : string)
  : result Js.value :=
  match previousTypes with
  | None => Ok Js.Undefined
  | Some ts =>
      resolved <- mapM (fun t => r <- getType db t cfnType ;;
                                 Ok (TypeResult.type r)) ts ;;
      Ok (match fst (Js.pop resolved) with
          | Some v => v
          | None => Js.Undefined
          end)
  end.

(** [property.required], a [boolean | undefined]. *)
Definition requiredValue (required : option bool) : Js.value :=
  match required with
  | Some b => Js.Bool b
  | None => Js.Undefined
  end.

(* ===================================================================== *)
(** ** NamingConventionBuilder: the five per-language naming records *)

Definition languages : list string :=
  ["typescript"; "csharp"; "golang"; "java"; "python"].

(** Lines 115-139: the [construct] record of a resource. *)
Definition constructNaming (service : Service.t) (resourceShortName : string)
  : Js.obj Js.value :=
  let name := "Cfn" ++ resourceShortName in
  let goPackage := Js.replace (Service.name service) "-" "" in
  [ ("typescript",
      Js.Obj [ ("module", Js.Str ("aws-cdk-lib/" ++ Service.name service));
               ("name", Js.Str name) ]);
    ("csharp",
      Js.Obj [ ("namespace",
                 Js.Str ("Amazon.CDK." ++
                         Js.replace (Service.cloudFormationNamespace service)
                                    "::" "."));
               ("name", Js.Str name) ]);
    ("golang",
      Js.Obj [ ("module",
                 Js.Str ("github.com/aws/aws-cdk-go/awscdk/v2/" ++ goPackage));
               ("package", Js.Str goPackage);
               ("name", Js.Str name) ]);
    ("java",
      Js.Obj [ ("package",
                 Js.Str ("software.amazon.awscdk." ++
                         Js.replace (Js.replace (Service.name service) "-" ".")
                                    "aws" "services"));
               ("name", Js.Str name) ]);
    ("python",
      Js.Obj [ ("module",
                 Js.Str ("aws_cdk." ++
                         Js.replace (Service.name service) "-" "_"));
               ("name", Js.Str name) ]) ].

(** Lines 201-225: the [name] record of a nested type. *)
Definition propertyTypeNaming (service : Service.t)
           (resourceNameParts : list string) (propertyName : string)
  : Js.obj Js.value :=
  let goPackage := Js.replace (Service.name service) "-" "" in
  [ ("typescript",
      Js.Obj [ ("module", Js.Str ("aws-cdk-lib/" ++ Service.name service));
               ("name", Js.Str propertyName) ]);
    ("csharp",
      Js.Obj [ ("namespace",
                 Js.Str ("Amazon.CDK." ++ Js.join resourceNameParts "."));
               ("name", Js.Str propertyName) ]);
    ("golang",
      Js.Obj [ ("module",
                 Js.Str ("github.com/aws/aws-cdk-go/awscdk/v2/" ++ goPackage));
               ("package", Js.Str goPackage);
               ("name", Js.Str (Js.replace propertyName "." "_")) ]);
    ("java",
      Js.Obj [ ("package",
                 Js.Str ("software.amazon.awscdk." ++
                         Js.replace (Js.replace (Service.name service) "-" ".")
                                    "aws" "services"));
               ("name", Js.Str propertyName) ]);
    ("python",
      Js.Obj [ ("module",
                 Js.Str ("aws_cdk." ++
                         Js.replace (Service.name service) "-" "_"));
               ("name", Js.Str propertyName) ]) ].

(* ===================================================================== *)
(** ** ResourceCollector: pass 1 (lines 105-180) *)

Module ResourceOptions.
Record t : Type :=
  Make { construct : Js.obj Js.value;
         attributes : Js.obj Js.value;
         properties : Js.obj Js.value }.
End ResourceOptions.

(** The reference table [propertyRefList], with the sequence of the
    assignments [propertyRefList[_id] = ...] executed so far (oldest
    first).  The sequence is not a variable of the program: it records
    which statements ran, for the properties that speak of writes. *)
Module RefTable.
Record t : Type :=
  Make { propertyRefList : Js.obj string;
         assignments : list (string * string) }.

Definition empty : t := Make [] [].

Definition assign (tbl : t) (k v : string) : t :=
  Make (Js.set (propertyRefList tbl) k v) (assignments tbl ++ [(k, v)])%list.
End RefTable.

(** Lines 144-146 and 164-166: every id collected by [getType] is
    assigned ["<resource type>.<type name>"]. *)
Definition recordRefs (cloudFormationType : string) (ids : Js.obj string)
           (tbl : RefTable.t) : RefTable.t :=
  fold_left
    (fun tbl e => RefTable.assign tbl (fst e)
                    (cloudFormationType ++ "." ++ snd e))
    ids tbl.

(** Body of the attribute loop, lines 143-158. *)
Definition attributeStep (db : Database.t) (cloudFormationType : string)
           (acc : Js.obj Js.value * RefTable.t) (entry : string * Attribute.t)
  : result (Js.obj Js.value * RefTable.t) :=
  let '(attributeList, tbl) := acc in
  let '(id, attribute) := entry in
  type <- getType db (Attribute.type attribute) cloudFormationType ;;
  let tbl := recordRefs cloudFormationType (TypeResult.ids type) tbl in
  previousType <-
    previousTypeOf db (Attribute.previousTypes attribute) cloudFormationType ;;
  Ok (Js.set attributeList id
             (Js.Obj [ ("name", Js.Str id);
                       ("valueType", TypeResult.type type);
                       ("previousType", previousType) ]),
      tbl).

(** Body of the property loop, lines 163-178. *)
Definition propertyStep (db : Database.t) (cloudFormationType : string)
           (acc : Js.obj Js.value * RefTable.t) (entry : string * Property.t)
  : result (Js.obj Js.value * RefTable.t) :=
  let '(resourceProperties, tbl) := acc in
  let '(id, property) := entry in
  type <- getType db (Property.type property) cloudFormationType ;;
  let tbl := recordRefs cloudFormationType (TypeResult.ids type) tbl in
  previousType <-
    previousTypeOf db (Property.previousTypes property) cloudFormationType ;;
  Ok (Js.set resourceProperties id
             (Js.Obj [ ("name", Js.Str id);
                       ("valueType",
                         Js.nullish previousType (TypeResult.type type));
                       ("required",
                         requiredValue (Property.required property)) ]),
      tbl).

Module Pass1.
Record t : Type :=
  Make { resourceTypes : Js.obj ResourceOptions.t;
         refs : RefTable.t }.

Definition init : t := Make [] RefTable.empty.
End Pass1.

(** [cloudFormationType.split('::').slice(0, 2).join('::')] *)
Definition serviceTypeOf (cloudFormationType : string) : string :=
  Js.join (firstn 2 (Js.split cloudFormationType "::")) "::".

(** Body of the resource loop, lines 106-179.  [attributeList] and
    [resourceProperties] are stored in [resourceTypes] by reference
    inside the loops; what the entry holds at the end of the iteration
    is their final content. *)
Definition resourceStep (db : Database.t) (st : Pass1.t) (resource : Resource.t)
  : result Pass1.t :=
  let cloudFormationType := Resource.cloudFormationType resource in
  let resourceTypes :=
    Js.set (Pass1.resourceTypes st) cloudFormationType
           (ResourceOptions.Make [] [] []) in
  let serviceType := serviceTypeOf cloudFormationType in
  service <- Database.only (Database.lookup_service db serviceType) ;;
  let construct := constructNaming service (Resource.name resource) in
  '(attributeList, tbl) <-
    foldM (attributeStep db cloudFormationType) ([], Pass1.refs st)
          (Resource.attributes resource) ;;
  '(resourceProperties, tbl) <-
    foldM (propertyStep db cloudFormationType) ([], tbl)
          (Resource.properties resource) ;;
  Ok (Pass1.Make
        (Js.set resourceTypes cloudFormationType
                (ResourceOptions.Make construct attributeList
                                      resourceProperties))
        tbl).

Definition pass1 (db : Database.t) : result Pass1.t :=
  foldM (resourceStep db) Pass1.init (Database.resources db).

(* ===================================================================== *)
(** ** PropertyTypeResolver: pass 2 (lines 182-239) *)

Module Pass2.
Record t : Type :=
  Make { resourceName : option string;
         propertyTypes : Js.obj Js.value;
         propertyTypeKeyList : Js.obj string }.

Definition init : t := Make None [] [].
End Pass2.

(** Lines 185-189: the table entry of the definition if there is one,
    otherwise the carried [resourceName]; [.split] on [undefined]
    throws.  The result is element [0] of the split ([entryOwner]). *)
Definition entryOwner (v : string) : option string :=
  hd_error (Js.split v ".").

Definition resolveOwner (propertyRefList : Js.obj string)
           (resourceName : option string) (type : TypeDefinition.t)
  : result (option string) :=
  let found := Js.get propertyRefList (TypeDefinition.id type) in
  match (match found with Some v => Some v | None => resourceName end) with
  | None => Err TypeError
  | Some v => Ok (entryOwner v)
  end.

(** Body of the loop over [type.properties], lines 228-235. *)
Definition typePropertyStep (db : Database.t) (resourceName : string)
           (propertyTypeDetails : Js.obj Js.value)
           (entry : string * Property.t)
  : result (Js.obj Js.value) :=
  let '(id, property) := entry in
  previousType <-
    previousTypeOf db (Property.previousTypes property) resourceName ;;
  propType <- getType db (Property.type property) resourceName ;;
  Ok (Js.set propertyTypeDetails id
             (Js.Obj [ ("name", Js.Str id);
                       ("valueType",
                         Js.nullish previousType (TypeResult.type propType));
                       ("required",
                         requiredValue (Property.required property)) ])).

(** Body of the loop over the type definitions, lines 184-238. *)
Definition typeStep (db : Database.t) (propertyRefList : Js.obj string)
           (st : Pass2.t) (type : TypeDefinition.t) : result Pass2.t :=
  owner <- resolveOwner propertyRefList (Pass2.resourceName st) type ;;
  let shortPropertyName := TypeDefinition.name type ++ "Property" in
  let fullPropertyName := Js.template owner ++ "." ++ shortPropertyName in
  let propertyTypes :=
    Js.set (Pass2.propertyTypes st) fullPropertyName (Js.Obj []) in
  resourceName <- match owner with
                  | Some r => Ok r
                  | None => Err TypeError
                  end ;;
  let '(last, resourceNameParts) := Js.pop (Js.split resourceName "::") in
  let propertyName := "Cfn" ++ Js.template last ++ "." ++ shortPropertyName in
  let serviceType := Js.join resourceNameParts "::" in
  service <- Database.only (Database.lookup_service db serviceType) ;;
  let name := propertyTypeNaming service resourceNameParts propertyName in
  propertyTypeDetails <-
    foldM (typePropertyStep db resourceName) [] (TypeDefinition.properties type) ;;
  Ok (Pass2.Make
        (Some resourceName)
        (Js.set propertyTypes fullPropertyName
                (Js.Obj [ ("name", Js.Obj name);
                          ("properties", Js.Obj propertyTypeDetails) ]))
        (Js.set (Pass2.propertyTypeKeyList st) (TypeDefinition.id type)
                fullPropertyName)).

Definition pass2 (db : Database.t) (propertyRefList : Js.obj string)
  : result Pass2.t :=
  foldM (typeStep db propertyRefList) Pass2.init (Database.typeDefinitions db).

(* ===================================================================== *)
(** ** [generate] and the entry point *)

Module Specification.
Record t : Type :=
  Make { cdkResources : Js.obj ResourceOptions.t;
         cdkTypes : Js.obj Js.value }.
End Specification.

(** [generate], for a database already loaded.  The [modules] and
    [moduleMap] tables of lines 41-62 are built from queries that do not
    throw and are never read again; they are left out. *)
Definition generate (db : Database.t) : result Specification.t :=
  st1 <- pass1 db ;;
  st2 <- pass2 db (RefTable.propertyRefList (Pass1.refs st1)) ;;
  Ok (Specification.Make (Pass1.resourceTypes st1) (Pass2.propertyTypes st2)).

(** What a run of [index.ts] leaves behind: the documents written (file
    name under the output path, and the document serialised into it) and
    the error reported with [core.setFailed], if any. *)
Module Run.
Inductive document : Type :=
| ResourceDocument (d : Js.obj ResourceOptions.t)
| TypeDocument (d : Js.obj Js.value).

Record t : Type :=
  Make { written : list (string * document);
         failed : option error }.
End Run.

(** [generate().then(write both files).catch(core.setFailed)] *)
Definition main (db : Database.t) : Run.t :=
  match generate db with
  | Ok schema =>
      Run.Make
        [ ("cdk-resources.json",
            Run.ResourceDocument (Specification.cdkResources schema));
          ("cdk-types.json",
            Run.TypeDocument (Specification.cdkTypes schema)) ]
        None
  | Err e => Run.Make [] (Some e)
  end.

(* ===================================================================== *)
(** ** Observations on the output *)

(** The [valueType] of the entry of field [id] in a field table. *)
Definition valueTypeOf (fields : Js.obj Js.value) (id : string)
  : option Js.value :=
  option_map (fun entry => Js.member entry "valueType") (Js.get fields id).

(** The keys of the entry of field [id] in a field table. *)
Definition entryKeys (fields : Js.obj Js.value) (id : string)
  : option (list string) :=
  option_map Js.keys_of (Js.get fields id).


(** The [previousType] of the entry of field [id] in a field table. *)
Definition previousTypeEntryOf (fields : Js.obj Js.value) (id : string)
  : option Js.value :=
  option_map (fun entry => Js.member entry "previousType") (Js.get fields id).




(** The members of a naming record that hold derived strings. *)
Definition namingMember (naming : Js.obj Js.value) (language key : string)
  : Js.value :=
  match Js.get naming language with
  | Some entry => Js.member entry key
  | None => Js.Undefined
  end.

(** Whether the character [c] occurs in [s]. *)
Fixpoint contains_char (c : ascii) (s : string) : bool :=
  match s with
  | EmptyString => false
  | String c' s' => Ascii.eqb c' c || contains_char c s'
  end.

(** [s = pre ++ pat ++ post], and [pat] occurs at no position of [s]
    before the end of [pre]: the occurrence after [pre] is the first. *)
Definition first_occurrence (pat s pre post : string) : Prop :=
  s = pre ++ pat ++ post /\
  forall i, i < String.length pre -> String.prefix pat (Js.drop i s) = false.

(** The value of the most recent assignment to key [k] in a sequence of
    assignments (oldest first). *)
Definition last_assigned (k : string) (assignments : list (string * string))
  : option string :=
  option_map snd (find (fun e => String.eqb (fst e) k) (rev assignments)).

(** The table holds, for every key, the value of the most recent
    assignment to it. *)
Definition last_write_wins (tbl : RefTable.t) : Prop :=
  forall k, Js.get (RefTable.propertyRefList tbl) k
            = last_assigned k (RefTable.assignments tbl).


(** Lines 194-197: the namespace under which pass 2 looks up the service
    of an owner, all the [::]-segments of the owner but the last. *)
Definition ownerServiceType (owner : string) : string :=
  Js.join (snd (Js.pop (Js.split owner "::"))) "::".

(** Service resolution fails somewhere in a run: for the namespace of a
    resource (pass 1), or for the namespace of the owner resolved for a
    nested type that pass 2 reaches. *)
Inductive service_resolution_fails (db : Database.t) : Prop :=
| fails_for_resource (r : Resource.t) :
    In r (Database.resources db) ->
    length (Database.lookup_service
              db (serviceTypeOf (Resource.cloudFormationType r))) <> 1 ->
    service_resolution_fails db
| fails_for_type (before after : list TypeDefinition.t)
                 (type : TypeDefinition.t) (st1 : Pass1.t) (st : Pass2.t)
                 (owner : string) :
    Database.typeDefinitions db = (before ++ type :: after)%list ->
    pass1 db = Ok st1 ->
    foldM (typeStep db (RefTable.propertyRefList (Pass1.refs st1)))
          Pass2.init before = Ok st ->
    resolveOwner (RefTable.propertyRefList (Pass1.refs st1))
                 (Pass2.resourceName st) type = Ok (Some owner) ->
    length (Database.lookup_service db (ownerServiceType owner)) <> 1 ->
    service_resolution_fails db.

(* ===================================================================== *)
(** ** Sample databases *)

Module Example.

Definition string_ : PropertyType.t := PropertyType.primitive "string".
Definition number_ : PropertyType.t := PropertyType.primitive "number".
Definition json_ : PropertyType.t := PropertyType.primitive "json".
Definition timestamp_ : PropertyType.t := PropertyType.primitive "timestamp".

Definition s3 : Service.t := Service.Make "aws-s3" "AWS::S3".

(** A nested type referenced by the bucket, and one that no resource
    references. *)
Definition rule : TypeDefinition.t :=
  TypeDefinition.Make "T1" "Rule"
    [ ("Status", Property.Make string_ (Some []) (Some true));
      ("Days", Property.Make number_ (Some [json_; string_]) None) ].

Definition transition : TypeDefinition.t :=
  TypeDefinition.Make "T2" "Transition"
    [ ("StorageClass", Property.Make string_ None None) ].

Definition bucket : Resource.t :=
  Resource.Make "AWS::S3::Bucket" "Bucket"
    [ ("Arn", Attribute.Make string_ (Some [number_; json_]));
      ("DomainName", Attribute.Make string_ None) ]
    [ ("BucketName", Property.Make string_ None (Some true));
      ("Rules",
        Property.Make (PropertyType.array (PropertyType.ref "T1"))
                      (Some []) None);
      ("Tags",
        Property.Make (PropertyType.array (PropertyType.primitive "tag"))
                      (Some [json_; PropertyType.map string_]) None);
      ("Created", Property.Make string_ (Some [timestamp_]) None) ].

Definition db : Database.t :=
  Database.Make [s3] [bucket] [rule; transition].

(** The unreferenced definition comes first. *)
Definition db_unreferenced_first : Database.t :=
  Database.Make [s3] [bucket] [transition; rule].

(** Two resources whose properties reference the same definition. *)
Definition accessPoint : Resource.t :=
  Resource.Make "AWS::S3::AccessPoint" "AccessPoint" []
    [ ("Rule", Property.Make (PropertyType.ref "T1") None None) ].

Definition db_shared : Database.t :=
  Database.Make [s3] [bucket; accessPoint] [rule; transition].

(** A resource whose namespace matches no service, and a namespace
    matched by two services. *)
Definition instance : Resource.t :=
  Resource.Make "AWS::EC2::Instance" "Instance" [] [].

Definition db_no_service : Database.t :=
  Database.Make [s3] [bucket; instance] [rule].

Definition db_two_services : Database.t :=
  Database.Make [s3; Service.Make "aws-s3-legacy" "AWS::S3"] [bucket] [rule].

(** A resource type of four segments: pass 1 finds its service under
    ["AWS::S3"], pass 2 looks for ["AWS::S3::Express"]. *)
Definition directoryBucket : Resource.t :=
  Resource.Make "AWS::S3::Express::Bucket" "Bucket" []
    [ ("Rule", Property.Make (PropertyType.ref "T1") None None) ].

Definition db_four_segments : Database.t :=
  Database.Make [s3] [directoryBucket] [rule].

(** A service name with two hyphens. *)
Definition apigw : Service.t :=
  Service.Make "aws-api-gateway" "AWS::ApiGateway".

Definition restApi : Resource.t :=
  Resource.Make "AWS::ApiGateway::RestApi" "RestApi" [] [].

Definition db_apigw : Database.t :=
  Database.Make [s3; apigw] [restApi] [].

End Example.

(* ===================================================================== *)
(** ** Further definitions: the resolver case by case *)

(** The [map] over the members of a union (lines 92-94) as a function of
    its own; [doGetType] has it inline. *)
Fixpoint unionMembers (db : Database.t) (_cfnType : string)
         (ts : list PropertyType.t) (refIds : Js.obj string)
  : result (list Js.value * Js.obj string) :=
  match ts with
  | [] => Ok ([], refIds)
  | t :: ts' =>
      '(v, ids1) <- doGetType db t _cfnType refIds ;;
      '(vs, ids2) <- unionMembers db _cfnType ts' ids1 ;;
      Ok (v :: vs, ids2)
  end.

(** The tags whose case looks into the descriptor. *)
Definition composite_tags : list string := ["ref"; "array"; "map"; "union"].

(** What the switch returns for a tag whose case is a constant (or for a
    tag without a case). *)
Definition simpleValue (tag : string) : Js.value :=
  if String.eqb tag "string" then Type_.STRING
  else if String.eqb tag "boolean" then Type_.BOOLEAN
  else if String.eqb tag "number" then Type_.NUMBER
  else if String.eqb tag "integer" then Type_.NUMBER
  else if String.eqb tag "date-time" then Type_.DATE_TIME
  else if String.eqb tag "json" then Js.Obj [("primitive", Js.Str "json")]
  else if String.eqb tag "tag" then Js.Obj [("named", Js.Str "CfnTag")]
  else if String.eqb tag "null" then Type_.UNDEFINED
  else Js.Undefined.

(** A descriptor that [doGetType] resolves without throwing: a [ref]
    carries the identifier of a definition of the database, an [array]
    or [map] carries a resolvable element, a [union] carries a list of
    resolvable members; every other tag resolves. *)
Fixpoint resolvable (db : Database.t) (p : PropertyType.t) : bool :=
  match p with
  | PropertyType.Make tag reference element types =>
      if String.eqb tag "ref" then
        match reference with
        | None => false
        | Some id =>
            existsb (fun d => String.eqb (TypeDefinition.id d) id)
                    (Database.typeDefinitions db)
        end
      else if String.eqb tag "array" || String.eqb tag "map" then
        match element with
        | None => false
        | Some e => resolvable db e
        end
      else if String.eqb tag "union" then
        match types with
        | None => false
        | Some ts => forallb (resolvable db) ts
        end
      else true
  end.

(** Structural induction on descriptors, through the optional element
    and the optional member list. *)
Definition opt_all {A} (P : A -> Prop) (o : option A) : Prop :=
  match o with
  | Some x => P x
  | None => True
  end.

Section PropertyTypeInduction.
Variable P : PropertyType.t -> Prop.
Hypothesis step :
  forall tag reference element types,
    opt_all P element -> opt_all (Forall P) types ->
    P (PropertyType.Make tag reference element types).

Fixpoint PropertyType_induction (p : PropertyType.t) : P p :=
  match p with
  | PropertyType.Make tag reference element types =>
      step tag reference element types
           (match element as o return opt_all P o with
            | Some e => PropertyType_induction e
            | None => I
            end)
           (match types as o return opt_all (Forall P) o with
            | Some ts =>
                (fix members (ts : list PropertyType.t) : Forall P ts :=
                   match ts with
                   | [] => Forall_nil P
                   | t :: ts' =>
                       Forall_cons t (PropertyType_induction t) (members ts')
                   end) ts
            | None => I
            end)
  end.
End PropertyTypeInduction.

(** Every id collected by the resolver is the identifier of a definition
    of the database, recorded with the name of that definition. *)
Definition ids_from_db (db : Database.t) (ids : Js.obj string) : Prop :=
  Forall (fun e => exists D,
              In D (Database.typeDefinitions db) /\
              TypeDefinition.id D = fst e /\ TypeDefinition.name D = snd e)
         ids.

(* ===================================================================== *)
(** ** Further definitions: fields and keys *)

(** The current type and every previous type of a field are resolvable. *)
Definition field_resolvable (db : Database.t) (current : PropertyType.t)
           (previous : option (list PropertyType.t)) : bool :=
  resolvable db current &&
  match previous with
  | None => true
  | Some ts => forallb (resolvable db) ts
  end.

(** Some field of the database (an attribute or a property of a
    resource, or a property of a type definition) has a current or a
    previous type that is not resolvable. *)
Inductive has_unresolvable_field (db : Database.t) : Prop :=
| unresolvable_attribute (r : Resource.t) (id : string) (a : Attribute.t) :
    In r (Database.resources db) ->
    In (id, a) (Resource.attributes r) ->
    field_resolvable db (Attribute.type a) (Attribute.previousTypes a)
    = false ->
    has_unresolvable_field db
| unresolvable_property (r : Resource.t) (id : string) (p : Property.t) :
    In r (Database.resources db) ->
    In (id, p) (Resource.properties r) ->
    field_resolvable db (Property.type p) (Property.previousTypes p)
    = false ->
    has_unresolvable_field db
| unresolvable_type_property (D : TypeDefinition.t) (id : string)
                             (p : Property.t) :
    In D (Database.typeDefinitions db) ->
    In (id, p) (TypeDefinition.properties D) ->
    field_resolvable db (Property.type p) (Property.previousTypes p)
    = false ->
    has_unresolvable_field db.

(** The keys of an object after [o[k] = ...]: a new key goes last, a
    key already there keeps its place. *)
Definition add_key (ks : list string) (k : string) : list string :=
  if existsb (String.eqb k) ks then ks else (ks ++ [k])%list.

(** Every entry of a field table is stored under its own [name]. *)
Definition named_by_key (fields : Js.obj Js.value) : Prop :=
  Forall (fun e => Js.member (snd e) "name" = Js.Str (fst e)) fields.

Definition resource_named_by_key (options : ResourceOptions.t) : Prop :=
  named_by_key (ResourceOptions.attributes options) /\
  named_by_key (ResourceOptions.properties options).

(** An entry of the reference table as pass 1 writes it: the identifier
    of a definition of the database, mapped to the type of a resource
    of the database, a dot and the name of the definition. *)
Definition written_by_pass1 (db : Database.t) (e : string * string) : Prop :=
  exists r D,
    In r (Database.resources db) /\
    In D (Database.typeDefinitions db) /\
    fst e = TypeDefinition.id D /\
    snd e = Resource.cloudFormationType r ++ "." ++ TypeDefinition.name D.

Module Example2.

(** A resource whose property refers to a definition that the database
    does not have, inside the first of two previous types. *)
Definition dangling : Resource.t :=
  Resource.Make "AWS::S3::Dangling" "Dangling" []
    [ ("Config",
        Property.Make Example.string_
                      (Some [PropertyType.array (PropertyType.ref "T9");
                             Example.json_])
                      None) ].

Definition db_dangling : Database.t :=
  Database.Make [Example.s3] [Example.bucket; dangling] [Example.rule].

End Example2.

(** The qualified name under which pass 2 stores a definition for an
    owner (line 192). *)
Definition fullPropertyNameOf (owner : string) (D : TypeDefinition.t) : string :=
  owner ++ "." ++ TypeDefinition.name D ++ "Property".

(** An entry of the nested-type document is present under [k]. *)
Definition emitted (types : Js.obj Js.value) (k : string) : Prop :=
  Js.get types k <> None.

(* ===================================================================== *)
(** ** A resource without its previous types *)

Definition withoutPreviousTypes (r : Resource.t) : Resource.t :=
  Resource.Make
    (Resource.cloudFormationType r) (Resource.name r)
    (map (fun e => (fst e, Attribute.Make (Attribute.type (snd e)) None))
         (Resource.attributes r))
    (map (fun e => (fst e,
                    Property.Make (Property.type (snd e)) None
                                  (Property.required (snd e))))
         (Resource.properties r)).

(* ===================================================================== *)
(** ** Further definitions: what a run emits for a resource or a definition *)



(** The definition [D'] is not stored under the qualified name of [D]:
    it has another name, or both have an entry in the reference table
    and the owners of the two entries differ. *)
Definition stored_apart (propertyRefList : Js.obj string)
           (D D' : TypeDefinition.t) : Prop :=
  TypeDefinition.name D' <> TypeDefinition.name D \/
  exists v v',
    Js.get propertyRefList (TypeDefinition.id D) = Some v /\
    Js.get propertyRefList (TypeDefinition.id D') = Some v' /\
    entryOwner v' <> entryOwner v.

(** The field table in the [properties] member of an entry of the
    nested-type document. *)
Definition propertiesOf (entry : Js.value) : Js.obj Js.value :=
  match Js.member entry "properties" with
  | Js.Obj fields => fields
  | _ => []
  end.

(** The database with every empty [previousTypes] list taken away. *)
Definition dropEmpty (previousTypes : option (list PropertyType.t))
  : option (list PropertyType.t) :=
  match previousTypes with
  | Some [] => None
  | _ => previousTypes
  end.

Definition dropEmptyAttribute (e : string * Attribute.t)
  : string * Attribute.t :=
  (fst e, Attribute.Make (Attribute.type (snd e))
                         (dropEmpty (Attribute.previousTypes (snd e)))).

Definition dropEmptyProperty (e : string * Property.t)
  : string * Property.t :=
  (fst e, Property.Make (Property.type (snd e))
                        (dropEmpty (Property.previousTypes (snd e)))
                        (Property.required (snd e))).

Definition dropEmptyResource (r : Resource.t) : Resource.t :=
  Resource.Make (Resource.cloudFormationType r) (Resource.name r)
                (map dropEmptyAttribute (Resource.attributes r))
                (map dropEmptyProperty (Resource.properties r)).

Definition dropEmptyDefinition (D : TypeDefinition.t) : TypeDefinition.t :=
  TypeDefinition.Make (TypeDefinition.id D) (TypeDefinition.name D)
                      (map dropEmptyProperty (TypeDefinition.properties D)).

Definition withoutEmptyPreviousTypes (db : Database.t) : Database.t :=
  Database.Make (Database.services db)
                (map dropEmptyResource (Database.resources db))
                (map dropEmptyDefinition (Database.typeDefinitions db)).

Module Example3.

(** Two resources of one type, and two type definitions stored under
    one qualified name. *)
Definition bucket2 : Resource.t :=
  Resource.Make "AWS::S3::Bucket" "Bucket2"
    [ ("Arn", Attribute.Make Example.string_ None) ]
    [ ("Rules",
        Property.Make (PropertyType.array (PropertyType.ref "T1"))
                      (Some []) None) ].

Definition db_repeated : Database.t :=
  Database.Make [Example.s3] [Example.bucket; bucket2]
                [Example.rule; Example.transition].

End Example3.
(* ===================================================================== *)
(** * Properties *)

(** ** Exceptions and loops *)

Lemma bind_ok {A B} (r : result A) (k : A -> result B) (b : B) :
  bind r k = Ok b -> exists a, r = Ok a /\ k a = Ok b.
Proof.
  destruct r as [a|e]; simpl; intros H; [eauto | discriminate].
Qed.

Lemma bind_err {A B} (r : result A) (k : A -> result B) (e : error) :
  r = Err e -> bind r k = Err e.
Proof. intros ->; reflexivity. Qed.

Ltac inv_bind H :=
  let a := fresh "a" in
  let Ha := fresh "Ha" in
  apply bind_ok in H; destruct H as [a [Ha H]].

Lemma foldM_app {A B} (step : A -> B -> result A) (xs ys : list B) (acc : A) :
  foldM step acc (xs ++ ys)%list =
  bind (foldM step acc xs) (fun acc' => foldM step acc' ys).
Proof.
  revert acc; induction xs as [|x xs IH]; intros acc; simpl.
  - reflexivity.
  - destruct (step acc x) as [acc'|e]; simpl; [apply IH | reflexivity].
Qed.

(** An iteration that throws whatever the accumulator makes the loop
    throw. *)
Lemma foldM_throws {A B} (step : A -> B -> result A) (xs : list B) (x : B) :
  In x xs ->
  (forall acc, is_ok (step acc x) = false) ->
  forall acc, is_ok (foldM step acc xs) = false.
Proof.
  intros Hin Hx; induction xs as [|y ys IH]; intros acc; simpl.
  - destruct Hin.
  - destruct Hin as [->|Hin].
    + specialize (Hx acc). destruct (step acc x); [discriminate | reflexivity].
    + destruct (step acc y) as [acc'|e]; simpl; [apply IH; exact Hin | reflexivity].
Qed.

Lemma not_ok_err {A} (r : result A) :
  is_ok r = false -> exists e, r = Err e.
Proof. destruct r; [discriminate | eauto]. Qed.

Lemma mapM_app {A B} (f : A -> result B) (xs ys : list A) (zs : list B) :
  mapM f (xs ++ ys)%list = Ok zs ->
  exists zs1 zs2,
    mapM f xs = Ok zs1 /\ mapM f ys = Ok zs2 /\ zs = (zs1 ++ zs2)%list.
Proof.
  revert zs; induction xs as [|x xs IH]; intros zs H; simpl in *.
  - exists [], zs; auto.
  - inv_bind H. inv_bind H. injection H as <-.
    destruct (IH _ Ha0) as [zs1 [zs2 [H1 [H2 ->]]]].
    exists (a :: zs1), zs2. rewrite Ha, H1; simpl; auto.
Qed.

(** ** Objects *)

Lemma get_set_same {V} (o : Js.obj V) (k : string) (v : V) :
  Js.get (Js.set o k v) k = Some v.
Proof.
  induction o as [|[k' v'] o IH]; simpl.
  - rewrite String.eqb_refl; reflexivity.
  - destruct (String.eqb_spec k' k) as [->|Hne]; simpl.
    + rewrite String.eqb_refl; reflexivity.
    + apply String.eqb_neq in Hne; rewrite Hne; exact IH.
Qed.

Lemma get_set_other {V} (o : Js.obj V) (k k' : string) (v : V) :
  k' <> k -> Js.get (Js.set o k v) k' = Js.get o k'.
Proof.
  intros Hne; induction o as [|[k0 v0] o IH]; simpl.
  - apply not_eq_sym, String.eqb_neq in Hne; rewrite Hne; reflexivity.
  - destruct (String.eqb_spec k0 k) as [->|Hk]; simpl.
    + apply not_eq_sym, String.eqb_neq in Hne; rewrite Hne; reflexivity.
    + destruct (String.eqb k0 k'); [reflexivity | exact IH].
Qed.

Lemma pop_snoc {A} (xs : list A) (x : A) :
  Js.pop (xs ++ [x])%list = (Some x, xs).
Proof.
  unfold Js.pop. rewrite rev_app_distr; simpl. rewrite rev_involutive.
  reflexivity.
Qed.

(** ** TypeResolver *)

Ltac skip_tag Hnot :=
  match goal with
  | |- context [String.eqb ?tag ?lit] =>
      destruct (String.eqb_spec tag lit) as [?|_];
      [ exfalso; apply Hnot; subst tag; simpl; tauto | ]
  end.

Lemma doGetType_unrecognized (db : Database.t) (p : PropertyType.t)
      (cfnType : string) (refIds : Js.obj string) :
  ~ In (PropertyType.type p) recognized_tags ->
  doGetType db p cfnType refIds = Ok (Js.Undefined, refIds).
Proof.
  intros Hnot. destruct p as [tag r e ts]. cbn [PropertyType.type] in Hnot.
  cbn [doGetType]. repeat skip_tag Hnot. reflexivity.
Qed.

(** C6.  A descriptor whose tag is none of the twelve recognised tags
    resolves to [undefined]: [doGetType] returns normally, leaves the
    collected reference ids as they were, and [getType] returns
    [{type: undefined, ids: {}}]; neither raises an error. *)
Theorem unrecognized_tag_resolves_to_undefined
        (db : Database.t) (p : PropertyType.t) (cfnType : string) :
  ~ In (PropertyType.type p) recognized_tags ->
  (forall refIds,
      doGetType db p cfnType refIds = Ok (Js.Undefined, refIds)) /\
  getType db p cfnType = Ok (TypeResult.Make Js.Undefined []).
Proof.
  intros Hnot; split.
  - intros refIds; apply doGetType_unrecognized; exact Hnot.
  - unfold getType. rewrite doGetType_unrecognized by exact Hnot.
    reflexivity.
Qed.

Lemma unrecognized_tag_resolves_to_undefined_witness :
  ~ In (PropertyType.type (PropertyType.primitive "timestamp"))
       recognized_tags /\
  getType (Database.Make [] [] []) (PropertyType.primitive "timestamp")
          "AWS::S3::Bucket"
  = Ok (TypeResult.Make Js.Undefined []).
Proof.
  assert (Hnot : ~ In (PropertyType.type (PropertyType.primitive "timestamp"))
                      recognized_tags).
  { simpl. intros H.
    repeat (destruct H as [H|H]; [discriminate H|]). exact H. }
  split; [exact Hnot|].
  exact (proj2 (unrecognized_tag_resolves_to_undefined
                  (Database.Make [] [] []) _ "AWS::S3::Bucket" Hnot)).
Defined.

(** The composite and union examples of the specification. *)
Example composite_resolution :
  getType Example.db (PropertyType.array (PropertyType.map Example.string_))
          "AWS::S3::Bucket"
  = Ok (TypeResult.Make
          (Js.Obj [("listOf",
                    Js.Obj [("mapOf", Js.Obj [("primitive", Js.Str "string")])])])
          []).
Proof. reflexivity. Qed.

Example union_ordering :
  getType Example.db (PropertyType.union [Example.string_; Example.number_])
          "AWS::S3::Bucket"
  = Ok (TypeResult.Make
          (Js.Obj [("unionOf",
                    Js.Arr [ Js.Obj [("primitive", Js.Str "string")];
                             Js.Obj [("primitive", Js.Str "number")] ])])
          []).
Proof. reflexivity. Qed.

Lemma get_typeDefinition_id (db : Database.t) (id : string)
      (D : TypeDefinition.t) :
  Database.get_typeDefinition db id = Ok D -> TypeDefinition.id D = id.
Proof.
  unfold Database.get_typeDefinition.
  destruct (find _ _) as [d|] eqn:Hfind; [|discriminate].
  intros H; injection H as <-.
  apply find_some in Hfind. apply String.eqb_eq, Hfind.
Qed.

(** C7.  Resolving a reference descriptor that points at the type
    definition [D], scoped to the owning qualified name [O], returns
    [{named: "<O>.<D.name>"}], and the returned [ids] object has exactly
    one entry, from the identifier of [D] to the short name of [D]. *)
Theorem reference_resolution
        (db : Database.t) (id O : string) (D : TypeDefinition.t)
        (element : option PropertyType.t)
        (types : option (list PropertyType.t)) :
  Database.get_typeDefinition db id = Ok D ->
  getType db (PropertyType.Make "ref" (Some id) element types) O
  = Ok (TypeResult.Make
          (Js.Obj [("named", Js.Str (O ++ "." ++ TypeDefinition.name D))])
          [(TypeDefinition.id D, TypeDefinition.name D)])
  /\ TypeDefinition.id D = id.
Proof.
  intros Hget; split.
  - unfold getType. cbn. rewrite Hget. reflexivity.
  - eapply get_typeDefinition_id; exact Hget.
Qed.

Lemma reference_resolution_witness :
  Database.get_typeDefinition Example.db "T1" = Ok Example.rule /\
  getType Example.db (PropertyType.ref "T1") "AWS::S3::Bucket"
  = Ok (TypeResult.Make
          (Js.Obj [("named", Js.Str "AWS::S3::Bucket.Rule")])
          [("T1", "Rule")]).
Proof.
  split; [reflexivity|].
  exact (proj1 (@reference_resolution Example.db "T1" "AWS::S3::Bucket"
                  Example.rule None None eq_refl)).
Defined.

(** ** Previous types *)

Lemma previousTypeOf_last (db : Database.t) (ts : list PropertyType.t)
      (tn : PropertyType.t) (scope : string) (v : Js.value) :
  previousTypeOf db (Some (ts ++ [tn])%list) scope = Ok v ->
  exists rn, getType db tn scope = Ok rn /\ v = TypeResult.type rn.
Proof.
  unfold previousTypeOf; intros H. inv_bind H. injection H as <-.
  apply mapM_app in Ha. destruct Ha as [zs1 [zs2 [_ [H2 ->]]]].
  simpl in H2. inv_bind H2. inv_bind Ha. injection Ha as <-.
  injection H2 as <-. rewrite pop_snoc. simpl. eauto.
Qed.

Lemma propertyStep_ok (db : Database.t) (scope id : string)
      (property : Property.t) (props props' : Js.obj Js.value)
      (tbl tbl' : RefTable.t) :
  propertyStep db scope (props, tbl) (id, property) = Ok (props', tbl') ->
  exists rc prev,
    getType db (Property.type property) scope = Ok rc /\
    previousTypeOf db (Property.previousTypes property) scope = Ok prev /\
    tbl' = recordRefs scope (TypeResult.ids rc) tbl /\
    props' = Js.set props id
               (Js.Obj [ ("name", Js.Str id);
                         ("valueType", Js.nullish prev (TypeResult.type rc));
                         ("required",
                           requiredValue (Property.required property)) ]).
Proof.
  unfold propertyStep; intros H. inv_bind H. inv_bind H.
  injection H as <- <-. eauto 10.
Qed.

Lemma attributeStep_ok (db : Database.t) (scope id : string)
      (attribute : Attribute.t) (attrs attrs' : Js.obj Js.value)
      (tbl tbl' : RefTable.t) :
  attributeStep db scope (attrs, tbl) (id, attribute) = Ok (attrs', tbl') ->
  exists rc prev,
    getType db (Attribute.type attribute) scope = Ok rc /\
    previousTypeOf db (Attribute.previousTypes attribute) scope = Ok prev /\
    tbl' = recordRefs scope (TypeResult.ids rc) tbl /\
    attrs' = Js.set attrs id
               (Js.Obj [ ("name", Js.Str id);
                         ("valueType", TypeResult.type rc);
                         ("previousType", prev) ]).
Proof.
  unfold attributeStep; intros H. inv_bind H. inv_bind H.
  injection H as <- <-. eauto 10.
Qed.

Lemma typePropertyStep_ok (db : Database.t) (scope id : string)
      (property : Property.t) (details details' : Js.obj Js.value) :
  typePropertyStep db scope details (id, property) = Ok details' ->
  exists rc prev,
    getType db (Property.type property) scope = Ok rc /\
    previousTypeOf db (Property.previousTypes property) scope = Ok prev /\
    details' = Js.set details id
                 (Js.Obj [ ("name", Js.Str id);
                           ("valueType", Js.nullish prev (TypeResult.type rc));
                           ("required",
                             requiredValue (Property.required property)) ]).
Proof.
  unfold typePropertyStep; intros H. inv_bind H. inv_bind H.
  injection H as <-. eauto 10.
Qed.

Lemma valueTypeOf_set (fields : Js.obj Js.value) (id : string)
      (n v : Js.value) (rest : Js.obj Js.value) :
  valueTypeOf (Js.set fields id (Js.Obj (("name", n) :: ("valueType", v) :: rest)))
              id = Some v.
Proof. unfold valueTypeOf. rewrite get_set_same. reflexivity. Qed.

Lemma entryKeys_set (fields : Js.obj Js.value) (id : string)
      (o : Js.obj Js.value) :
  entryKeys (Js.set fields id (Js.Obj o)) id = Some (Js.keys o).
Proof. unfold entryKeys. rewrite get_set_same. reflexivity. Qed.

Lemma nullish_defined (v w : Js.value) :
  v <> Js.Undefined -> Js.nullish v w = v.
Proof. destruct v; simpl; congruence. Qed.

Lemma previousTypeEntryOf_set (fields : Js.obj Js.value) (id : string)
      (n v p : Js.value) :
  previousTypeEntryOf
    (Js.set fields id
            (Js.Obj [("name", n); ("valueType", v); ("previousType", p)]))
    id = Some p.
Proof. unfold previousTypeEntryOf. rewrite get_set_same. reflexivity. Qed.

(** C1 as stated fails.  In the output for the sample database, the
    attribute [Arn] (current type [string], previous types
    [number, json]) has the [valueType] of its current type and not the
    result of its last previous type; and the property [Created], whose
    only previous type has an unrecognised tag and resolves to
    [undefined], has the [valueType] of its current type. *)
Lemma previous_type_precedence_counterexample :
  exists spec options rn ru,
    generate Example.db = Ok spec /\
    Js.get (Specification.cdkResources spec) "AWS::S3::Bucket" = Some options /\
    Js.get (Resource.attributes Example.bucket) "Arn"
    = Some (Attribute.Make Example.string_
                           (Some [Example.number_; Example.json_])) /\
    getType Example.db Example.json_ "AWS::S3::Bucket" = Ok rn /\
    valueTypeOf (ResourceOptions.attributes options) "Arn"
    <> Some (TypeResult.type rn) /\
    Js.get (Resource.properties Example.bucket) "Created"
    = Some (Property.Make Example.string_ (Some [Example.timestamp_]) None) /\
    getType Example.db Example.timestamp_ "AWS::S3::Bucket" = Ok ru /\
    valueTypeOf (ResourceOptions.properties options) "Created"
    <> Some (TypeResult.type ru).
Proof.
  do 4 eexists.
  split; [vm_compute; reflexivity|].
  split; [vm_compute; reflexivity|].
  split; [reflexivity|].
  split; [vm_compute; reflexivity|].
  split; [vm_compute; discriminate|].
  split; [reflexivity|].
  split; [vm_compute; reflexivity|].
  vm_compute; discriminate.
Qed.

(** ** Shapes of the emitted entries *)

Lemma foldM_invariant {A B} (P : A -> Prop) (step : A -> B -> result A) :
  (forall acc x acc', step acc x = Ok acc' -> P acc -> P acc') ->
  forall xs acc acc', foldM step acc xs = Ok acc' -> P acc -> P acc'.
Proof.
  intros Hstep; induction xs as [|x xs IH]; intros acc acc' H HP; simpl in H.
  - injection H as <-; exact HP.
  - inv_bind H. eapply IH; [exact H|]. eapply Hstep; eauto.
Qed.

Lemma set_Forall {V} (Q : V -> Prop) (o : Js.obj V) (k : string) (v : V) :
  Forall (fun e => Q (snd e)) o -> Q v ->
  Forall (fun e => Q (snd e)) (Js.set o k v).
Proof.
  intros Ho Hv; induction Ho as [|[k' v'] o Hh Ho IH]; simpl.
  - constructor; [exact Hv | constructor].
  - destruct (String.eqb k' k); constructor; auto.
Qed.



Lemma resourceStep_ok (db : Database.t) (st st' : Pass1.t) (r : Resource.t) :
  resourceStep db st r = Ok st' ->
  exists service attributeList tbl1 resourceProperties,
    Database.lookup_service
      db (serviceTypeOf (Resource.cloudFormationType r)) = [service] /\
    foldM (attributeStep db (Resource.cloudFormationType r))
          ([], Pass1.refs st) (Resource.attributes r)
    = Ok (attributeList, tbl1) /\
    foldM (propertyStep db (Resource.cloudFormationType r))
          ([], tbl1) (Resource.properties r)
    = Ok (resourceProperties, Pass1.refs st') /\
    Pass1.resourceTypes st'
    = Js.set (Js.set (Pass1.resourceTypes st) (Resource.cloudFormationType r)
                     (ResourceOptions.Make [] [] []))
             (Resource.cloudFormationType r)
             (ResourceOptions.Make
                (constructNaming service (Resource.name r))
                attributeList resourceProperties).
Proof.
  unfold resourceStep; intros H.
  inv_bind H. inv_bind H. destruct a0 as [attributeList tbl1].
  inv_bind H. destruct a0 as [resourceProperties tbl2].
  injection H as <-. simpl.
  exists a, attributeList, tbl1, resourceProperties.
  repeat split; try assumption.
  unfold Database.only in Ha.
  destruct (Database.lookup_service db _) as [|s [|s' l]];
    try discriminate. injection Ha as ->. reflexivity.
Qed.





(** ** The reference table in pass 1 *)

Lemma last_assigned_snoc (k k' v : string) (log : list (string * string)) :
  last_assigned k (log ++ [(k', v)])%list
  = if String.eqb k' k then Some v else last_assigned k log.
Proof.
  unfold last_assigned. rewrite rev_app_distr. simpl.
  destruct (String.eqb k' k); reflexivity.
Qed.

Lemma assign_last_write_wins (tbl : RefTable.t) (k v : string) :
  last_write_wins tbl -> last_write_wins (RefTable.assign tbl k v).
Proof.
  intros Htbl k0. unfold RefTable.assign; simpl.
  rewrite last_assigned_snoc.
  destruct (String.eqb_spec k k0) as [->|Hne].
  - apply get_set_same.
  - rewrite get_set_other by congruence. apply Htbl.
Qed.

Lemma recordRefs_last_write_wins (scope : string) (ids : Js.obj string)
      (tbl : RefTable.t) :
  last_write_wins tbl -> last_write_wins (recordRefs scope ids tbl).
Proof.
  unfold recordRefs. revert tbl.
  induction ids as [|[id name] ids IH]; intros tbl Htbl; simpl.
  - exact Htbl.
  - apply IH, assign_last_write_wins, Htbl.
Qed.

Lemma resourceStep_last_write_wins (db : Database.t) (st st' : Pass1.t)
      (r : Resource.t) :
  resourceStep db st r = Ok st' ->
  last_write_wins (Pass1.refs st) -> last_write_wins (Pass1.refs st').
Proof.
  intros Hstep Hst. apply resourceStep_ok in Hstep.
  destruct Hstep as [service [attrs [tbl1 [props [_ [Ha [Hp _]]]]]]].
  assert (H1 : last_write_wins tbl1).
  { refine (foldM_invariant (fun a => last_write_wins (snd a))
                            _ _ _ _ Ha Hst).
    intros [al t] [id attribute] [al' t'] Hs Ht.
    apply attributeStep_ok in Hs.
    destruct Hs as [rc [prev [_ [_ [-> _]]]]].
    apply recordRefs_last_write_wins, Ht. }
  refine (foldM_invariant (fun a => last_write_wins (snd a)) _ _ _ _ Hp H1).
  intros [pl t] [id property] [pl' t'] Hs Ht.
  apply propertyStep_ok in Hs.
  destruct Hs as [rc [prev [_ [_ [-> _]]]]].
  apply recordRefs_last_write_wins, Ht.
Qed.

(** The sequence of assignments and the table agree at the end of pass 1:
    each entry holds the value of the last assignment to its key. *)
Lemma assignments_agree_with_table (db : Database.t) (st : Pass1.t) :
  pass1 db = Ok st ->
  forall id,
    Js.get (RefTable.propertyRefList (Pass1.refs st)) id
    = last_assigned id (RefTable.assignments (Pass1.refs st)).
Proof.
  unfold pass1; intros H.
  refine (foldM_invariant (fun s => last_write_wins (Pass1.refs s))
                          (resourceStep db) _ _ _ H _).
  - intros acc x acc'; apply resourceStep_last_write_wins.
  - intros k; reflexivity.
Qed.


(** ** Strings *)

Lemma append_nil_r (s : string) : s ++ "" = s.
Proof. induction s as [|c s IH]; simpl; [reflexivity | rewrite IH; reflexivity]. Qed.

Lemma append_assoc (s1 s2 s3 : string) : (s1 ++ s2) ++ s3 = s1 ++ (s2 ++ s3).
Proof.
  induction s1 as [|c s1 IH]; simpl; [reflexivity | rewrite IH; reflexivity].
Qed.

Lemma prefix_nil (s : string) : String.prefix "" s = true.
Proof. destruct s; reflexivity. Qed.

Lemma split_from_dot (c : ascii) (cur s : string) :
  Js.split_from "." 0 cur (String c s)
  = if Ascii.eqb c "." then cur :: Js.split_from "." 0 "" s
    else Js.split_from "." 0 (cur ++ String c "") s.
Proof.
  cbn [Js.split_from String.prefix].
  destruct (ascii_dec "." c) as [<-|Hne].
  - rewrite prefix_nil. reflexivity.
  - destruct (Ascii.eqb_spec c "."); [congruence | reflexivity].
Qed.

(** The first segment of a split at dots contains no dot. *)
Lemma split_dot_head (s cur : string) :
  exists pre rest,
    Js.split_from "." 0 cur s = (cur ++ pre) :: rest /\
    contains_char "." pre = false.
Proof.
  revert cur; induction s as [|c s IH]; intros cur.
  - exists "", []. rewrite append_nil_r. split; reflexivity.
  - rewrite split_from_dot. destruct (Ascii.eqb c ".") eqn:Hc.
    + exists "", (Js.split_from "." 0 "" s). rewrite append_nil_r.
      split; reflexivity.
    + destruct (IH (cur ++ String c "")) as [pre [rest [Hsplit Hpre]]].
      exists (String c pre), rest. rewrite Hsplit, append_assoc. simpl.
      rewrite Hc, Hpre. split; reflexivity.
Qed.

(** A string without a dot is its own only segment. *)
Lemma split_dot_free (s cur : string) :
  contains_char "." s = false ->
  Js.split_from "." 0 cur s = [cur ++ s].
Proof.
  revert cur; induction s as [|c s IH]; intros cur Hfree.
  - simpl. rewrite append_nil_r. reflexivity.
  - simpl in Hfree. apply orb_false_iff in Hfree. destruct Hfree as [Hc Hs].
    rewrite split_from_dot, Hc, (IH _ Hs), append_assoc. reflexivity.
Qed.

Lemma entryOwner_dot_free (v R : string) :
  entryOwner v = Some R -> contains_char "." R = false.
Proof.
  unfold entryOwner, Js.split.
  destruct (split_dot_head v "") as [pre [rest [-> Hpre]]].
  simpl. intros H; injection H as <-. exact Hpre.
Qed.

Lemma entryOwner_idempotent (v R : string) :
  entryOwner v = Some R -> entryOwner R = Some R.
Proof.
  intros H. apply entryOwner_dot_free in H.
  unfold entryOwner, Js.split. rewrite (@split_dot_free R "" H). reflexivity.
Qed.

(** The owner of an entry ["<R>.<name>"] written by pass 1 is [R] when
    the resource type [R] contains no dot. *)
Lemma entryOwner_qualified (R name : string) :
  contains_char "." R = false ->
  entryOwner (R ++ "." ++ name) = Some R.
Proof.
  unfold entryOwner, Js.split. intros Hfree.
  assert (H : forall cur,
             hd_error (Js.split_from "." 0 cur (R ++ "." ++ name))
             = Some (cur ++ R)).
  { induction R as [|c R IH]; intros cur.
    - change ("" ++ "." ++ name) with (String "." name).
      rewrite split_from_dot, append_nil_r. reflexivity.
    - simpl in Hfree. apply orb_false_iff in Hfree. destruct Hfree as [Hc HR].
      change (String c R ++ "." ++ name) with (String c (R ++ "." ++ name)).
      rewrite split_from_dot, Hc, (IH HR), append_assoc. reflexivity. }
  apply (H "").
Qed.

(** ** Pass 2 *)

Lemma only_singleton {A} (xs : list A) (x : A) :
  Database.only xs = Ok x -> xs = [x].
Proof.
  destruct xs as [|y [|z l]]; simpl; try discriminate.
  intros H; injection H as ->; reflexivity.
Qed.

Lemma only_fails {A} (xs : list A) :
  length xs <> 1 -> Database.only xs = Err OnlyError.
Proof.
  destruct xs as [|y [|z l]]; simpl; intros H; try reflexivity.
  exfalso; apply H; reflexivity.
Qed.

Lemma typeStep_ok (db : Database.t) (tbl : Js.obj string) (st st' : Pass2.t)
      (type : TypeDefinition.t) :
  typeStep db tbl st type = Ok st' ->
  exists owner service details,
    resolveOwner tbl (Pass2.resourceName st) type = Ok (Some owner) /\
    Database.lookup_service db (ownerServiceType owner) = [service] /\
    foldM (typePropertyStep db owner) [] (TypeDefinition.properties type)
    = Ok details /\
    Pass2.resourceName st' = Some owner /\
    Pass2.propertyTypes st'
    = Js.set (Js.set (Pass2.propertyTypes st)
                     (owner ++ "." ++ TypeDefinition.name type ++ "Property")
                     (Js.Obj []))
             (owner ++ "." ++ TypeDefinition.name type ++ "Property")
             (Js.Obj
                [ ("name",
                    Js.Obj (propertyTypeNaming
                              service
                              (snd (Js.pop (Js.split owner "::")))
                              ("Cfn"
                                 ++ Js.template
                                      (fst (Js.pop (Js.split owner "::")))
                                 ++ "." ++ TypeDefinition.name type
                                 ++ "Property")));
                  ("properties", Js.Obj details) ]) /\
    Pass2.propertyTypeKeyList st'
    = Js.set (Pass2.propertyTypeKeyList st) (TypeDefinition.id type)
             (owner ++ "." ++ TypeDefinition.name type ++ "Property").
Proof.
  unfold typeStep, ownerServiceType; intros H.
  inv_bind H. destruct a as [owner|]; simpl in H; [|discriminate].
  destruct (Js.pop (Js.split owner "::")) as [last parts] eqn:Hpop.
  inv_bind H. inv_bind H. injection H as <-. simpl.
  exists owner, a, a0. apply only_singleton in Ha0.
  rewrite Hpop; simpl.
  repeat split; assumption || reflexivity.
Qed.

(** ** Failing runs *)

Lemma main_of_failure (db : Database.t) (e : error) :
  generate db = Err e -> main db = Run.Make [] (Some e).
Proof. unfold main; intros ->; reflexivity. Qed.

Lemma resolveOwner_undefined (tbl : Js.obj string) (type : TypeDefinition.t) :
  Js.get tbl (TypeDefinition.id type) = None ->
  resolveOwner tbl None type = Err TypeError.
Proof. unfold resolveOwner; intros ->; reflexivity. Qed.

Lemma typeStep_undefined_owner (db : Database.t) (tbl : Js.obj string)
      (type : TypeDefinition.t) :
  Js.get tbl (TypeDefinition.id type) = None ->
  typeStep db tbl Pass2.init type = Err TypeError.
Proof.
  intros Habsent. unfold typeStep.
  change (Pass2.resourceName Pass2.init) with (@None string).
  rewrite (resolveOwner_undefined _ _ Habsent). reflexivity.
Qed.

(** C9.  When the first type definition of the traversal has no entry
    in the reference table, no owner has been carried yet, resolving
    its owner throws, and the run fails: [generate] returns no schema
    (with a [TypeError] when pass 1 itself succeeded) and the entry
    point writes no document. *)
Theorem unreferenced_first_definition_fails
        (db : Database.t) (type : TypeDefinition.t)
        (rest : list TypeDefinition.t) :
  Database.typeDefinitions db = type :: rest ->
  (forall st1,
      pass1 db = Ok st1 ->
      Js.get (RefTable.propertyRefList (Pass1.refs st1))
             (TypeDefinition.id type) = None) ->
  exists e,
    generate db = Err e /\
    (is_ok (pass1 db) = true -> e = TypeError) /\
    main db = Run.Make [] (Some e).
Proof.
  intros Htypes Habsent.
  assert (H : exists e, generate db = Err e /\
                        (is_ok (pass1 db) = true -> e = TypeError)).
  { unfold generate. destruct (pass1 db) as [st1|e] eqn:Hpass1; simpl.
    - exists TypeError. split; [|reflexivity].
      unfold pass2. rewrite Htypes. cbn [foldM].
      rewrite (typeStep_undefined_owner db _ _ (Habsent st1 eq_refl)).
      reflexivity.
    - exists e. split; [reflexivity | discriminate]. }
  destruct H as [e [Hgen Hkind]].
  exists e. repeat split; [exact Hgen | exact Hkind |].
  apply main_of_failure, Hgen.
Qed.

Lemma unreferenced_first_definition_fails_witness :
  Database.typeDefinitions Example.db_unreferenced_first
  = Example.transition :: [Example.rule] /\
  generate Example.db_unreferenced_first = Err TypeError /\
  main Example.db_unreferenced_first = Run.Make [] (Some TypeError).
Proof.
  split; [reflexivity|].
  assert (Habsent :
            forall st1,
              pass1 Example.db_unreferenced_first = Ok st1 ->
              Js.get (RefTable.propertyRefList (Pass1.refs st1))
                     (TypeDefinition.id Example.transition) = None).
  { intros st1 H. vm_compute in H. injection H as <-. reflexivity. }
  destruct (@unreferenced_first_definition_fails
              Example.db_unreferenced_first Example.transition
              [Example.rule] eq_refl Habsent)
    as [e [Hgen [Hkind Hmain]]].
  rewrite (Hkind eq_refl) in Hgen, Hmain. split; assumption.
Defined.

Lemma resourceStep_service_fails (db : Database.t) (r : Resource.t) :
  length (Database.lookup_service
            db (serviceTypeOf (Resource.cloudFormationType r))) <> 1 ->
  forall st, is_ok (resourceStep db st r) = false.
Proof.
  intros Hlen st. unfold resourceStep.
  rewrite (only_fails _ Hlen). reflexivity.
Qed.

Lemma typeStep_service_fails (db : Database.t) (tbl : Js.obj string)
      (st : Pass2.t) (type : TypeDefinition.t) (owner : string) :
  resolveOwner tbl (Pass2.resourceName st) type = Ok (Some owner) ->
  length (Database.lookup_service db (ownerServiceType owner)) <> 1 ->
  typeStep db tbl st type = Err OnlyError.
Proof.
  intros Howner Hlen. unfold typeStep. rewrite Howner. simpl.
  unfold ownerServiceType in Hlen.
  destruct (Js.pop (Js.split owner "::")) as [last parts]. simpl in Hlen.
  rewrite (only_fails _ Hlen). reflexivity.
Qed.

(** C5.  If service resolution fails for the namespace of a resource,
    or for the namespace of the owner of a nested type that pass 2
    reaches, [generate] throws: it returns no schema, and the entry
    point writes neither document and reports the error. *)
Theorem service_resolution_failure_is_fatal (db : Database.t) :
  service_resolution_fails db ->
  exists e,
    generate db = Err e /\
    main db = Run.Make [] (Some e).
Proof.
  intros Hfails.
  assert (H : exists e, generate db = Err e).
  { destruct Hfails as [r Hin Hlen | before after type st1 st owner
                                     Htypes Hpass1 Hbefore Howner Hlen].
    - destruct (not_ok_err _
                  (foldM_throws (resourceStep db) _ r Hin
                                (resourceStep_service_fails db r Hlen)
                                Pass1.init)) as [e He].
      exists e. unfold generate, pass1. rewrite He. reflexivity.
    - exists OnlyError. unfold generate. rewrite Hpass1. simpl.
      unfold pass2. rewrite Htypes, foldM_app, Hbefore. simpl.
      rewrite (typeStep_service_fails db _ st type Howner Hlen).
      reflexivity. }
  destruct H as [e He]. exists e. split; [exact He|].
  apply main_of_failure, He.
Qed.

Lemma service_resolution_failure_is_fatal_witness :
  service_resolution_fails Example.db_no_service /\
  generate Example.db_no_service = Err OnlyError /\
  main Example.db_no_service = Run.Make [] (Some OnlyError).
Proof.
  assert (Hfails : service_resolution_fails Example.db_no_service).
  { apply fails_for_resource with (r := Example.instance).
    - right; left; reflexivity.
    - vm_compute. discriminate. }
  split; [exact Hfails|].
  destruct (service_resolution_failure_is_fatal Hfails) as [e [Hgen Hmain]].
  assert (He : e = OnlyError).
  { vm_compute in Hgen. injection Hgen as <-. reflexivity. }
  rewrite He in Hgen, Hmain. split; assumption.
Defined.

(** The other two ways for service resolution to fail: a namespace
    matched by two services, and the namespace of a nested type's
    owner (a resource type of four segments) matched by none. *)
Example two_services_is_fatal :
  service_resolution_fails Example.db_two_services /\
  main Example.db_two_services = Run.Make [] (Some OnlyError).
Proof.
  split; [|vm_compute; reflexivity].
  apply fails_for_resource with (r := Example.bucket).
  - left; reflexivity.
  - vm_compute. discriminate.
Qed.

Example nested_type_service_is_fatal :
  service_resolution_fails Example.db_four_segments /\
  is_ok (pass1 Example.db_four_segments) = true /\
  main Example.db_four_segments = Run.Make [] (Some OnlyError).
Proof.
  split; [|split; vm_compute; reflexivity].
  eapply fails_for_type with (before := []) (type := Example.rule)
                             (after := []) (st := Pass2.init)
                             (owner := "AWS::S3::Express::Bucket").
  - reflexivity.
  - vm_compute; reflexivity.
  - reflexivity.
  - vm_compute; reflexivity.
  - vm_compute. discriminate.
Qed.

(** ** Naming *)

Lemma replace_unfold (s pat repl : string) :
  Js.replace s pat repl
  = if String.prefix pat s then repl ++ Js.drop (String.length pat) s
    else match s with
         | EmptyString => EmptyString
         | String c s' => String c (Js.replace s' pat repl)
         end.
Proof. destruct s; reflexivity. Qed.

Lemma prefix_append (pat post : string) :
  String.prefix pat (pat ++ post) = true.
Proof.
  induction pat as [|c pat IH]; simpl.
  - apply prefix_nil.
  - destruct (ascii_dec c c); [exact IH | congruence].
Qed.

Lemma drop_length_append (pat post : string) :
  Js.drop (String.length pat) (pat ++ post) = post.
Proof. induction pat as [|c pat IH]; simpl; [reflexivity | exact IH]. Qed.

(** [replace] rewrites the first occurrence of the pattern and leaves
    whatever follows it as it is. *)
Lemma replace_first_occurrence (pat s pre post repl : string) :
  first_occurrence pat s pre post ->
  Js.replace s pat repl = pre ++ repl ++ post.
Proof.
  intros [-> Hfirst]. induction pre as [|c pre IH].
  - simpl. rewrite replace_unfold, prefix_append, drop_length_append.
    reflexivity.
  - change (String c pre ++ pat ++ post)
      with (String c (pre ++ pat ++ post)) in *.
    rewrite replace_unfold.
    pose proof (Hfirst 0 ltac:(simpl; lia)) as H0. cbn [Js.drop] in H0.
    rewrite H0. simpl. f_equal.
    apply IH. intros i Hi. apply (Hfirst (S i)). simpl; lia.
Qed.

(** Without an occurrence of the pattern, [replace] changes nothing. *)
Lemma replace_absent (pat s repl : string) :
  (forall i, String.prefix pat (Js.drop i s) = false) ->
  Js.replace s pat repl = s.
Proof.
  induction s as [|c s IH]; intros Habsent; rewrite replace_unfold;
    pose proof (Habsent 0) as H0; cbn [Js.drop] in H0; rewrite H0.
  - reflexivity.
  - f_equal. apply IH. intros i. apply (Habsent (S i)).
Qed.

(** On a service name with two hyphens only the first is touched. *)
Example naming_of_two_hyphens :
  exists st' options,
    resourceStep Example.db_apigw Pass1.init Example.restApi = Ok st' /\
    Js.get (Pass1.resourceTypes st') "AWS::ApiGateway::RestApi"
    = Some options /\
    namingMember (ResourceOptions.construct options) "golang" "module"
    = Js.Str "github.com/aws/aws-cdk-go/awscdk/v2/awsapi-gateway" /\
    namingMember (ResourceOptions.construct options) "java" "package"
    = Js.Str "software.amazon.awscdk.services.api-gateway" /\
    namingMember (ResourceOptions.construct options) "python" "module"
    = Js.Str "aws_cdk.aws_api-gateway" /\
    namingMember (ResourceOptions.construct options) "csharp" "namespace"
    = Js.Str "Amazon.CDK.AWS.ApiGateway".
Proof.
  do 2 eexists.
  split; [vm_compute; reflexivity|].
  split; [vm_compute; reflexivity|].
  repeat split; vm_compute; reflexivity.
Qed.

(* ===================================================================== *)
(** * Further properties *)

(** ** The resolver, case by case *)

Lemma tag_kind (tag : string) :
  tag = "ref" \/ tag = "array" \/ tag = "map" \/ tag = "union" \/
  ~ In tag composite_tags.
Proof.
  destruct (string_dec tag "ref") as [?|Hr]; [tauto|].
  destruct (string_dec tag "array") as [?|Ha]; [tauto|].
  destruct (string_dec tag "map") as [?|Hm]; [tauto|].
  destruct (string_dec tag "union") as [?|Hu]; [tauto|].
  right; right; right; right. simpl. intuition congruence.
Qed.

Ltac drop_composite H :=
  repeat match goal with
         | |- context [String.eqb ?t ?lit] =>
             destruct (String.eqb_spec t lit) as [?|_];
             [ exfalso; apply H; subst; simpl; tauto | ]
         end.

Lemma doGetType_simple (db : Database.t) (tag : string)
      (r : option string) (e : option PropertyType.t)
      (ts : option (list PropertyType.t)) (c : string) (ids : Js.obj string) :
  ~ In tag composite_tags ->
  doGetType db (PropertyType.Make tag r e ts) c ids
  = Ok (simpleValue tag, ids).
Proof.
  intros Hsimple. cbn [doGetType]. unfold simpleValue.
  drop_composite Hsimple.
  repeat match goal with
         | |- context [String.eqb tag ?lit] =>
             destruct (String.eqb tag lit); [reflexivity|]
         end.
  reflexivity.
Qed.

Lemma doGetType_ref (db : Database.t) (r : option string)
      (e : option PropertyType.t) (ts : option (list PropertyType.t))
      (c : string) (ids : Js.obj string) :
  doGetType db (PropertyType.Make "ref" r e ts) c ids
  = match r with
    | None => Err TypeError
    | Some id =>
        ref <- Database.get_typeDefinition db id ;;
        Ok (Js.Obj [("named", Js.Str (c ++ "." ++ TypeDefinition.name ref))],
            Js.set ids (TypeDefinition.id ref) (TypeDefinition.name ref))
    end.
Proof. reflexivity. Qed.

Lemma doGetType_array (db : Database.t) (r : option string)
      (e : option PropertyType.t) (ts : option (list PropertyType.t))
      (c : string) (ids : Js.obj string) :
  doGetType db (PropertyType.Make "array" r e ts) c ids
  = match e with
    | None => Err TypeError
    | Some x =>
        '(v, ids') <- doGetType db x c ids ;; Ok (Js.Obj [("listOf", v)], ids')
    end.
Proof. reflexivity. Qed.

Lemma doGetType_map (db : Database.t) (r : option string)
      (e : option PropertyType.t) (ts : option (list PropertyType.t))
      (c : string) (ids : Js.obj string) :
  doGetType db (PropertyType.Make "map" r e ts) c ids
  = match e with
    | None => Err TypeError
    | Some x =>
        '(v, ids') <- doGetType db x c ids ;; Ok (Js.Obj [("mapOf", v)], ids')
    end.
Proof. reflexivity. Qed.

Lemma doGetType_union (db : Database.t) (r : option string)
      (e : option PropertyType.t) (ts : option (list PropertyType.t))
      (c : string) (ids : Js.obj string) :
  doGetType db (PropertyType.Make "union" r e ts) c ids
  = match ts with
    | None => Err TypeError
    | Some l =>
        '(union, ids') <- unionMembers db c l ids ;;
        Ok (Js.Obj [("unionOf", Js.Arr union)], ids')
    end.
Proof.
  destruct ts as [l|]; [|reflexivity]. cbn. f_equal.
  revert ids. induction l as [|t l IH]; intros ids; [reflexivity|].
  cbn. destruct (doGetType db t c ids) as [[v ids1]|err]; [|reflexivity].
  cbn. rewrite IH. reflexivity.
Qed.

Ltac tag_kinds tag H :=
  destruct (tag_kind tag) as [->|[->|[->|[->|H]]]];
  [ rewrite doGetType_ref
  | rewrite doGetType_array
  | rewrite doGetType_map
  | rewrite doGetType_union
  | rewrite doGetType_simple by exact H ].

Lemma get_typeDefinition_ok (db : Database.t) (id : string) :
  is_ok (Database.get_typeDefinition db id)
  = existsb (fun d => String.eqb (TypeDefinition.id d) id)
            (Database.typeDefinitions db).
Proof.
  unfold Database.get_typeDefinition.
  induction (Database.typeDefinitions db) as [|d ds IH]; simpl.
  - reflexivity.
  - destruct (String.eqb (TypeDefinition.id d) id); [reflexivity | exact IH].
Qed.

Lemma get_typeDefinition_In (db : Database.t) (id : string)
      (D : TypeDefinition.t) :
  Database.get_typeDefinition db id = Ok D ->
  In D (Database.typeDefinitions db).
Proof.
  unfold Database.get_typeDefinition.
  destruct (find _ _) as [d|] eqn:Hfind; [|discriminate].
  intros H; injection H as <-. apply find_some in Hfind. apply Hfind.
Qed.

Lemma is_ok_bind {A B} (r : result A) (k : A -> result B) :
  (forall a, is_ok (k a) = true) -> is_ok (bind r k) = is_ok r.
Proof. intros Hk. destruct r; simpl; [apply Hk | reflexivity]. Qed.

Lemma is_ok_bind_false {A B} (r : result A) (k : A -> result B) :
  (forall a, is_ok (k a) = false) -> is_ok (bind r k) = false.
Proof. intros Hk. destruct r; simpl; [apply Hk | reflexivity]. Qed.

Lemma is_ok_bind_left {A B} (r : result A) (k : A -> result B) :
  is_ok r = false -> is_ok (bind r k) = false.
Proof. destruct r; simpl; [discriminate | reflexivity]. Qed.

Lemma doGetType_ok_resolvable (db : Database.t) (p : PropertyType.t) :
  forall c ids, is_ok (doGetType db p c ids) = resolvable db p.
Proof.
  induction p as [tag r e ts IHe IHts] using PropertyType_induction.
  intros c ids. tag_kinds tag Hsimple.
  - cbn. destruct r as [id|]; [|reflexivity].
    rewrite is_ok_bind by reflexivity. apply get_typeDefinition_ok.
  - cbn. destruct e as [x|]; [|reflexivity]. simpl in IHe.
    rewrite <- (IHe c ids).
    destruct (doGetType db x c ids) as [[v i]|]; reflexivity.
  - cbn. destruct e as [x|]; [|reflexivity]. simpl in IHe.
    rewrite <- (IHe c ids).
    destruct (doGetType db x c ids) as [[v i]|]; reflexivity.
  - cbn. destruct ts as [l|]; [|reflexivity]. simpl in IHts.
    assert (H : is_ok (unionMembers db c l ids) = forallb (resolvable db) l).
    { revert ids. induction IHts as [|t l Ht _ IH]; intros ids; [reflexivity|].
      cbn. rewrite <- (Ht c ids).
      destruct (doGetType db t c ids) as [[v i]|]; [|reflexivity].
      cbn. rewrite <- (IH i).
      destruct (unionMembers db c l i) as [[vs j]|]; reflexivity. }
    rewrite <- H.
    destruct (unionMembers db c l ids) as [[vs j]|]; reflexivity.
  - cbn [is_ok resolvable]. drop_composite Hsimple. reflexivity.
Qed.

Lemma set_Forall_entry {V} (Q : string * V -> Prop) (o : Js.obj V)
      (k : string) (v : V) :
  Forall Q o -> Q (k, v) -> Forall Q (Js.set o k v).
Proof.
  intros Ho Hv; induction Ho as [|[k' v'] o Hh Ho IH]; simpl.
  - constructor; [exact Hv | constructor].
  - destruct (String.eqb_spec k' k) as [->|_]; constructor; auto.
Qed.

(** Whatever is kept by recording a definition of the database in the
    id object is kept by the resolver. *)
Lemma doGetType_ids_invariant (db : Database.t) (Q : Js.obj string -> Prop) :
  (forall ids D,
      In D (Database.typeDefinitions db) -> Q ids ->
      Q (Js.set ids (TypeDefinition.id D) (TypeDefinition.name D))) ->
  forall p c ids v ids',
    doGetType db p c ids = Ok (v, ids') -> Q ids -> Q ids'.
Proof.
  intros HQ p.
  induction p as [tag r e ts IHe IHts] using PropertyType_induction.
  intros c ids v ids'. tag_kinds tag Hsimple; intros H Hids.
  - destruct r as [id|]; [|discriminate]. inv_bind H.
    injection H as _ <-. apply HQ; [|exact Hids].
    eapply get_typeDefinition_In; exact Ha.
  - destruct e as [x|]; [|discriminate]. inv_bind H. destruct a as [v0 i].
    injection H as _ <-. exact (IHe _ _ _ _ Ha Hids).
  - destruct e as [x|]; [|discriminate]. inv_bind H. destruct a as [v0 i].
    injection H as _ <-. exact (IHe _ _ _ _ Ha Hids).
  - destruct ts as [l|]; [|discriminate]. inv_bind H. destruct a as [vs i].
    injection H as _ <-. simpl in IHts. clear v.
    revert ids vs i Ha Hids.
    induction IHts as [|t l Ht _ IH]; intros ids vs i Ha Hids; cbn in Ha.
    + injection Ha as _ <-. exact Hids.
    + inv_bind Ha. destruct a as [v1 i1]. inv_bind Ha. destruct a as [vs2 i2].
      injection Ha as _ <-.
      exact (IH _ _ _ Ha1 (Ht _ _ _ _ Ha0 Hids)).
  - injection H as _ <-. exact Hids.
Qed.

Lemma doGetType_ids_from_db (db : Database.t) (p : PropertyType.t)
      (c : string) (ids : Js.obj string) (v : Js.value) (ids' : Js.obj string) :
  doGetType db p c ids = Ok (v, ids') ->
  ids_from_db db ids -> ids_from_db db ids'.
Proof.
  apply (doGetType_ids_invariant db (ids_from_db db)).
  intros i D HD Hi. apply set_Forall_entry; [exact Hi|].
  exists D. auto.
Qed.

Lemma keys_set {V} (o : Js.obj V) (k : string) (v : V) :
  Js.keys (Js.set o k v)
  = if existsb (String.eqb k) (Js.keys o) then Js.keys o
    else (Js.keys o ++ [k])%list.
Proof.
  induction o as [|[k' v'] o IH]; simpl; [reflexivity|].
  rewrite (String.eqb_sym k k').
  destruct (String.eqb_spec k' k) as [->|Hne]; simpl; [reflexivity|].
  rewrite IH. destruct (existsb (String.eqb k) (Js.keys o)); reflexivity.
Qed.

Lemma existsb_eqb_In (k : string) (ks : list string) :
  existsb (String.eqb k) ks = true <-> In k ks.
Proof.
  rewrite existsb_exists. split.
  - intros [x [Hin Heq]]. apply String.eqb_eq in Heq. subst; exact Hin.
  - intros Hin. exists k. split; [exact Hin | apply String.eqb_refl].
Qed.

Lemma keys_set_present {V} (o : Js.obj V) (k : string) (v : V) :
  In k (Js.keys o) -> Js.keys (Js.set o k v) = Js.keys o.
Proof.
  intros Hin. rewrite keys_set.
  apply existsb_eqb_In in Hin. rewrite Hin. reflexivity.
Qed.

Lemma keys_set_fresh {V} (o : Js.obj V) (k : string) (v : V) :
  ~ In k (Js.keys o) -> Js.keys (Js.set o k v) = (Js.keys o ++ [k])%list.
Proof.
  intros Hnot. rewrite keys_set.
  destruct (existsb (String.eqb k) (Js.keys o)) eqn:E; [|reflexivity].
  apply existsb_eqb_In in E. contradiction.
Qed.

Lemma set_NoDup {V} (o : Js.obj V) (k : string) (v : V) :
  NoDup (Js.keys o) -> NoDup (Js.keys (Js.set o k v)).
Proof.
  intros Hnd. rewrite keys_set.
  destruct (existsb (String.eqb k) (Js.keys o)) eqn:E; [exact Hnd|].
  apply NoDup_app; [exact Hnd | repeat constructor; intros [] |].
  intros x Hx [<-|[]]. apply existsb_eqb_In in Hx. congruence.
Qed.

Lemma doGetType_value_independent (db : Database.t) (p : PropertyType.t) :
  forall c ids v ids',
    doGetType db p c ids = Ok (v, ids') ->
    forall ids2, exists ids2', doGetType db p c ids2 = Ok (v, ids2').
Proof.
  induction p as [tag r e ts IHe IHts] using PropertyType_induction.
  intros c ids v ids'.
  destruct (tag_kind tag) as [->|[->|[->|[->|Hsimple]]]]; intros H ids2.
  - rewrite doGetType_ref in *. destruct r as [id|]; [|discriminate].
    inv_bind H. injection H as <- _. rewrite Ha. cbn. eauto.
  - rewrite doGetType_array in *. destruct e as [x|]; [|discriminate].
    inv_bind H. destruct a as [v0 i]. injection H as <- _.
    destruct (IHe _ _ _ _ Ha ids2) as [i2 Hi2]. rewrite Hi2. cbn. eauto.
  - rewrite doGetType_map in *. destruct e as [x|]; [|discriminate].
    inv_bind H. destruct a as [v0 i]. injection H as <- _.
    destruct (IHe _ _ _ _ Ha ids2) as [i2 Hi2]. rewrite Hi2. cbn. eauto.
  - rewrite doGetType_union in *. destruct ts as [l|]; [|discriminate].
    inv_bind H. destruct a as [vs i]. injection H as <- _. simpl in IHts.
    assert (Hm : exists i2, unionMembers db c l ids2 = Ok (vs, i2)).
    { clear ids'. revert ids ids2 vs i Ha.
      induction IHts as [|t l Ht _ IH]; intros ids ids2 vs i Ha; cbn in Ha.
      - injection Ha as <- _. cbn. eauto.
      - inv_bind Ha. destruct a as [v1 i1]. inv_bind Ha.
        destruct a as [vs2 j2]. injection Ha as <- _.
        destruct (Ht _ _ _ _ Ha0 ids2) as [k1 Hk1].
        destruct (IH _ k1 _ _ Ha1) as [k2 Hk2].
        cbn. rewrite Hk1. cbn. rewrite Hk2. cbn. eauto. }
    destruct Hm as [i2 Hi2]. rewrite Hi2. cbn. eauto.
  - rewrite doGetType_simple in * by exact Hsimple.
    injection H as <- _. eauto.
Qed.

Lemma simpleValue_undefined (tag : string) :
  ~ In tag composite_tags ->
  (simpleValue tag = Js.Undefined <-> ~ In tag recognized_tags).
Proof.
  intros Hsimple. unfold simpleValue.
  repeat match goal with
         | |- context [String.eqb tag ?lit] =>
             destruct (String.eqb_spec tag lit) as [->|?];
             [ split; [discriminate
                      | intros H; exfalso; apply H; simpl; tauto] | ]
         end.
  split; [|reflexivity]. intros _ Hin.
  simpl in Hin, Hsimple. intuition congruence.
Qed.

(** X1.  When [getType] returns, the value type is [undefined] exactly
    for the descriptors whose tag is not one of the twelve recognised
    tags: a recognised tag never resolves to [undefined]. *)
Theorem getType_undefined_iff_unrecognized
        (db : Database.t) (p : PropertyType.t) (c : string)
        (res : TypeResult.t) :
  getType db p c = Ok res ->
  (TypeResult.type res = Js.Undefined <->
   ~ In (PropertyType.type p) recognized_tags).
Proof.
  unfold getType. intros H. inv_bind H. destruct a as [v ids].
  injection H as <-. cbn [TypeResult.type].
  destruct p as [tag r e ts]. cbn [PropertyType.type].
  destruct (tag_kind tag) as [->|[->|[->|[->|Hsimple]]]].
  - rewrite doGetType_ref in Ha. destruct r; [|discriminate].
    inv_bind Ha. injection Ha as <- _.
    split; [discriminate | intros H; exfalso; apply H; simpl; tauto].
  - rewrite doGetType_array in Ha. destruct e; [|discriminate].
    inv_bind Ha. destruct a as [v0 i]. injection Ha as <- _.
    split; [discriminate | intros H; exfalso; apply H; simpl; tauto].
  - rewrite doGetType_map in Ha. destruct e; [|discriminate].
    inv_bind Ha. destruct a as [v0 i]. injection Ha as <- _.
    split; [discriminate | intros H; exfalso; apply H; simpl; tauto].
  - rewrite doGetType_union in Ha. destruct ts; [|discriminate].
    inv_bind Ha. destruct a as [v0 i]. injection Ha as <- _.
    split; [discriminate | intros H; exfalso; apply H; simpl; tauto].
  - rewrite doGetType_simple in Ha by exact Hsimple.
    injection Ha as <- _. apply simpleValue_undefined, Hsimple.
Qed.

Lemma getType_undefined_iff_unrecognized_witness :
  getType Example.db (PropertyType.array Example.timestamp_) "AWS::S3::Bucket"
  = Ok (TypeResult.Make (Js.Obj [("listOf", Js.Undefined)]) []) /\
  TypeResult.type (TypeResult.Make (Js.Obj [("listOf", Js.Undefined)]) [])
  <> Js.Undefined.
Proof.
  split; [reflexivity|].
  intros Hundef.
  apply (proj1 (@getType_undefined_iff_unrecognized
                  Example.db (PropertyType.array Example.timestamp_)
                  "AWS::S3::Bucket" _ eq_refl) Hundef).
  simpl. tauto.
Defined.

Lemma getType_ok_resolvable
      (db : Database.t) (p : PropertyType.t) (c : string) :
  is_ok (getType db p c) = resolvable db p.
Proof.
  unfold getType. rewrite <- (doGetType_ok_resolvable db p c []).
  destruct (doGetType db p c []) as [[v ids]|]; reflexivity.
Qed.

(** X2.  [getType] throws exactly on the descriptors that are not
    resolvable: a [ref] without a reference or to an identifier the
    database does not have, an [array] or [map] without an element, a
    [union] without a member list, or a descriptor that contains one of
    these.  The owning scope plays no part in it. *)
Theorem getType_succeeds_iff_resolvable
        (db : Database.t) (p : PropertyType.t) (c : string) :
  is_ok (getType db p c) = resolvable db p.
Proof.
  unfold getType. rewrite <- (doGetType_ok_resolvable db p c []).
  destruct (doGetType db p c []) as [[v ids]|]; reflexivity.
Qed.

(** X3.  The [ids] object returned by [getType] has no key twice, and
    each of its entries maps the identifier of a type definition of the
    database to the name of that definition. *)
Theorem getType_ids_are_definitions
        (db : Database.t) (p : PropertyType.t) (c : string)
        (res : TypeResult.t) :
  getType db p c = Ok res ->
  NoDup (Js.keys (TypeResult.ids res)) /\
  forall id name,
    In (id, name) (TypeResult.ids res) ->
    exists D,
      In D (Database.typeDefinitions db) /\
      TypeDefinition.id D = id /\ TypeDefinition.name D = name.
Proof.
  unfold getType. intros H. inv_bind H. destruct a as [v ids].
  injection H as <-. cbn [TypeResult.ids]. split.
  - refine (doGetType_ids_invariant db (fun i => NoDup (Js.keys i))
                                    _ p c [] Ha _).
    + intros i D _ Hi. apply set_NoDup, Hi.
    + constructor.
  - assert (Hall : ids_from_db db ids).
    { eapply doGetType_ids_from_db; [exact Ha | constructor]. }
    intros id name Hin. unfold ids_from_db in Hall.
    rewrite Forall_forall in Hall. exact (Hall _ Hin).
Qed.

Lemma getType_ids_are_definitions_witness :
  getType Example.db
          (PropertyType.union [PropertyType.ref "T1";
                               PropertyType.array (PropertyType.ref "T2");
                               PropertyType.ref "T1"])
          "AWS::S3::Bucket"
  = Ok (TypeResult.Make
          (Js.Obj [("unionOf",
                    Js.Arr [ Js.Obj [("named", Js.Str "AWS::S3::Bucket.Rule")];
                             Js.Obj [("listOf",
                                      Js.Obj [("named",
                                               Js.Str "AWS::S3::Bucket.Transition")])];
                             Js.Obj [("named", Js.Str "AWS::S3::Bucket.Rule")] ])])
          [("T1", "Rule"); ("T2", "Transition")]) /\
  NoDup (Js.keys [("T1", "Rule"); ("T2", "Transition")]).
Proof.
  split; [reflexivity|].
  exact (proj1 (@getType_ids_are_definitions Example.db _ "AWS::S3::Bucket"
                  _ (eq_refl : getType Example.db
          (PropertyType.union [PropertyType.ref "T1";
                               PropertyType.array (PropertyType.ref "T2");
                               PropertyType.ref "T1"])
          "AWS::S3::Bucket" = Ok (TypeResult.Make _ [("T1", "Rule"); ("T2", "Transition")])))).
Defined.

Lemma unionMembers_each (db : Database.t) (c : string)
      (ts : list PropertyType.t) :
  forall ids vs ids',
    unionMembers db c ts ids = Ok (vs, ids') ->
    Forall2 (fun t v => exists rt, getType db t c = Ok rt /\
                                   TypeResult.type rt = v) ts vs.
Proof.
  induction ts as [|t ts IH]; intros ids vs ids' H; cbn in H.
  - injection H as <- _. constructor.
  - inv_bind H. destruct a as [v1 i1]. inv_bind H. destruct a as [vs2 i2].
    injection H as <- _. constructor; [|exact (IH _ _ _ Ha0)].
    destruct (doGetType_value_independent db t c ids Ha []) as [j Hj].
    exists (TypeResult.Make v1 j). unfold getType. rewrite Hj. auto.
Qed.

(** X4.  Resolution is compositional.  An [array] resolves to
    [{listOf: v}] and a [map] to [{mapOf: v}] where [v] is what
    [getType] gives for the element, with the ids of the element; a
    [union] resolves to [{unionOf: [v1, ..., vn]}] where [vi] is what
    [getType] gives for the i-th member alone, in declaration order. *)
Theorem composite_resolution_is_compositional
        (db : Database.t) (c : string) (r : option string)
        (e : option PropertyType.t) (ts : option (list PropertyType.t))
        (res : TypeResult.t) :
  (getType db (PropertyType.Make "array" r e ts) c = Ok res ->
   exists x rx,
     e = Some x /\ getType db x c = Ok rx /\
     res = TypeResult.Make (Js.Obj [("listOf", TypeResult.type rx)])
                           (TypeResult.ids rx)) /\
  (getType db (PropertyType.Make "map" r e ts) c = Ok res ->
   exists x rx,
     e = Some x /\ getType db x c = Ok rx /\
     res = TypeResult.Make (Js.Obj [("mapOf", TypeResult.type rx)])
                           (TypeResult.ids rx)) /\
  (getType db (PropertyType.Make "union" r e ts) c = Ok res ->
   exists members vs,
     ts = Some members /\
     TypeResult.type res = Js.Obj [("unionOf", Js.Arr vs)] /\
     Forall2 (fun t v => exists rt, getType db t c = Ok rt /\
                                    TypeResult.type rt = v) members vs).
Proof.
  unfold getType at 1 3 5. split; [|split]; intros H; inv_bind H;
    destruct a as [v ids]; injection H as <-.
  - rewrite doGetType_array in Ha. destruct e as [x|]; [|discriminate].
    inv_bind Ha. destruct a as [v0 i]. injection Ha as <- <-.
    exists x, (TypeResult.Make v0 i). unfold getType. rewrite Ha0. auto.
  - rewrite doGetType_map in Ha. destruct e as [x|]; [|discriminate].
    inv_bind Ha. destruct a as [v0 i]. injection Ha as <- <-.
    exists x, (TypeResult.Make v0 i). unfold getType. rewrite Ha0. auto.
  - rewrite doGetType_union in Ha. destruct ts as [l|]; [|discriminate].
    inv_bind Ha. destruct a as [vs i]. injection Ha as <- <-.
    exists l, vs. repeat split. eapply unionMembers_each; exact Ha0.
Qed.

Lemma composite_resolution_is_compositional_witness :
  exists res vs,
    getType Example.db
            (PropertyType.union [PropertyType.ref "T1"; Example.number_])
            "AWS::S3::Bucket" = Ok res /\
    TypeResult.type res = Js.Obj [("unionOf", Js.Arr vs)] /\
    Forall2 (fun t v => exists rt,
                 getType Example.db t "AWS::S3::Bucket" = Ok rt /\
                 TypeResult.type rt = v)
            [PropertyType.ref "T1"; Example.number_] vs.
Proof.
  destruct (proj2 (proj2 (@composite_resolution_is_compositional
                            Example.db "AWS::S3::Bucket" None None
                            (Some [PropertyType.ref "T1"; Example.number_])
                            _)) eq_refl)
    as [members [vs [Hm [Hty Hall]]]].
  injection Hm as <-.
  eexists. exists vs. split; [reflexivity|]. split; [exact Hty | exact Hall].
Defined.

(** ** Fields that do not resolve *)

Lemma previousTypeOf_ok (db : Database.t)
      (previous : option (list PropertyType.t)) (c : string) :
  is_ok (previousTypeOf db previous c)
  = match previous with
    | None => true
    | Some ts => forallb (resolvable db) ts
    end.
Proof.
  destruct previous as [ts|]; [|reflexivity]. unfold previousTypeOf.
  rewrite is_ok_bind by reflexivity.
  induction ts as [|t ts IH]; [reflexivity|]. cbn [mapM forallb].
  rewrite <- (getType_ok_resolvable db t c), <- IH.
  destruct (getType db t c); [|reflexivity]. cbn.
  destruct (mapM _ ts); reflexivity.
Qed.

Lemma attributeStep_is_ok (db : Database.t) (c : string)
      (acc : Js.obj Js.value * RefTable.t) (id : string) (a : Attribute.t) :
  is_ok (attributeStep db c acc (id, a))
  = field_resolvable db (Attribute.type a) (Attribute.previousTypes a).
Proof.
  destruct acc as [attrs tbl]. unfold attributeStep, field_resolvable.
  rewrite <- (getType_ok_resolvable db (Attribute.type a) c).
  rewrite <- (previousTypeOf_ok db (Attribute.previousTypes a) c).
  destruct (getType db (Attribute.type a) c); [|reflexivity]. cbn.
  destruct (previousTypeOf db (Attribute.previousTypes a) c); reflexivity.
Qed.

Lemma propertyStep_is_ok (db : Database.t) (c : string)
      (acc : Js.obj Js.value * RefTable.t) (id : string) (p : Property.t) :
  is_ok (propertyStep db c acc (id, p))
  = field_resolvable db (Property.type p) (Property.previousTypes p).
Proof.
  destruct acc as [props tbl]. unfold propertyStep, field_resolvable.
  rewrite <- (getType_ok_resolvable db (Property.type p) c).
  rewrite <- (previousTypeOf_ok db (Property.previousTypes p) c).
  destruct (getType db (Property.type p) c); [|reflexivity]. cbn.
  destruct (previousTypeOf db (Property.previousTypes p) c); reflexivity.
Qed.

Lemma typePropertyStep_is_ok (db : Database.t) (c : string)
      (details : Js.obj Js.value) (id : string) (p : Property.t) :
  is_ok (typePropertyStep db c details (id, p))
  = field_resolvable db (Property.type p) (Property.previousTypes p).
Proof.
  unfold typePropertyStep, field_resolvable.
  rewrite <- (getType_ok_resolvable db (Property.type p) c).
  rewrite <- (previousTypeOf_ok db (Property.previousTypes p) c).
  destruct (previousTypeOf db (Property.previousTypes p) c); cbn.
  - destruct (getType db (Property.type p) c); reflexivity.
  - apply eq_sym, andb_false_r.
Qed.

Lemma resourceStep_attribute_fails (db : Database.t) (r : Resource.t)
      (id : string) (a : Attribute.t) :
  In (id, a) (Resource.attributes r) ->
  field_resolvable db (Attribute.type a) (Attribute.previousTypes a) = false ->
  forall st, is_ok (resourceStep db st r) = false.
Proof.
  intros Hin Hbad st. unfold resourceStep.
  apply is_ok_bind_false; intros service.
  apply is_ok_bind_left.
  apply (foldM_throws _ _ (id, a) Hin).
  intros acc. rewrite attributeStep_is_ok. exact Hbad.
Qed.

Lemma resourceStep_property_fails (db : Database.t) (r : Resource.t)
      (id : string) (p : Property.t) :
  In (id, p) (Resource.properties r) ->
  field_resolvable db (Property.type p) (Property.previousTypes p) = false ->
  forall st, is_ok (resourceStep db st r) = false.
Proof.
  intros Hin Hbad st. unfold resourceStep.
  apply is_ok_bind_false; intros service.
  apply is_ok_bind_false; intros [attributeList tbl].
  apply is_ok_bind_left.
  apply (foldM_throws _ _ (id, p) Hin).
  intros acc. rewrite propertyStep_is_ok. exact Hbad.
Qed.

Lemma typeStep_property_fails (db : Database.t) (tbl : Js.obj string)
      (D : TypeDefinition.t) (id : string) (p : Property.t) :
  In (id, p) (TypeDefinition.properties D) ->
  field_resolvable db (Property.type p) (Property.previousTypes p) = false ->
  forall st, is_ok (typeStep db tbl st D) = false.
Proof.
  intros Hin Hbad st. unfold typeStep.
  apply is_ok_bind_false; intros owner.
  apply is_ok_bind_false; intros resourceName.
  destruct (Js.pop (Js.split resourceName "::")) as [last parts].
  apply is_ok_bind_false; intros service.
  apply is_ok_bind_left.
  apply (foldM_throws _ _ (id, p) Hin).
  intros acc. rewrite typePropertyStep_is_ok. exact Hbad.
Qed.

(** X5.  A field whose current type or any of whose previous types is
    not resolvable is fatal, wherever it is: for an attribute or a
    property of a resource, or a property of a type definition,
    [generate] throws and the entry point writes no document.  This
    holds for a previous type that is not the last one, although its
    result would not be used. *)
Theorem unresolvable_field_is_fatal (db : Database.t) :
  has_unresolvable_field db ->
  exists e, generate db = Err e /\ main db = Run.Make [] (Some e).
Proof.
  intros Hbad.
  assert (H : is_ok (generate db) = false).
  { unfold generate.
    destruct Hbad as [r id a Hr Hin Hbad | r id p Hr Hin Hbad
                     | D id p HD Hin Hbad].
    - apply is_ok_bind_left. unfold pass1.
      apply (foldM_throws _ _ r Hr).
      apply (resourceStep_attribute_fails db r id a Hin Hbad).
    - apply is_ok_bind_left. unfold pass1.
      apply (foldM_throws _ _ r Hr).
      apply (resourceStep_property_fails db r id p Hin Hbad).
    - apply is_ok_bind_false; intros st1.
      apply is_ok_bind_left. unfold pass2.
      apply (foldM_throws _ _ D HD).
      apply (typeStep_property_fails db _ D id p Hin Hbad). }
  apply not_ok_err in H. destruct H as [e He].
  exists e. split; [exact He | apply main_of_failure, He].
Qed.

Lemma unresolvable_field_is_fatal_witness :
  has_unresolvable_field Example2.db_dangling /\
  generate Example2.db_dangling = Err NoSuchEntity /\
  main Example2.db_dangling = Run.Make [] (Some NoSuchEntity).
Proof.
  assert (Hbad : has_unresolvable_field Example2.db_dangling).
  { eapply unresolvable_property with (r := Example2.dangling) (id := "Config").
    - right; left; reflexivity.
    - left; reflexivity.
    - reflexivity. }
  split; [exact Hbad|].
  destruct (unresolvable_field_is_fatal Hbad) as [e [Hgen Hmain]].
  assert (He : e = NoSuchEntity).
  { vm_compute in Hgen. injection Hgen as <-. reflexivity. }
  rewrite He in Hgen, Hmain. split; assumption.
Defined.

(** ** Keys and their order *)

Lemma keys_set_add {V} (o : Js.obj V) (k : string) (v : V) :
  Js.keys (Js.set o k v) = add_key (Js.keys o) k.
Proof. apply keys_set. Qed.

Lemma add_key_idempotent (ks : list string) (k : string) :
  add_key (add_key ks k) k = add_key ks k.
Proof.
  unfold add_key at 2 3.
  destruct (existsb (String.eqb k) ks) eqn:E.
  - unfold add_key. rewrite E. reflexivity.
  - unfold add_key.
    assert (H : existsb (String.eqb k) (ks ++ [k]) = true).
    { apply existsb_eqb_In, in_or_app. right; left; reflexivity. }
    rewrite H. reflexivity.
Qed.

Lemma foldM_keys {S X} (proj : S -> list string) (key : X -> string)
      (step : S -> X -> result S) :
  (forall s x s', step s x = Ok s' -> proj s' = add_key (proj s) (key x)) ->
  forall xs s s',
    foldM step s xs = Ok s' ->
    proj s' = fold_left add_key (map key xs) (proj s).
Proof.
  intros Hstep; induction xs as [|x xs IH]; intros s s' H; simpl in H.
  - injection H as <-. reflexivity.
  - inv_bind H. simpl. rewrite <- (Hstep _ _ _ Ha). apply IH, H.
Qed.

Lemma fold_add_key_fresh (l ks : list string) :
  NoDup (ks ++ l) -> fold_left add_key l ks = (ks ++ l)%list.
Proof.
  revert ks; induction l as [|k l IH]; intros ks Hnd; simpl.
  - rewrite app_nil_r. reflexivity.
  - assert (Hk : ~ In k ks).
    { apply NoDup_remove_2 in Hnd. intros Hin. apply Hnd.
      apply in_or_app; left; exact Hin. }
    unfold add_key at 2.
    destruct (existsb (String.eqb k) ks) eqn:E.
    + apply existsb_eqb_In in E. contradiction.
    + rewrite IH; rewrite <- app_assoc; [reflexivity | exact Hnd].
Qed.

Lemma fold_add_key_length (l ks : list string) :
  length (fold_left add_key l ks) <= length ks + length l.
Proof.
  revert ks; induction l as [|k l IH]; intros ks; simpl; [lia|].
  specialize (IH (add_key ks k)). unfold add_key in *.
  destruct (existsb (String.eqb k) ks); [lia|].
  rewrite length_app in IH. simpl in IH. lia.
Qed.

Lemma get_In {V} (o : Js.obj V) (k : string) (v : V) :
  Js.get o k = Some v -> In (k, v) o.
Proof.
  induction o as [|[k' v'] o IH]; simpl; [discriminate|].
  destruct (String.eqb_spec k' k) as [->|_].
  - intros H; injection H as ->. left; reflexivity.
  - intros H; right; apply IH, H.
Qed.


Lemma attribute_fold_keys (db : Database.t) (c : string)
      (fields : Js.obj Attribute.t) (acc acc' : Js.obj Js.value * RefTable.t) :
  foldM (attributeStep db c) acc fields = Ok acc' ->
  Js.keys (fst acc') = fold_left add_key (Js.keys fields) (Js.keys (fst acc)).
Proof.
  apply (foldM_keys (fun a => Js.keys (fst a)) fst).
  clear. intros [attrs tbl] [id a] [attrs' tbl'] H.
  apply attributeStep_ok in H. destruct H as [rc [prev [_ [_ [_ ->]]]]].
  apply keys_set_add.
Qed.

Lemma property_fold_keys (db : Database.t) (c : string)
      (fields : Js.obj Property.t) (acc acc' : Js.obj Js.value * RefTable.t) :
  foldM (propertyStep db c) acc fields = Ok acc' ->
  Js.keys (fst acc') = fold_left add_key (Js.keys fields) (Js.keys (fst acc)).
Proof.
  apply (foldM_keys (fun a => Js.keys (fst a)) fst).
  clear. intros [props tbl] [id p] [props' tbl'] H.
  apply propertyStep_ok in H. destruct H as [rc [prev [_ [_ [_ ->]]]]].
  apply keys_set_add.
Qed.

Lemma typeProperty_fold_keys (db : Database.t) (c : string)
      (fields : Js.obj Property.t) (acc acc' : Js.obj Js.value) :
  foldM (typePropertyStep db c) acc fields = Ok acc' ->
  Js.keys acc' = fold_left add_key (Js.keys fields) (Js.keys acc).
Proof.
  apply (foldM_keys (fun a => Js.keys a) fst).
  clear. intros details [id p] details' H.
  apply typePropertyStep_ok in H. destruct H as [rc [prev [_ [_ ->]]]].
  apply keys_set_add.
Qed.

(** X6.  The field tables keep the fields in the order of the database,
    one entry for each: when the ids of the attributes (of the
    properties) of a resource are pairwise different, the keys of the
    emitted [attributes] ([properties]) object are those ids in the
    same order; likewise for the [properties] object of a nested type. *)
Theorem field_order_is_kept (db : Database.t) :
  (forall st st' R,
      resourceStep db st R = Ok st' ->
      NoDup (Js.keys (Resource.attributes R)) ->
      NoDup (Js.keys (Resource.properties R)) ->
      exists options,
        Js.get (Pass1.resourceTypes st') (Resource.cloudFormationType R)
        = Some options /\
        Js.keys (ResourceOptions.attributes options)
        = Js.keys (Resource.attributes R) /\
        Js.keys (ResourceOptions.properties options)
        = Js.keys (Resource.properties R)) /\
  (forall tbl st st' D,
      typeStep db tbl st D = Ok st' ->
      NoDup (Js.keys (TypeDefinition.properties D)) ->
      exists owner entry,
        Js.get (Pass2.propertyTypes st')
               (owner ++ "." ++ TypeDefinition.name D ++ "Property")
        = Some entry /\
        Js.keys_of (Js.member entry "properties")
        = Js.keys (TypeDefinition.properties D)).
Proof.
  split.
  - intros st st' R Hstep Hattrs Hprops.
    apply resourceStep_ok in Hstep.
    destruct Hstep as [service [attrs [tbl1 [props [_ [Ha [Hp Htypes]]]]]]].
    eexists. split; [rewrite Htypes; apply get_set_same|].
    cbn [ResourceOptions.attributes ResourceOptions.properties].
    apply attribute_fold_keys in Ha. apply property_fold_keys in Hp.
    simpl in Ha, Hp. rewrite Ha, Hp.
    split; apply (fold_add_key_fresh _ []); assumption.
  - intros tbl st st' D Hstep Hprops.
    apply typeStep_ok in Hstep.
    destruct Hstep as [owner [service [details [_ [_ [Hd [_ [Htypes _]]]]]]]].
    exists owner. eexists. split; [rewrite Htypes; apply get_set_same|].
    cbn. apply typeProperty_fold_keys in Hd. simpl in Hd. rewrite Hd.
    apply (fold_add_key_fresh _ []). exact Hprops.
Qed.

Lemma field_order_is_kept_witness :
  exists st' options,
    resourceStep Example.db Pass1.init Example.bucket = Ok st' /\
    Js.get (Pass1.resourceTypes st') "AWS::S3::Bucket" = Some options /\
    Js.keys (ResourceOptions.properties options)
    = ["BucketName"; "Rules"; "Tags"; "Created"].
Proof.
  assert (Hattrs : NoDup (Js.keys (Resource.attributes Example.bucket))).
  { repeat constructor; simpl; intuition discriminate. }
  assert (Hprops : NoDup (Js.keys (Resource.properties Example.bucket))).
  { repeat constructor; simpl; intuition discriminate. }
  destruct (proj1 (field_order_is_kept Example.db)
                  Pass1.init _ Example.bucket eq_refl Hattrs Hprops)
    as [options [Hget [_ Hkeys]]].
  eexists. exists options.
  split; [reflexivity|]. split; [exact Hget | exact Hkeys].
Defined.

Lemma resourceStep_keys (db : Database.t) (st st' : Pass1.t) (r : Resource.t) :
  resourceStep db st r = Ok st' ->
  Js.keys (Pass1.resourceTypes st')
  = add_key (Js.keys (Pass1.resourceTypes st)) (Resource.cloudFormationType r).
Proof.
  intros H. apply resourceStep_ok in H.
  destruct H as [service [attrs [tbl1 [props [_ [_ [_ ->]]]]]]].
  rewrite !keys_set_add. apply add_key_idempotent.
Qed.

(** X7.  The resource document has one entry for each resource type of
    the database and no other: its keys are the types of the resources
    in database order, a type that occurs again keeping its first
    place.  When the types are pairwise different, the keys are exactly
    the list of the resource types. *)
Theorem resource_document_keys (db : Database.t) (spec : Specification.t) :
  generate db = Ok spec ->
  Js.keys (Specification.cdkResources spec)
  = fold_left add_key
              (map Resource.cloudFormationType (Database.resources db)) [] /\
  length (Specification.cdkResources spec) <= length (Database.resources db) /\
  (NoDup (map Resource.cloudFormationType (Database.resources db)) ->
   Js.keys (Specification.cdkResources spec)
   = map Resource.cloudFormationType (Database.resources db)).
Proof.
  unfold generate; intros H. inv_bind H. inv_bind H. injection H as <-.
  cbn [Specification.cdkResources]. unfold pass1 in Ha.
  assert (Hkeys : Js.keys (Pass1.resourceTypes a)
                  = fold_left add_key
                      (map Resource.cloudFormationType (Database.resources db))
                      []).
  { apply (@foldM_keys _ _ (fun s => Js.keys (Pass1.resourceTypes s))
                       Resource.cloudFormationType (resourceStep db)
                       (fun s x s' => @resourceStep_keys db s s' x)
                       _ _ _ Ha). }
  split; [exact Hkeys|]. split.
  - rewrite <- (length_map fst). fold (Js.keys (Pass1.resourceTypes a)).
    rewrite Hkeys.
    pose proof (fold_add_key_length
                  (map Resource.cloudFormationType (Database.resources db)) [])
      as Hlen.
    rewrite length_map in Hlen. simpl in Hlen. exact Hlen.
  - intros Hnd. rewrite Hkeys. apply (fold_add_key_fresh _ []). exact Hnd.
Qed.

Lemma resource_document_keys_witness :
  exists spec,
    generate Example.db_shared = Ok spec /\
    Js.keys (Specification.cdkResources spec)
    = ["AWS::S3::Bucket"; "AWS::S3::AccessPoint"].
Proof.
  eexists. split; [vm_compute; reflexivity|].
  refine (proj2 (proj2 (@resource_document_keys Example.db_shared _ eq_refl)) _).
  repeat constructor; simpl; intuition discriminate.
Defined.

(** ** Entries and their names *)

Lemma attributes_named (db : Database.t) (c : string)
      (fields : Js.obj Attribute.t) (acc acc' : Js.obj Js.value * RefTable.t) :
  foldM (attributeStep db c) acc fields = Ok acc' ->
  named_by_key (fst acc) -> named_by_key (fst acc').
Proof.
  apply (foldM_invariant (fun a => named_by_key (fst a))).
  clear. intros [attrs tbl] [id a] [attrs' tbl'] H Hacc.
  apply attributeStep_ok in H. destruct H as [rc [prev [_ [_ [_ ->]]]]].
  apply set_Forall_entry; [exact Hacc | reflexivity].
Qed.

Lemma properties_named (db : Database.t) (c : string)
      (fields : Js.obj Property.t) (acc acc' : Js.obj Js.value * RefTable.t) :
  foldM (propertyStep db c) acc fields = Ok acc' ->
  named_by_key (fst acc) -> named_by_key (fst acc').
Proof.
  apply (foldM_invariant (fun a => named_by_key (fst a))).
  clear. intros [props tbl] [id p] [props' tbl'] H Hacc.
  apply propertyStep_ok in H. destruct H as [rc [prev [_ [_ [_ ->]]]]].
  apply set_Forall_entry; [exact Hacc | reflexivity].
Qed.

Lemma resourceStep_named (db : Database.t) (st st' : Pass1.t) (r : Resource.t) :
  resourceStep db st r = Ok st' ->
  Forall (fun e => resource_named_by_key (snd e)) (Pass1.resourceTypes st) ->
  Forall (fun e => resource_named_by_key (snd e)) (Pass1.resourceTypes st').
Proof.
  intros Hstep Hst. apply resourceStep_ok in Hstep.
  destruct Hstep as [service [attrs [tbl1 [props [_ [Ha [Hp ->]]]]]]].
  apply set_Forall; [apply set_Forall; [exact Hst|]|].
  - split; constructor.
  - split; cbn.
    + apply (attributes_named _ _ _ _ Ha). constructor.
    + apply (properties_named _ _ _ _ Hp). constructor.
Qed.

(** X8.  In the resource document every field entry is stored under
    its own name: for each attribute and each property entry, the
    [name] member is the key under which the entry is found. *)
Theorem field_entries_named_by_key
        (db : Database.t) (spec : Specification.t) :
  generate db = Ok spec ->
  forall cloudFormationType options,
    In (cloudFormationType, options) (Specification.cdkResources spec) ->
    (forall id entry,
        In (id, entry) (ResourceOptions.attributes options) ->
        Js.member entry "name" = Js.Str id) /\
    (forall id entry,
        In (id, entry) (ResourceOptions.properties options) ->
        Js.member entry "name" = Js.Str id).
Proof.
  unfold generate; intros H. inv_bind H. inv_bind H. injection H as <-.
  cbn [Specification.cdkResources]. intros cft options Hin.
  assert (Hall : Forall (fun e => resource_named_by_key (snd e))
                        (Pass1.resourceTypes a)).
  { unfold pass1 in Ha.
    refine (foldM_invariant
              (fun st => Forall (fun e => resource_named_by_key (snd e))
                                (Pass1.resourceTypes st))
              (resourceStep db) _ _ _ Ha _).
    - intros acc x acc'; apply resourceStep_named.
    - constructor. }
  rewrite Forall_forall in Hall. destruct (Hall _ Hin) as [Hattrs Hprops].
  unfold named_by_key in Hattrs, Hprops.
  rewrite Forall_forall in Hattrs, Hprops. cbn in Hattrs, Hprops.
  split; intros id entry Hentry.
  - apply (Hattrs _ Hentry).
  - apply (Hprops _ Hentry).
Qed.

Lemma field_entries_named_by_key_witness :
  exists spec options entry,
    generate Example.db = Ok spec /\
    In ("AWS::S3::Bucket", options) (Specification.cdkResources spec) /\
    In ("Tags", entry) (ResourceOptions.properties options) /\
    Js.member entry "name" = Js.Str "Tags".
Proof.
  do 3 eexists.
  split; [vm_compute; reflexivity|].
  split; [left; reflexivity|].
  split; [right; right; left; reflexivity|].
  eapply (proj2 (@field_entries_named_by_key Example.db _ eq_refl
                   "AWS::S3::Bucket" _ (or_introl eq_refl))).
  right; right; left; reflexivity.
Defined.

(** ** What pass 1 writes into the reference table *)

Lemma foldM_invariant_in {A B} (P : A -> Prop) (step : A -> B -> result A)
      (xs : list B) :
  (forall acc x acc', In x xs -> step acc x = Ok acc' -> P acc -> P acc') ->
  forall acc acc', foldM step acc xs = Ok acc' -> P acc -> P acc'.
Proof.
  induction xs as [|x xs IH]; intros Hstep acc acc' H HP; simpl in H.
  - injection H as <-; exact HP.
  - inv_bind H. eapply IH; [|exact H|].
    + intros acc0 y acc0' Hy. apply Hstep. right; exact Hy.
    + eapply Hstep; [left; reflexivity | exact Ha | exact HP].
Qed.

Lemma recordRefs_written (db : Database.t) (r : Resource.t)
      (ids : Js.obj string) (tbl : RefTable.t) :
  In r (Database.resources db) ->
  ids_from_db db ids ->
  Forall (written_by_pass1 db) (RefTable.propertyRefList tbl) ->
  Forall (written_by_pass1 db)
         (RefTable.propertyRefList
            (recordRefs (Resource.cloudFormationType r) ids tbl)).
Proof.
  intros Hr Hids. unfold recordRefs. revert tbl.
  induction Hids as [|[id name] ids [D [HD [Hid Hname]]] _ IH];
    intros tbl Htbl; simpl.
  - exact Htbl.
  - apply IH. cbn. apply set_Forall_entry; [exact Htbl|].
    exists r, D. simpl in *. subst. auto.
Qed.

Lemma getType_ids_from_db (db : Database.t) (p : PropertyType.t)
      (c : string) (res : TypeResult.t) :
  getType db p c = Ok res -> ids_from_db db (TypeResult.ids res).
Proof.
  unfold getType. intros H. inv_bind H. destruct a as [v ids].
  injection H as <-. cbn.
  eapply doGetType_ids_from_db; [exact Ha | constructor].
Qed.

Lemma resourceStep_written (db : Database.t) (st st' : Pass1.t)
      (r : Resource.t) :
  In r (Database.resources db) ->
  resourceStep db st r = Ok st' ->
  Forall (written_by_pass1 db) (RefTable.propertyRefList (Pass1.refs st)) ->
  Forall (written_by_pass1 db) (RefTable.propertyRefList (Pass1.refs st')).
Proof.
  intros Hr Hstep Hst. apply resourceStep_ok in Hstep.
  destruct Hstep as [service [attrs [tbl1 [props [_ [Ha [Hp _]]]]]]].
  assert (H1 : Forall (written_by_pass1 db) (RefTable.propertyRefList tbl1)).
  { refine (foldM_invariant
              (fun a => Forall (written_by_pass1 db)
                               (RefTable.propertyRefList (snd a)))
              _ _ _ _ Ha Hst).
    intros [al t] [id attribute] [al' t'] Hs Ht.
    apply attributeStep_ok in Hs.
    destruct Hs as [rc [prev [Hrc [_ [-> _]]]]].
    apply recordRefs_written; [exact Hr | | exact Ht].
    eapply getType_ids_from_db; exact Hrc. }
  refine (foldM_invariant
            (fun a => Forall (written_by_pass1 db)
                             (RefTable.propertyRefList (snd a)))
            _ _ _ _ Hp H1).
  intros [pl t] [id property] [pl' t'] Hs Ht.
  apply propertyStep_ok in Hs.
  destruct Hs as [rc [prev [Hrc [_ [-> _]]]]].
  apply recordRefs_written; [exact Hr | | exact Ht].
  eapply getType_ids_from_db; exact Hrc.
Qed.

(** X9.  Every entry that pass 1 leaves in the reference table maps the
    identifier of a type definition of the database to
    ["<type of a resource of the database>.<name of the definition>"],
    and pass 2 reads the owner back from it: when that resource type
    contains no dot, element 0 of the split of the entry at dots is the
    resource type. *)
Theorem reference_table_entries (db : Database.t) (st : Pass1.t) :
  pass1 db = Ok st ->
  forall id v,
    Js.get (RefTable.propertyRefList (Pass1.refs st)) id = Some v ->
    exists r D,
      In r (Database.resources db) /\
      In D (Database.typeDefinitions db) /\
      id = TypeDefinition.id D /\
      v = Resource.cloudFormationType r ++ "." ++ TypeDefinition.name D /\
      (contains_char "." (Resource.cloudFormationType r) = false ->
       entryOwner v = Some (Resource.cloudFormationType r)).
Proof.
  unfold pass1; intros H id v Hget.
  assert (Hall : Forall (written_by_pass1 db)
                        (RefTable.propertyRefList (Pass1.refs st))).
  { refine (foldM_invariant_in
              (fun s => Forall (written_by_pass1 db)
                               (RefTable.propertyRefList (Pass1.refs s)))
              (resourceStep db) _ _ _ H _).
    - intros acc x acc' Hx. apply resourceStep_written, Hx.
    - constructor. }
  apply get_In in Hget. rewrite Forall_forall in Hall.
  destruct (Hall _ Hget) as [r [D [Hr [HD [Hid Hv]]]]]. simpl in Hid, Hv.
  exists r, D. repeat (split; [assumption|]).
  intros Hfree. rewrite Hv. apply entryOwner_qualified, Hfree.
Qed.

Lemma reference_table_entries_witness :
  exists st,
    pass1 Example.db_shared = Ok st /\
    Js.get (RefTable.propertyRefList (Pass1.refs st)) "T1"
    = Some "AWS::S3::AccessPoint.Rule" /\
    exists r D,
      In r (Database.resources Example.db_shared) /\
      In D (Database.typeDefinitions Example.db_shared) /\
      "AWS::S3::AccessPoint.Rule"
      = Resource.cloudFormationType r ++ "." ++ TypeDefinition.name D.
Proof.
  eexists. split; [vm_compute; reflexivity|]. split; [vm_compute; reflexivity|].
  destruct (@reference_table_entries Example.db_shared _ eq_refl
              "T1" "AWS::S3::AccessPoint.Rule" eq_refl)
    as [r [D [Hr [HD [_ [Hv _]]]]]].
  exists r, D. auto.
Defined.

(** ** Namespaces *)

Lemma split_from_skip (sep : string) (k : nat) :
  forall cur s,
    k <= String.length s ->
    Js.split_from sep k cur s = Js.split_from sep 0 cur (Js.drop k s).
Proof.
  induction k as [|k IH]; intros cur s Hlen.
  - destruct s; reflexivity.
  - destruct s as [|c s]; simpl in Hlen; [lia|].
    cbn [Js.split_from Js.drop]. apply IH. lia.
Qed.

Lemma split_from_not_nil (sep : string) (s : string) :
  forall k cur, Js.split_from sep k cur s <> [].
Proof.
  induction s as [|c s IH]; intros k cur; cbn [Js.split_from].
  - discriminate.
  - destruct k; [|apply IH].
    destruct (String.prefix sep (String c s)); [discriminate | apply IH].
Qed.

Lemma join_cons (x : string) (xs : list string) (sep : string) :
  xs <> [] -> Js.join (x :: xs) sep = x ++ sep ++ Js.join xs sep.
Proof. destruct xs; [congruence | reflexivity]. Qed.

Lemma prefix_decompose (sep s : string) :
  String.prefix sep s = true ->
  s = sep ++ Js.drop (String.length sep) s.
Proof.
  revert s; induction sep as [|a sep IH]; intros s H.
  - destruct s; reflexivity.
  - destruct s as [|b s]; simpl in H; [discriminate|].
    destruct (ascii_dec a b) as [->|]; [|discriminate].
    simpl. f_equal. apply IH, H.
Qed.

Lemma prefix_length (sep s : string) :
  String.prefix sep s = true -> String.length sep <= String.length s.
Proof.
  revert s; induction sep as [|a sep IH]; intros s H; simpl; [lia|].
  destruct s as [|b s]; simpl in H; [discriminate|].
  destruct (ascii_dec a b); [|discriminate].
  simpl. apply IH in H. lia.
Qed.

Lemma drop_length (k : nat) (s : string) :
  String.length (Js.drop k s) <= String.length s.
Proof.
  revert s; induction k as [|k IH]; intros s; [destruct s; simpl; lia|].
  destruct s as [|c s]; simpl; [lia|]. specialize (IH s). lia.
Qed.

(** Joining the segments of a split with the separator gives the string
    back. *)
Lemma join_split_from (sep : string) :
  sep <> "" ->
  forall n s cur,
    String.length s <= n ->
    Js.join (Js.split_from sep 0 cur s) sep = cur ++ s.
Proof.
  intros Hsep. induction n as [|n IH]; intros s cur Hlen.
  - destruct s; simpl in Hlen; [|lia]. simpl. rewrite append_nil_r.
    reflexivity.
  - destruct s as [|c s]; [simpl; rewrite append_nil_r; reflexivity|].
    simpl in Hlen. cbn [Js.split_from].
    destruct (String.prefix sep (String c s)) eqn:Hpre.
    + rewrite join_cons by apply split_from_not_nil.
      pose proof (prefix_length _ _ Hpre) as Hl. simpl in Hl.
      rewrite split_from_skip by lia.
      rewrite IH by (pose proof (drop_length (String.length sep - 1) s); lia).
      pose proof (prefix_decompose _ _ Hpre) as Hdec.
      destruct sep as [|a sep]; [congruence|].
      cbn [String.length Js.drop] in Hdec.
      cbn [String.length]. rewrite Nat.sub_succ, Nat.sub_0_r.
      rewrite Hdec. reflexivity.
    + rewrite IH by lia. rewrite append_assoc. reflexivity.
Qed.

Lemma join_split (s sep : string) :
  sep <> "" -> Js.join (Js.split s sep) sep = s.
Proof.
  intros Hsep. unfold Js.split.
  apply (@join_split_from sep Hsep (String.length s) s ""). lia.
Qed.

(** X10.  For a resource type of at most two [::]-segments, the slice
    [(0, 2)] keeps every segment, and the namespace under which pass 1
    looks up the service is the whole resource type. *)
Theorem service_namespace_of_short_type (cloudFormationType : string) :
  length (Js.split cloudFormationType "::") <= 2 ->
  serviceTypeOf cloudFormationType = cloudFormationType.
Proof.
  intros Hlen. unfold serviceTypeOf.
  rewrite firstn_all2 by exact Hlen.
  apply join_split. discriminate.
Qed.

Lemma service_namespace_of_short_type_witness :
  length (Js.split "AWS::S3" "::") <= 2 /\
  serviceTypeOf "AWS::S3" = "AWS::S3".
Proof.
  assert (Hlen : length (Js.split "AWS::S3" "::") <= 2) by (simpl; lia).
  split; [exact Hlen|].
  exact (@service_namespace_of_short_type "AWS::S3" Hlen).
Defined.

(** X11.  For a resource type of exactly three [::]-segments, pass 1
    (the first two segments) and pass 2 (all segments but the last)
    look up the service under the same namespace, and the resource
    type is that namespace followed by [::] and the last segment. *)
Theorem passes_agree_on_three_segments (cloudFormationType : string) :
  length (Js.split cloudFormationType "::") = 3 ->
  serviceTypeOf cloudFormationType = ownerServiceType cloudFormationType /\
  exists last,
    fst (Js.pop (Js.split cloudFormationType "::")) = Some last /\
    cloudFormationType
    = serviceTypeOf cloudFormationType ++ "::" ++ last.
Proof.
  intros Hlen.
  pose proof (@join_split cloudFormationType "::") as Hjoin.
  unfold serviceTypeOf, ownerServiceType.
  destruct (Js.split cloudFormationType "::") as [|a [|b [|c [|d l]]]];
    try discriminate.
  split; [reflexivity|]. exists c. split; [reflexivity|].
  rewrite <- Hjoin at 1 by discriminate.
  simpl. rewrite append_assoc. reflexivity.
Qed.

Lemma passes_agree_on_three_segments_witness :
  length (Js.split "AWS::S3::Bucket" "::") = 3 /\
  serviceTypeOf "AWS::S3::Bucket" = ownerServiceType "AWS::S3::Bucket".
Proof.
  split; [reflexivity|].
  exact (proj1 (@passes_agree_on_three_segments "AWS::S3::Bucket" eq_refl)).
Defined.

(** ** What pass 2 emits *)

Lemma emitted_set (types : Js.obj Js.value) (k k' : string) (v : Js.value) :
  emitted types k -> emitted (Js.set types k' v) k.
Proof.
  unfold emitted. intros H. destruct (string_dec k k') as [->|Hne].
  - rewrite get_set_same. discriminate.
  - rewrite get_set_other by exact Hne. exact H.
Qed.

Lemma emitted_set_same (types : Js.obj Js.value) (k : string) (v : Js.value) :
  emitted (Js.set types k v) k.
Proof. unfold emitted. rewrite get_set_same. discriminate. Qed.

Lemma resolveOwner_dot_free (tbl : Js.obj string) (rn : option string)
      (D : TypeDefinition.t) (owner : string) :
  resolveOwner tbl rn D = Ok (Some owner) ->
  contains_char "." owner = false.
Proof.
  unfold resolveOwner.
  destruct (Js.get tbl (TypeDefinition.id D)) as [v|]; [|destruct rn as [v|]];
    try discriminate;
    intros H; injection H as H; exact (@entryOwner_dot_free _ _ H).
Qed.

(** One iteration of pass 2, seen from outside. *)
Lemma typeStep_emits (db : Database.t) (tbl : Js.obj string)
      (st st' : Pass2.t) (D : TypeDefinition.t) :
  typeStep db tbl st D = Ok st' ->
  exists owner,
    resolveOwner tbl (Pass2.resourceName st) D = Ok (Some owner) /\
    contains_char "." owner = false /\
    Pass2.resourceName st' = Some owner /\
    emitted (Pass2.propertyTypes st') (fullPropertyNameOf owner D) /\
    (forall k, emitted (Pass2.propertyTypes st) k ->
               emitted (Pass2.propertyTypes st') k) /\
    Js.keys (Pass2.propertyTypes st')
    = add_key (Js.keys (Pass2.propertyTypes st)) (fullPropertyNameOf owner D).
Proof.
  intros H. apply typeStep_ok in H.
  destruct H as [owner [service [details [Hres [_ [_ [Hname [Htypes _]]]]]]]].
  exists owner. split; [exact Hres|].
  split; [exact (@resolveOwner_dot_free _ _ _ _ Hres)|].
  split; [exact Hname|]. rewrite Htypes. unfold fullPropertyNameOf.
  split; [apply emitted_set_same|]. split.
  - intros k Hk. apply emitted_set, emitted_set, Hk.
  - rewrite !keys_set_add. apply add_key_idempotent.
Qed.

Lemma pass2_fold_emits (db : Database.t) (tbl : Js.obj string)
      (ds : list TypeDefinition.t) :
  forall st st',
    foldM (typeStep db tbl) st ds = Ok st' ->
    (forall k, emitted (Pass2.propertyTypes st) k ->
               emitted (Pass2.propertyTypes st') k) /\
    (forall D, In D ds ->
               exists owner,
                 contains_char "." owner = false /\
                 (forall v, Js.get tbl (TypeDefinition.id D) = Some v ->
                            entryOwner v = Some owner) /\
                 emitted (Pass2.propertyTypes st')
                         (fullPropertyNameOf owner D)) /\
    (forall k, In k (Js.keys (Pass2.propertyTypes st')) ->
               In k (Js.keys (Pass2.propertyTypes st)) \/
               exists D owner, In D ds /\ k = fullPropertyNameOf owner D) /\
    length (Pass2.propertyTypes st')
    <= length (Pass2.propertyTypes st) + length ds.
Proof.
  induction ds as [|D ds IH]; intros st st' H; simpl in H.
  - injection H as <-. repeat split; auto.
    + intros D [].
    + simpl; lia.
  - inv_bind H. destruct (IH _ _ H) as [Hkeep [Hall [Hkeys Hlen]]].
    destruct (@typeStep_emits _ _ _ _ _ Ha)
      as [owner [Hres [Hfree [_ [Hnew [Hkeep1 Hkeys1]]]]]].
    split; [intros k Hk; apply Hkeep, Hkeep1, Hk|]. split; [|split].
    + intros D' [<-|Hin]; [|apply Hall, Hin].
      exists owner. split; [exact Hfree|]. split; [|apply Hkeep, Hnew].
      intros v Hv. unfold resolveOwner in Hres. rewrite Hv in Hres.
      injection Hres as Hres. exact Hres.
    + intros k Hk. destruct (Hkeys k Hk) as [Hk1|[D' [o [HD' ->]]]].
      * rewrite Hkeys1 in Hk1. unfold add_key in Hk1.
        destruct (existsb _ _); [left; exact Hk1|].
        apply in_app_or in Hk1. destruct Hk1 as [Hk1|[<-|[]]].
        -- left; exact Hk1.
        -- right. exists D, owner. split; [left; reflexivity | reflexivity].
      * right. exists D', o. split; [right; exact HD' | reflexivity].
    + assert (Hl : length (Pass2.propertyTypes a)
                   <= length (Pass2.propertyTypes st) + 1).
      { rewrite <- !(length_map fst).
        change (length (Js.keys (Pass2.propertyTypes a))
                <= length (Js.keys (Pass2.propertyTypes st)) + 1).
        rewrite Hkeys1. unfold add_key.
        destruct (existsb _ _); [lia|]. rewrite length_app. simpl. lia. }
      simpl. lia.
Qed.

(** X12.  In a successful run every type definition of the database is
    emitted, under the qualified name ["<owner>.<name>Property"] of an
    owner without a dot, and the nested-type document holds nothing
    else: each of its keys is such a name of a definition of the
    database, and it has at most as many entries as there are
    definitions. *)
Theorem nested_type_document_covers_definitions
        (db : Database.t) (spec : Specification.t) :
  generate db = Ok spec ->
  (forall D, In D (Database.typeDefinitions db) ->
             exists owner,
               contains_char "." owner = false /\
               Js.get (Specification.cdkTypes spec)
                      (owner ++ "." ++ TypeDefinition.name D ++ "Property")
               <> None) /\
  (forall k, In k (Js.keys (Specification.cdkTypes spec)) ->
             exists D owner,
               In D (Database.typeDefinitions db) /\
               k = owner ++ "." ++ TypeDefinition.name D ++ "Property") /\
  length (Specification.cdkTypes spec)
  <= length (Database.typeDefinitions db).
Proof.
  unfold generate; intros H. inv_bind H. inv_bind H. injection H as <-.
  cbn [Specification.cdkTypes]. unfold pass2 in Ha0.
  destruct (@pass2_fold_emits _ _ _ _ _ Ha0) as [_ [Hall [Hkeys Hlen]]].
  split; [|split].
  - intros D HD. destruct (Hall D HD) as [owner [Hfree [_ Hem]]].
    exists owner. split; [exact Hfree | exact Hem].
  - intros k Hk. destruct (Hkeys k Hk) as [[]|Hex]. exact Hex.
  - simpl in Hlen. exact Hlen.
Qed.

Lemma nested_type_document_covers_definitions_witness :
  exists spec owner,
    generate Example.db = Ok spec /\
    In Example.transition (Database.typeDefinitions Example.db) /\
    Js.get (Specification.cdkTypes spec)
           (owner ++ "." ++ TypeDefinition.name Example.transition ++ "Property")
    <> None.
Proof.
  destruct (proj1 (@nested_type_document_covers_definitions
                     Example.db _ eq_refl)
                  Example.transition (or_intror (or_introl eq_refl)))
    as [owner [_ Hem]].
  eexists. exists owner.
  split; [reflexivity|]. split; [right; left; reflexivity | exact Hem].
Defined.

(** X13.  A type definition that has an entry in the reference table is
    emitted under the owner of that entry: with the table that pass 1
    produced, the nested-type document has the key
    ["<R>.<name>Property"] where [R] is element 0 of the split of the
    entry at dots. *)
Theorem referenced_definition_under_its_owner
        (db : Database.t) (spec : Specification.t) (st1 : Pass1.t)
        (D : TypeDefinition.t) (v R : string) :
  generate db = Ok spec ->
  pass1 db = Ok st1 ->
  In D (Database.typeDefinitions db) ->
  Js.get (RefTable.propertyRefList (Pass1.refs st1)) (TypeDefinition.id D)
  = Some v ->
  entryOwner v = Some R ->
  Js.get (Specification.cdkTypes spec)
         (R ++ "." ++ TypeDefinition.name D ++ "Property") <> None.
Proof.
  unfold generate; intros H Hpass1 HD Hv HR. rewrite Hpass1 in H.
  cbn [bind] in H. inv_bind H. injection H as <-.
  cbn [Specification.cdkTypes]. unfold pass2 in Ha.
  destruct (@pass2_fold_emits _ _ _ _ _ Ha) as [_ [Hall _]].
  destruct (Hall D HD) as [owner [_ [Hown Hem]]].
  specialize (Hown v Hv). rewrite HR in Hown. injection Hown as <-.
  exact Hem.
Qed.

Lemma referenced_definition_under_its_owner_witness :
  exists spec st1,
    generate Example.db_shared = Ok spec /\
    pass1 Example.db_shared = Ok st1 /\
    Js.get (RefTable.propertyRefList (Pass1.refs st1)) "T1"
    = Some "AWS::S3::AccessPoint.Rule" /\
    Js.get (Specification.cdkTypes spec) "AWS::S3::AccessPoint.RuleProperty"
    <> None.
Proof.
  do 2 eexists.
  split; [vm_compute; reflexivity|]. split; [vm_compute; reflexivity|].
  split; [vm_compute; reflexivity|].
  exact (@referenced_definition_under_its_owner
           Example.db_shared _ _ Example.rule
           "AWS::S3::AccessPoint.Rule" "AWS::S3::AccessPoint"
           eq_refl eq_refl (or_introl eq_refl) eq_refl eq_refl).
Defined.

(** X14.  The carry-forward extends over a whole run of unreferenced
    definitions: starting from a carried owner [R] (without a dot),
    when none of the definitions processed next has an entry in the
    reference table, each of them is emitted under [R], and [R] is
    still the carried owner afterwards. *)
Theorem carry_forward_over_a_run
        (db : Database.t) (tbl : Js.obj string)
        (ds : list TypeDefinition.t) (st st' : Pass2.t) (R : string) :
  foldM (typeStep db tbl) st ds = Ok st' ->
  Pass2.resourceName st = Some R ->
  contains_char "." R = false ->
  Forall (fun D => Js.get tbl (TypeDefinition.id D) = None) ds ->
  Pass2.resourceName st' = Some R /\
  forall D, In D ds ->
            Js.get (Pass2.propertyTypes st')
                   (R ++ "." ++ TypeDefinition.name D ++ "Property") <> None.
Proof.
  revert st. induction ds as [|D ds IH]; intros st H Hname Hfree Habsent;
    simpl in H.
  - injection H as <-. split; [exact Hname | intros D []].
  - inv_bind H. inversion Habsent as [|D0 ds0 HD Hds]; subst.
    destruct (@typeStep_emits _ _ _ _ _ Ha)
      as [owner [Hres [_ [Hname1 [Hnew _]]]]].
    assert (Howner : owner = R).
    { unfold resolveOwner in Hres. rewrite HD, Hname in Hres.
      unfold entryOwner, Js.split in Hres.
      rewrite (@split_dot_free R "" Hfree) in Hres.
      injection Hres as <-. reflexivity. }
    subst owner.
    destruct (IH _ H Hname1 Hfree Hds) as [Hfinal Hall].
    split; [exact Hfinal|].
    intros D' [<-|Hin]; [|apply Hall, Hin].
    destruct (@pass2_fold_emits _ _ _ _ _ H) as [Hkeep _].
    apply Hkeep, Hnew.
Qed.

Lemma carry_forward_over_a_run_witness :
  exists st st',
    typeStep Example.db [("T1", "AWS::S3::Bucket.Rule")] Pass2.init
             Example.rule = Ok st /\
    foldM (typeStep Example.db [("T1", "AWS::S3::Bucket.Rule")]) st
          [Example.transition;
           TypeDefinition.Make "T3" "Filter" []] = Ok st' /\
    Pass2.resourceName st' = Some "AWS::S3::Bucket" /\
    Js.get (Pass2.propertyTypes st') "AWS::S3::Bucket.FilterProperty" <> None.
Proof.
  eassert (H1 : typeStep Example.db [("T1", "AWS::S3::Bucket.Rule")]
                         Pass2.init Example.rule = Ok _)
    by (vm_compute; reflexivity).
  match type of H1 with
  | _ = Ok ?s =>
      eassert (H2 : foldM (typeStep Example.db [("T1", "AWS::S3::Bucket.Rule")])
                          s [Example.transition;
                             TypeDefinition.Make "T3" "Filter" []] = Ok _)
        by (vm_compute; reflexivity)
  end.
  assert (Habsent :
            Forall (fun D => Js.get [("T1", "AWS::S3::Bucket.Rule")]
                                    (TypeDefinition.id D) = None)
                   [Example.transition; TypeDefinition.Make "T3" "Filter" []])
    by (repeat constructor).
  destruct (@carry_forward_over_a_run
              Example.db [("T1", "AWS::S3::Bucket.Rule")]
              [Example.transition; TypeDefinition.Make "T3" "Filter" []]
              _ _ "AWS::S3::Bucket" H2 eq_refl eq_refl Habsent)
    as [Hname Hall].
  do 2 eexists.
  split; [exact H1|]. split; [exact H2|]. split; [exact Hname|].
  exact (Hall (TypeDefinition.Make "T3" "Filter" [])
              (or_intror (or_introl eq_refl))).
Defined.

(** ** The golang symbol of a nested type *)

Lemma contains_char_append (c : ascii) (a b : string) :
  contains_char c (a ++ b) = contains_char c a || contains_char c b.
Proof.
  induction a as [|x a IH]; simpl; [reflexivity|].
  rewrite IH. apply orb_assoc.
Qed.

Lemma split_from_segments_free (c : ascii) (sep s : string) :
  forall k cur,
    contains_char c cur = false ->
    contains_char c s = false ->
    Forall (fun seg => contains_char c seg = false)
           (Js.split_from sep k cur s).
Proof.
  induction s as [|x s IH]; intros k cur Hcur Hs; cbn [Js.split_from].
  - constructor; [exact Hcur | constructor].
  - simpl in Hs. apply orb_false_iff in Hs. destruct Hs as [Hx Hs].
    destruct k; [|apply IH; assumption].
    destruct (String.prefix sep (String x s)).
    + constructor; [exact Hcur | apply IH; [reflexivity | exact Hs]].
    + apply IH; [|exact Hs].
      rewrite contains_char_append, Hcur. simpl. rewrite Hx. reflexivity.
Qed.

Lemma pop_last {A} (xs : list A) :
  xs <> [] -> exists x, fst (Js.pop xs) = Some x /\ In x xs.
Proof.
  intros Hne. unfold Js.pop.
  destruct (rev xs) as [|x r] eqn:Hrev.
  - apply (f_equal (@rev A)) in Hrev. rewrite rev_involutive in Hrev.
    simpl in Hrev. contradiction.
  - exists x. split; [reflexivity|].
    apply in_rev. rewrite Hrev. left; reflexivity.
Qed.

Lemma first_occurrence_of_char (c : ascii) (pre post : string) :
  contains_char c pre = false ->
  first_occurrence (String c "") (pre ++ String c "" ++ post) pre post.
Proof.
  intros Hfree. split; [reflexivity|].
  induction pre as [|x pre IH]; intros i Hi; simpl in Hi; [lia|].
  simpl in Hfree. apply orb_false_iff in Hfree. destruct Hfree as [Hx Hpre].
  destruct i as [|i].
  - simpl. destruct (ascii_dec c x) as [->|_]; [|reflexivity].
    rewrite Ascii.eqb_refl in Hx. discriminate.
  - simpl. apply IH; [exact Hpre | lia].
Qed.

(** X15.  The golang symbol of a nested type is the symbol of the other
    languages with its first dot, the one that follows the resource
    part, replaced by an underscore: the resource part is the last
    [::]-segment of the owner and holds no dot, so for the symbol
    ["Cfn<Last>.<name>Property"] golang gets
    ["Cfn<Last>_<name>Property"], whatever dots the name contains. *)
Theorem nested_type_golang_symbol
        (db : Database.t) (tbl : Js.obj string) (st st' : Pass2.t)
        (D : TypeDefinition.t) :
  typeStep db tbl st D = Ok st' ->
  exists owner last entry,
    Js.get (Pass2.propertyTypes st')
           (owner ++ "." ++ TypeDefinition.name D ++ "Property")
    = Some entry /\
    fst (Js.pop (Js.split owner "::")) = Some last /\
    contains_char "." last = false /\
    Js.member (Js.member (Js.member entry "name") "typescript") "name"
    = Js.Str ("Cfn" ++ last ++ "." ++ TypeDefinition.name D ++ "Property") /\
    Js.member (Js.member (Js.member entry "name") "golang") "name"
    = Js.Str ("Cfn" ++ last ++ "_" ++ TypeDefinition.name D ++ "Property").
Proof.
  intros H. pose proof H as Hstep. apply typeStep_ok in H.
  destruct H as [owner [service [details [Hres [_ [_ [_ [Htypes _]]]]]]]].
  pose proof (@resolveOwner_dot_free _ _ _ _ Hres) as Hfree.
  destruct (@pop_last _ (Js.split owner "::")
                      (@split_from_not_nil "::" owner 0 ""))
    as [last [Hlast Hin]].
  assert (Hlastfree : contains_char "." last = false).
  { pose proof (@split_from_segments_free "." "::" owner 0 ""
                  eq_refl Hfree) as Hall.
    rewrite Forall_forall in Hall. exact (Hall _ Hin). }
  exists owner, last. eexists.
  split; [rewrite Htypes; apply get_set_same|].
  split; [exact Hlast|]. split; [exact Hlastfree|].
  rewrite Hlast. cbn [Js.template]. split; [reflexivity|].
  cbn -[Js.replace append].
  assert (Hocc : first_occurrence
                   "." ("Cfn" ++ last ++ "." ++ TypeDefinition.name D ++ "Property")
                   ("Cfn" ++ last) (TypeDefinition.name D ++ "Property")).
  { pose proof (@first_occurrence_of_char
                  "." ("Cfn" ++ last) (TypeDefinition.name D ++ "Property"))
      as Hocc.
    rewrite append_assoc in Hocc. apply Hocc. exact Hlastfree. }
  rewrite (replace_first_occurrence "_" Hocc).
  rewrite append_assoc. reflexivity.
Qed.

Lemma nested_type_golang_symbol_witness :
  exists st' owner last entry,
    typeStep Example.db [("T1", "AWS::S3::Bucket.Rule")] Pass2.init
             (TypeDefinition.Make "T1" "Rule.Filter" []) = Ok st' /\
    Js.get (Pass2.propertyTypes st') (owner ++ "." ++ "Rule.Filter" ++ "Property")
    = Some entry /\
    Js.member (Js.member (Js.member entry "name") "golang") "name"
    = Js.Str ("Cfn" ++ last ++ "_" ++ "Rule.Filter" ++ "Property").
Proof.
  eassert (H1 : typeStep Example.db [("T1", "AWS::S3::Bucket.Rule")]
                         Pass2.init
                         (TypeDefinition.Make "T1" "Rule.Filter" []) = Ok _)
    by (vm_compute; reflexivity).
  destruct (@nested_type_golang_symbol _ _ _ _ _ H1)
    as [owner [last [entry [Hget [_ [_ [_ Hgo]]]]]]].
  eexists. exists owner, last, entry.
  split; [exact H1|]. split; [exact Hget | exact Hgo].
Defined.

(** The same run, computed. *)
Example nested_type_golang_symbol_computed :
  exists st' entry,
    typeStep Example.db [("T1", "AWS::S3::Bucket.Rule")] Pass2.init
             (TypeDefinition.Make "T1" "Rule.Filter" []) = Ok st' /\
    Js.get (Pass2.propertyTypes st') "AWS::S3::Bucket.Rule.FilterProperty"
    = Some entry /\
    Js.member (Js.member (Js.member entry "name") "golang") "name"
    = Js.Str "CfnBucket_Rule.FilterProperty".
Proof.
  do 2 eexists. split; [vm_compute; reflexivity|].
  split; vm_compute; reflexivity.
Qed.

(** ** Previous types and the reference table *)

Lemma attribute_fold_without_previous (db : Database.t) (c : string)
      (fields : Js.obj Attribute.t) :
  forall attrs tbl attrs' tbl' attrs2,
    foldM (attributeStep db c) (attrs, tbl) fields = Ok (attrs', tbl') ->
    exists attrs2',
      foldM (attributeStep db c) (attrs2, tbl)
            (map (fun e => (fst e, Attribute.Make (Attribute.type (snd e)) None))
                 fields)
      = Ok (attrs2', tbl').
Proof.
  induction fields as [|[id a] fields IH];
    intros attrs tbl attrs' tbl' attrs2 H; simpl in H.
  - injection H as _ <-. simpl. eauto.
  - inv_bind H. destruct a0 as [attrs1 tbl1].
    apply attributeStep_ok in Ha. destruct Ha as [rc [prev [Hrc [_ [-> _]]]]].
    cbn [map foldM fst snd]. unfold attributeStep at 1.
    cbn [Attribute.type Attribute.previousTypes]. rewrite Hrc.
    cbn [bind previousTypeOf]. apply (IH _ _ _ _ _ H).
Qed.

Lemma property_fold_without_previous (db : Database.t) (c : string)
      (fields : Js.obj Property.t) :
  forall props tbl props' tbl' props2,
    foldM (propertyStep db c) (props, tbl) fields = Ok (props', tbl') ->
    exists props2',
      foldM (propertyStep db c) (props2, tbl)
            (map (fun e => (fst e,
                            Property.Make (Property.type (snd e)) None
                                          (Property.required (snd e))))
                 fields)
      = Ok (props2', tbl').
Proof.
  induction fields as [|[id p] fields IH];
    intros props tbl props' tbl' props2 H; simpl in H.
  - injection H as _ <-. simpl. eauto.
  - inv_bind H. destruct a as [props1 tbl1].
    apply propertyStep_ok in Ha. destruct Ha as [rc [prev [Hrc [_ [-> _]]]]].
    cbn [map foldM fst snd]. unfold propertyStep at 1.
    cbn [Property.type Property.previousTypes]. rewrite Hrc.
    cbn [bind previousTypeOf]. apply (IH _ _ _ _ _ H).
Qed.

(** X17.  Previous types leave no trace in the reference table: when
    the iteration of pass 1 for a resource succeeds, it also succeeds
    for the same resource with the previous types of all its fields
    taken away, and it leaves the same reference table (with the same
    sequence of assignments).  A definition referenced only from
    previous types is never recorded. *)
Theorem previous_types_leave_no_reference
        (db : Database.t) (st st' : Pass1.t) (R : Resource.t) :
  resourceStep db st R = Ok st' ->
  exists st2,
    resourceStep db st (withoutPreviousTypes R) = Ok st2 /\
    Pass1.refs st2 = Pass1.refs st' /\
    Js.keys (Pass1.resourceTypes st2) = Js.keys (Pass1.resourceTypes st').
Proof.
  intros H. pose proof (@resourceStep_keys _ _ _ _ H) as Hkeys.
  apply resourceStep_ok in H.
  destruct H as [service [attrs [tbl1 [props [Hservice [Ha [Hp Htypes]]]]]]].
  destruct (@attribute_fold_without_previous _ _ _ _ _ _ _ [] Ha)
    as [attrs2 Ha2].
  destruct (@property_fold_without_previous _ _ _ _ _ _ _ [] Hp)
    as [props2 Hp2].
  eexists. split; [|split].
  - unfold resourceStep, withoutPreviousTypes.
    cbn [Resource.cloudFormationType Resource.name
         Resource.attributes Resource.properties].
    rewrite Hservice. cbn [Database.only bind].
    unfold Js.obj in Ha2, Hp2 |- *.
    rewrite Ha2. cbn [bind]. rewrite Hp2. cbn [bind]. reflexivity.
  - reflexivity.
  - cbn [Pass1.resourceTypes]. rewrite Hkeys, !keys_set_add.
    apply add_key_idempotent.
Qed.

Lemma previous_types_leave_no_reference_witness :
  exists st' st2,
    resourceStep Example.db Pass1.init Example.bucket = Ok st' /\
    resourceStep Example.db Pass1.init (withoutPreviousTypes Example.bucket)
    = Ok st2 /\
    Pass1.refs st2 = Pass1.refs st'.
Proof.
  eassert (H1 : resourceStep Example.db Pass1.init Example.bucket = Ok _)
    by (vm_compute; reflexivity).
  destruct (@previous_types_leave_no_reference _ _ _ _ H1)
    as [st2 [Hstep [Hrefs _]]].
  eexists. exists st2. split; [exact H1|]. split; [exact Hstep | exact Hrefs].
Defined.

(** ** Each field and its entry *)

Lemma attribute_fold_get_other (db : Database.t) (c : string)
      (fields : Js.obj Attribute.t) (k : string) :
  ~ In k (Js.keys fields) ->
  forall acc acc',
    foldM (attributeStep db c) acc fields = Ok acc' ->
    Js.get (fst acc') k = Js.get (fst acc) k.
Proof.
  induction fields as [|[id a] fields IH]; intros Hnot acc acc' H; simpl in H.
  - injection H as <-. reflexivity.
  - inv_bind H. simpl in Hnot. rewrite (IH (fun h => Hnot (or_intror h)) _ _ H).
    destruct acc as [attrs tbl]. destruct a0 as [attrs1 tbl1].
    apply attributeStep_ok in Ha. destruct Ha as [rc [prev [_ [_ [_ ->]]]]].
    apply get_set_other. intros ->. apply Hnot. left; reflexivity.
Qed.

Lemma property_fold_get_other (db : Database.t) (c : string)
      (fields : Js.obj Property.t) (k : string) :
  ~ In k (Js.keys fields) ->
  forall acc acc',
    foldM (propertyStep db c) acc fields = Ok acc' ->
    Js.get (fst acc') k = Js.get (fst acc) k.
Proof.
  induction fields as [|[id p] fields IH]; intros Hnot acc acc' H; simpl in H.
  - injection H as <-. reflexivity.
  - inv_bind H. simpl in Hnot. rewrite (IH (fun h => Hnot (or_intror h)) _ _ H).
    destruct acc as [props tbl]. destruct a as [props1 tbl1].
    apply propertyStep_ok in Ha. destruct Ha as [rc [prev [_ [_ [_ ->]]]]].
    apply get_set_other. intros ->. apply Hnot. left; reflexivity.
Qed.

Lemma attribute_fold_entry (db : Database.t) (c : string)
      (fields : Js.obj Attribute.t) (id : string) (a : Attribute.t) :
  NoDup (Js.keys fields) -> In (id, a) fields ->
  forall acc acc',
    foldM (attributeStep db c) acc fields = Ok acc' ->
    exists rc prev,
      getType db (Attribute.type a) c = Ok rc /\
      previousTypeOf db (Attribute.previousTypes a) c = Ok prev /\
      Js.get (fst acc') id
      = Some (Js.Obj [ ("name", Js.Str id);
                       ("valueType", TypeResult.type rc);
                       ("previousType", prev) ]).
Proof.
  induction fields as [|[id0 a0] fields IH]; intros Hnd Hin acc acc' H;
    [destruct Hin|].
  simpl in H, Hnd. inv_bind H. inversion Hnd as [|k ks Hfresh Hrest]; subst.
  destruct Hin as [Heq|Hin]; [|exact (IH Hrest Hin _ _ H)].
  injection Heq as -> ->.
  rewrite (@attribute_fold_get_other db c fields id Hfresh _ _ H).
  destruct acc as [attrs tbl]. destruct a1 as [attrs1 tbl1].
  apply attributeStep_ok in Ha. destruct Ha as [rc [prev [Hrc [Hprev [_ ->]]]]].
  exists rc, prev. repeat split; try assumption. apply get_set_same.
Qed.

Lemma property_fold_entry (db : Database.t) (c : string)
      (fields : Js.obj Property.t) (id : string) (p : Property.t) :
  NoDup (Js.keys fields) -> In (id, p) fields ->
  forall acc acc',
    foldM (propertyStep db c) acc fields = Ok acc' ->
    exists rc prev,
      getType db (Property.type p) c = Ok rc /\
      previousTypeOf db (Property.previousTypes p) c = Ok prev /\
      Js.get (fst acc') id
      = Some (Js.Obj [ ("name", Js.Str id);
                       ("valueType", Js.nullish prev (TypeResult.type rc));
                       ("required", requiredValue (Property.required p)) ]).
Proof.
  induction fields as [|[id0 p0] fields IH]; intros Hnd Hin acc acc' H;
    [destruct Hin|].
  simpl in H, Hnd. inv_bind H. inversion Hnd as [|k ks Hfresh Hrest]; subst.
  destruct Hin as [Heq|Hin]; [|exact (IH Hrest Hin _ _ H)].
  injection Heq as -> ->.
  rewrite (@property_fold_get_other db c fields id Hfresh _ _ H).
  destruct acc as [props tbl]. destruct a as [props1 tbl1].
  apply propertyStep_ok in Ha. destruct Ha as [rc [prev [Hrc [Hprev [_ ->]]]]].
  exists rc, prev. repeat split; try assumption. apply get_set_same.
Qed.

(** X18.  Every field of a resource has its entry.  When the iteration
    of pass 1 for a resource succeeds and the ids of its attributes
    (properties) are pairwise different, then for each attribute the
    [attributes] object holds, under the id, the resolved current type
    as [valueType]; and for each property the [properties] object
    holds, under the id, a [valueType] that is the resolved current
    type or the result of a previous type, and as [required] the
    [required] of the property, [undefined] when it has none. *)
Theorem resource_field_entries
        (db : Database.t) (st st' : Pass1.t) (R : Resource.t) :
  resourceStep db st R = Ok st' ->
  exists options,
    Js.get (Pass1.resourceTypes st') (Resource.cloudFormationType R)
    = Some options /\
    (NoDup (Js.keys (Resource.attributes R)) ->
     forall id a,
       In (id, a) (Resource.attributes R) ->
       exists rc,
         getType db (Attribute.type a) (Resource.cloudFormationType R) = Ok rc /\
         valueTypeOf (ResourceOptions.attributes options) id
         = Some (TypeResult.type rc)) /\
    (NoDup (Js.keys (Resource.properties R)) ->
     forall id p,
       In (id, p) (Resource.properties R) ->
       exists rc prev entry,
         getType db (Property.type p) (Resource.cloudFormationType R) = Ok rc /\
         previousTypeOf db (Property.previousTypes p)
                        (Resource.cloudFormationType R) = Ok prev /\
         Js.get (ResourceOptions.properties options) id = Some entry /\
         Js.member entry "valueType"
         = Js.nullish prev (TypeResult.type rc) /\
         Js.member entry "required"
         = requiredValue (Property.required p)).
Proof.
  intros H. apply resourceStep_ok in H.
  destruct H as [service [attrs [tbl1 [props [_ [Ha [Hp Htypes]]]]]]].
  eexists. split; [rewrite Htypes; apply get_set_same|].
  cbn [ResourceOptions.attributes ResourceOptions.properties]. split.
  - intros Hnd id a Hin.
    destruct (@attribute_fold_entry db _ _ id a Hnd Hin _ _ Ha)
      as [rc [prev [Hrc [_ Hget]]]].
    exists rc. split; [exact Hrc|].
    unfold valueTypeOf. cbn [fst] in Hget. rewrite Hget. reflexivity.
  - intros Hnd id p Hin.
    destruct (@property_fold_entry db _ _ id p Hnd Hin _ _ Hp)
      as [rc [prev [Hrc [Hprev Hget]]]].
    exists rc, prev. eexists.
    split; [exact Hrc|]. split; [exact Hprev|].
    split; [exact Hget|]. split; reflexivity.
Qed.

Lemma resource_field_entries_witness :
  exists st' options entry,
    resourceStep Example.db Pass1.init Example.bucket = Ok st' /\
    Js.get (Pass1.resourceTypes st') "AWS::S3::Bucket" = Some options /\
    Js.get (ResourceOptions.properties options) "BucketName" = Some entry /\
    Js.member entry "required" = Js.Bool true.
Proof.
  eassert (H1 : resourceStep Example.db Pass1.init Example.bucket = Ok _)
    by (vm_compute; reflexivity).
  destruct (@resource_field_entries _ _ _ _ H1)
    as [options [Hget [_ Hprops]]].
  assert (Hnd : NoDup (Js.keys (Resource.properties Example.bucket))).
  { repeat constructor; simpl; intuition discriminate. }
  destruct (Hprops Hnd "BucketName"
                   (Property.Make Example.string_ None (Some true))
                   (or_introl eq_refl))
    as [rc [prev [entry [_ [_ [Hentry [_ Hreq]]]]]]].
  eexists. exists options, entry.
  split; [exact H1|]. split; [exact Hget|]. split; [exact Hentry | exact Hreq].
Defined.

(* ===================================================================== *)
(** * The schema that a run returns *)

Unset Implicit Arguments.

(** ** A run, taken apart *)

Lemma generate_ok (db : Database.t) (spec : Specification.t) :
  generate db = Ok spec ->
  exists st1 st2,
    pass1 db = Ok st1 /\
    pass2 db (RefTable.propertyRefList (Pass1.refs st1)) = Ok st2 /\
    Specification.cdkResources spec = Pass1.resourceTypes st1 /\
    Specification.cdkTypes spec = Pass2.propertyTypes st2.
Proof.
  unfold generate; intros H. inv_bind H. inv_bind H. injection H as <-.
  exists a, a0. auto.
Qed.

Lemma foldM_split {A B} (step : A -> B -> result A) (xs ys : list B) (x : B)
      (acc acc' : A) :
  foldM step acc (xs ++ x :: ys)%list = Ok acc' ->
  exists a1 a2,
    foldM step acc xs = Ok a1 /\ step a1 x = Ok a2 /\
    foldM step a2 ys = Ok acc'.
Proof.
  rewrite foldM_app. intros H. inv_bind H. simpl in H. inv_bind H.
  exists a, a0. auto.
Qed.

Lemma resourceStep_get_other (db : Database.t) (st st' : Pass1.t)
      (r : Resource.t) (k : string) :
  resourceStep db st r = Ok st' ->
  k <> Resource.cloudFormationType r ->
  Js.get (Pass1.resourceTypes st') k = Js.get (Pass1.resourceTypes st) k.
Proof.
  intros H Hk. apply resourceStep_ok in H.
  destruct H as [service [attrs [tbl1 [props [_ [_ [_ ->]]]]]]].
  rewrite !get_set_other by exact Hk. reflexivity.
Qed.

Lemma pass1_fold_get_other (db : Database.t) (k : string)
      (rs : list Resource.t) :
  Forall (fun r => Resource.cloudFormationType r <> k) rs ->
  forall st st',
    foldM (resourceStep db) st rs = Ok st' ->
    Js.get (Pass1.resourceTypes st') k = Js.get (Pass1.resourceTypes st) k.
Proof.
  induction 1 as [|r rs Hr _ IH]; intros st st' H; simpl in H.
  - injection H as <-. reflexivity.
  - inv_bind H. rewrite (IH _ _ H).
    eapply resourceStep_get_other; [exact Ha | congruence].
Qed.

(** What the resource document holds for a resource whose type no later
    resource repeats: the record built in the iteration of that
    resource. *)
Lemma generate_resource_entry (db : Database.t) (spec : Specification.t)
      (before after : list Resource.t) (R : Resource.t) :
  generate db = Ok spec ->
  Database.resources db = (before ++ R :: after)%list ->
  Forall (fun r => Resource.cloudFormationType r
                   <> Resource.cloudFormationType R) after ->
  exists st service attrs tbl1 props tbl2,
    foldM (resourceStep db) Pass1.init before = Ok st /\
    Database.lookup_service
      db (serviceTypeOf (Resource.cloudFormationType R)) = [service] /\
    foldM (attributeStep db (Resource.cloudFormationType R))
          ([], Pass1.refs st) (Resource.attributes R) = Ok (attrs, tbl1) /\
    foldM (propertyStep db (Resource.cloudFormationType R))
          ([], tbl1) (Resource.properties R) = Ok (props, tbl2) /\
    Js.get (Specification.cdkResources spec) (Resource.cloudFormationType R)
    = Some (ResourceOptions.Make (constructNaming service (Resource.name R))
                                 attrs props).
Proof.
  intros Hgen Hres Hlast.
  destruct (generate_ok _ _ Hgen) as [st1 [st2 [Hp1 [_ [-> _]]]]].
  unfold pass1 in Hp1. rewrite Hres in Hp1.
  destruct (foldM_split _ _ _ _ _ _ Hp1) as [st [stR [Hbefore [HR Hafter]]]].
  rewrite (pass1_fold_get_other _ _ _ Hlast _ _ Hafter).
  apply resourceStep_ok in HR.
  destruct HR as [service [attrs [tbl1 [props [Hs [Ha [Hp Htypes]]]]]]].
  exists st, service, attrs, tbl1, props, (Pass1.refs stR).
  repeat (split; [assumption|]).
  rewrite Htypes. apply get_set_same.
Qed.

(** ** A field and the entry it leaves *)

Lemma attribute_fold_last (db : Database.t) (c : string)
      (fb fa : Js.obj Attribute.t) (id : string) (a : Attribute.t)
      (acc acc' : Js.obj Js.value * RefTable.t) :
  ~ In id (Js.keys fa) ->
  foldM (attributeStep db c) acc (fb ++ (id, a) :: fa)%list = Ok acc' ->
  exists rc prev,
    getType db (Attribute.type a) c = Ok rc /\
    previousTypeOf db (Attribute.previousTypes a) c = Ok prev /\
    Js.get (fst acc') id
    = Some (Js.Obj [ ("name", Js.Str id);
                     ("valueType", TypeResult.type rc);
                     ("previousType", prev) ]).
Proof.
  intros Hlast H.
  destruct (foldM_split _ _ _ _ _ _ H) as [[a1 t1] [[a2 t2] [_ [Hstep Hrest]]]].
  rewrite (@attribute_fold_get_other db c fa id Hlast _ _ Hrest).
  apply attributeStep_ok in Hstep.
  destruct Hstep as [rc [prev [Hrc [Hprev [_ ->]]]]].
  exists rc, prev. repeat split; try assumption. apply get_set_same.
Qed.

Lemma property_fold_last (db : Database.t) (c : string)
      (fb fa : Js.obj Property.t) (id : string) (p : Property.t)
      (acc acc' : Js.obj Js.value * RefTable.t) :
  ~ In id (Js.keys fa) ->
  foldM (propertyStep db c) acc (fb ++ (id, p) :: fa)%list = Ok acc' ->
  exists rc prev,
    getType db (Property.type p) c = Ok rc /\
    previousTypeOf db (Property.previousTypes p) c = Ok prev /\
    Js.get (fst acc') id
    = Some (Js.Obj [ ("name", Js.Str id);
                     ("valueType", Js.nullish prev (TypeResult.type rc));
                     ("required", requiredValue (Property.required p)) ]).
Proof.
  intros Hlast H.
  destruct (foldM_split _ _ _ _ _ _ H) as [[a1 t1] [[a2 t2] [_ [Hstep Hrest]]]].
  rewrite (@property_fold_get_other db c fa id Hlast _ _ Hrest).
  apply propertyStep_ok in Hstep.
  destruct Hstep as [rc [prev [Hrc [Hprev [_ ->]]]]].
  exists rc, prev. repeat split; try assumption. apply get_set_same.
Qed.

Lemma valueTypeOf_get (fields : Js.obj Js.value) (id : string)
      (n v : Js.value) (rest : Js.obj Js.value) :
  Js.get fields id = Some (Js.Obj (("name", n) :: ("valueType", v) :: rest)) ->
  valueTypeOf fields id = Some v.
Proof. unfold valueTypeOf. intros ->. reflexivity. Qed.

Lemma previousTypeEntryOf_get (fields : Js.obj Js.value) (id : string)
      (n v p : Js.value) :
  Js.get fields id
  = Some (Js.Obj [("name", n); ("valueType", v); ("previousType", p)]) ->
  previousTypeEntryOf fields id = Some p.
Proof. unfold previousTypeEntryOf. intros ->. reflexivity. Qed.

(** ** Resources *)

Lemma last_of_type (k : string) (rs : list Resource.t) :
  (exists x, In x rs /\ Resource.cloudFormationType x = k) ->
  exists before Rl after,
    rs = (before ++ Rl :: after)%list /\
    Resource.cloudFormationType Rl = k /\
    Forall (fun r => Resource.cloudFormationType r <> k) after.
Proof.
  induction rs as [|r rs IH]; intros [x [Hin Hx]]; [destruct Hin|].
  destruct (existsb (fun y => String.eqb (Resource.cloudFormationType y) k) rs)
    eqn:Hlater.
  - apply existsb_exists in Hlater. destruct Hlater as [y [Hy Hk]].
    apply String.eqb_eq in Hk.
    destruct (IH (ex_intro _ y (conj Hy Hk)))
      as [before [Rl [after [-> [HRl Hafter]]]]].
    exists (r :: before), Rl, after. auto.
  - assert (Hnone : Forall (fun y => Resource.cloudFormationType y <> k) rs).
    { apply Forall_forall. intros y Hy Hk.
      assert (H : existsb (fun y => String.eqb (Resource.cloudFormationType y) k)
                          rs = true).
      { apply existsb_exists. exists y.
        split; [exact Hy | apply String.eqb_eq, Hk]. }
      congruence. }
    destruct Hin as [->|Hin].
    + exists [], x, rs. auto.
    + rewrite Forall_forall in Hnone. exfalso. exact (Hnone x Hin Hx).
Qed.

(** C8.  In the resource document of a successful run, every resource
    [R] of the database has a record, and its [construct] has exactly
    the five entries typescript, csharp, golang, java and python, each
    with the same [name]: ["Cfn<R.name>"] (when another resource of the
    same type comes later in the database, the record is the one of
    the last such resource, and the name is its name).  The derived
    strings change only the first occurrence of what they search for:
    the first hyphen of the service name is removed (golang), replaced
    by an underscore (python) or by a dot, after which the first
    ["aws"] becomes ["services"] (java); the first ["::"] of the
    namespace becomes a dot (csharp); everything after that first
    occurrence is kept as it is, and a name without an occurrence is
    kept whole. *)
Theorem construct_naming_record
        (db : Database.t) (spec : Specification.t) (R : Resource.t) :
  generate db = Ok spec ->
  In R (Database.resources db) ->
  exists service options,
    Database.lookup_service
      db (serviceTypeOf (Resource.cloudFormationType R)) = [service] /\
    Js.get (Specification.cdkResources spec) (Resource.cloudFormationType R)
    = Some options /\
    Js.keys (ResourceOptions.construct options) = languages /\
    (exists Rl,
        In Rl (Database.resources db) /\
        Resource.cloudFormationType Rl = Resource.cloudFormationType R /\
        forall language,
          In language languages ->
          namingMember (ResourceOptions.construct options) language "name"
          = Js.Str ("Cfn" ++ Resource.name Rl)) /\
    (forall before after,
        Database.resources db = (before ++ R :: after)%list ->
        Forall (fun r => Resource.cloudFormationType r
                         <> Resource.cloudFormationType R) after ->
        forall language,
          In language languages ->
          namingMember (ResourceOptions.construct options) language "name"
          = Js.Str ("Cfn" ++ Resource.name R)) /\
    (forall pre post,
        first_occurrence "-" (Service.name service) pre post ->
        namingMember (ResourceOptions.construct options) "golang" "package"
        = Js.Str (pre ++ post) /\
        namingMember (ResourceOptions.construct options) "golang" "module"
        = Js.Str ("github.com/aws/aws-cdk-go/awscdk/v2/" ++ pre ++ post) /\
        namingMember (ResourceOptions.construct options) "python" "module"
        = Js.Str ("aws_cdk." ++ pre ++ "_" ++ post) /\
        forall pre' post',
          first_occurrence "aws" (pre ++ "." ++ post) pre' post' ->
          namingMember (ResourceOptions.construct options) "java" "package"
          = Js.Str ("software.amazon.awscdk." ++ pre' ++ "services" ++ post'))
    /\
    (forall pre post,
        first_occurrence "::" (Service.cloudFormationNamespace service)
                         pre post ->
        namingMember (ResourceOptions.construct options) "csharp" "namespace"
        = Js.Str ("Amazon.CDK." ++ pre ++ "." ++ post)) /\
    ((forall i, String.prefix "-" (Js.drop i (Service.name service)) = false) ->
     namingMember (ResourceOptions.construct options) "golang" "package"
     = Js.Str (Service.name service)).
Proof.
  intros Hgen HR.
  destruct (last_of_type (Resource.cloudFormationType R) (Database.resources db)
                         (ex_intro _ R (conj HR eq_refl)))
    as [before [Rl [after [Hres [HRl Hlast]]]]].
  rewrite <- HRl in Hlast.
  destruct (generate_resource_entry _ _ _ _ _ Hgen Hres Hlast)
    as [st [service [attrs [tbl1 [props [tbl2 [_ [Hservice [_ [_ Hget]]]]]]]]]].
  rewrite HRl in Hservice, Hget.
  assert (Hnames : forall svc name language,
             In language languages ->
             namingMember (constructNaming svc name) language "name"
             = Js.Str ("Cfn" ++ name)).
  { intros svc name language Hin. simpl in Hin.
    repeat (destruct Hin as [<-|Hin]; [reflexivity|]). destruct Hin. }
  exists service,
    (ResourceOptions.Make (constructNaming service (Resource.name Rl))
                          attrs props).
  split; [exact Hservice|]. split; [exact Hget|].
  cbn [ResourceOptions.construct].
  split; [reflexivity|].
  split.
  { exists Rl. split; [|split; [exact HRl | apply Hnames]].
    rewrite Hres. apply in_or_app. right; left; reflexivity. }
  split.
  { intros before' after' Hres' Hlast'.
    destruct (generate_resource_entry _ _ _ _ _ Hgen Hres' Hlast')
      as [st' [service' [attrs' [tbl1' [props' [tbl2'
            [_ [Hservice' [_ [_ Hget']]]]]]]]]].
    rewrite Hget in Hget'.
    apply (f_equal (fun o => match o with
                             | Some x => ResourceOptions.construct x
                             | None => []
                             end)) in Hget'.
    cbn [ResourceOptions.construct] in Hget'.
    rewrite Hget'. apply Hnames. }
  split; [|split].
  - intros pre post Hhyphen.
    unfold namingMember, constructNaming; simpl.
    rewrite !(@replace_first_occurrence _ _ _ _ _ Hhyphen). simpl.
    repeat (split; [reflexivity|]).
    intros pre' post' Haws.
    rewrite (@replace_first_occurrence _ _ _ _ _ Haws). reflexivity.
  - intros pre post Hcolons.
    unfold namingMember, constructNaming; simpl.
    rewrite (@replace_first_occurrence _ _ _ _ _ Hcolons). reflexivity.
  - intros Habsent.
    unfold namingMember, constructNaming; simpl.
    rewrite (@replace_absent _ _ _ Habsent). reflexivity.
Qed.

Lemma hyphen_first_in_apigw :
  first_occurrence "-" (Service.name Example.apigw) "aws" "api-gateway".
Proof.
  split; [reflexivity|].
  intros i Hi. simpl in Hi.
  destruct i as [|[|[|i]]]; [reflexivity | reflexivity | reflexivity | lia].
Defined.

Lemma construct_naming_record_witness :
  exists spec options,
    generate Example.db_apigw = Ok spec /\
    In Example.restApi (Database.resources Example.db_apigw) /\
    Js.get (Specification.cdkResources spec) "AWS::ApiGateway::RestApi"
    = Some options /\
    Js.keys (ResourceOptions.construct options) = languages /\
    namingMember (ResourceOptions.construct options) "typescript" "name"
    = Js.Str "CfnRestApi" /\
    namingMember (ResourceOptions.construct options) "golang" "package"
    = Js.Str "awsapi-gateway".
Proof.
  destruct (construct_naming_record
              Example.db_apigw _ Example.restApi
              eq_refl (or_introl eq_refl))
    as [service [options [Hservice [Hget [Hkeys [_ [Hname [Hhyphen _]]]]]]]].
  injection Hservice as <-.
  eexists. exists options.
  split; [reflexivity|]. split; [left; reflexivity|].
  split; [exact Hget|]. split; [exact Hkeys|]. split.
  - exact (Hname [] [] eq_refl (Forall_nil _) "typescript"
                 (or_introl eq_refl)).
  - exact (proj1 (Hhyphen "aws" "api-gateway" hyphen_first_in_apigw)).
Defined.

(** When two resources have the same type, the resource document holds
    the record of the later one. *)
Example naming_of_a_repeated_type :
  exists spec options,
    generate Example3.db_repeated = Ok spec /\
    Js.get (Specification.cdkResources spec) "AWS::S3::Bucket" = Some options /\
    namingMember (ResourceOptions.construct options) "typescript" "name"
    = Js.Str "CfnBucket2".
Proof.
  do 2 eexists. split; [vm_compute; reflexivity|].
  split; vm_compute; reflexivity.
Qed.

(** C1, as the code has it.  In the resource document of a successful
    run, for every resource [R] (of a type that no later resource
    repeats) and every field of [R] (with an id that no later field of
    the same table repeats): the [valueType] of an attribute is always
    the result of its current type, whatever previous types it
    declares, and the result of the last previous type [Tn] is emitted
    under the separate key [previousType]; the [valueType] of a
    property that declares the previous types [T1, ..., Tn] is the
    result of [Tn] in the scope of the resource whenever that result is
    defined (the current type's result stands in for an undefined
    one), and the [valueType] of a property without previous types is
    the result of its current type. *)
Theorem previous_type_precedence_by_field_kind
        (db : Database.t) (spec : Specification.t)
        (before after : list Resource.t) (R : Resource.t) :
  generate db = Ok spec ->
  Database.resources db = (before ++ R :: after)%list ->
  Forall (fun r => Resource.cloudFormationType r
                   <> Resource.cloudFormationType R) after ->
  exists options,
    Js.get (Specification.cdkResources spec) (Resource.cloudFormationType R)
    = Some options /\
    (forall fb id a fa,
        Resource.attributes R = (fb ++ (id, a) :: fa)%list ->
        ~ In id (Js.keys fa) ->
        exists rc,
          getType db (Attribute.type a) (Resource.cloudFormationType R)
          = Ok rc /\
          valueTypeOf (ResourceOptions.attributes options) id
          = Some (TypeResult.type rc) /\
          (forall ts tn,
              Attribute.previousTypes a = Some (ts ++ [tn])%list ->
              exists rn,
                getType db tn (Resource.cloudFormationType R) = Ok rn /\
                previousTypeEntryOf (ResourceOptions.attributes options) id
                = Some (TypeResult.type rn))) /\
    (forall fb id p fa,
        Resource.properties R = (fb ++ (id, p) :: fa)%list ->
        ~ In id (Js.keys fa) ->
        exists rc,
          getType db (Property.type p) (Resource.cloudFormationType R)
          = Ok rc /\
          (forall ts tn,
              Property.previousTypes p = Some (ts ++ [tn])%list ->
              exists rn,
                getType db tn (Resource.cloudFormationType R) = Ok rn /\
                valueTypeOf (ResourceOptions.properties options) id
                = Some (Js.nullish (TypeResult.type rn) (TypeResult.type rc)) /\
                (TypeResult.type rn <> Js.Undefined ->
                 valueTypeOf (ResourceOptions.properties options) id
                 = Some (TypeResult.type rn))) /\
          (Property.previousTypes p = None ->
           valueTypeOf (ResourceOptions.properties options) id
           = Some (TypeResult.type rc))).
Proof.
  intros Hgen Hres Hlast.
  destruct (generate_resource_entry _ _ _ _ _ Hgen Hres Hlast)
    as [st [service [attrs [tbl1 [props [tbl2 [_ [_ [Ha [Hp Hget]]]]]]]]]].
  eexists. split; [exact Hget|].
  cbn [ResourceOptions.attributes ResourceOptions.properties]. split.
  - intros fb id a fa Hfields Hid. rewrite Hfields in Ha.
    destruct (attribute_fold_last _ _ _ _ _ _ _ _ Hid Ha)
      as [rc [prev [Hrc [Hprev Hentry]]]]. cbn [fst] in Hentry.
    exists rc. split; [exact Hrc|].
    split; [exact (valueTypeOf_get _ _ _ _ _ Hentry)|].
    intros ts tn Hts. rewrite Hts in Hprev.
    apply previousTypeOf_last in Hprev. destruct Hprev as [rn [Hrn ->]].
    exists rn. split; [exact Hrn|].
    exact (previousTypeEntryOf_get _ _ _ _ _ Hentry).
  - intros fb id p fa Hfields Hid. rewrite Hfields in Hp.
    destruct (property_fold_last _ _ _ _ _ _ _ _ Hid Hp)
      as [rc [prev [Hrc [Hprev Hentry]]]]. cbn [fst] in Hentry.
    exists rc. split; [exact Hrc|]. split.
    + intros ts tn Hts. rewrite Hts in Hprev.
      apply previousTypeOf_last in Hprev. destruct Hprev as [rn [Hrn ->]].
      exists rn. split; [exact Hrn|].
      split; [exact (valueTypeOf_get _ _ _ _ _ Hentry)|].
      intros Hdef. rewrite (valueTypeOf_get _ _ _ _ _ Hentry).
      rewrite nullish_defined by exact Hdef. reflexivity.
    + intros Hnone. rewrite Hnone in Hprev. injection Hprev as <-.
      exact (valueTypeOf_get _ _ _ _ _ Hentry).
Qed.

Lemma previous_type_precedence_by_field_kind_witness :
  exists spec options,
    generate Example.db = Ok spec /\
    Database.resources Example.db = ([] ++ Example.bucket :: [])%list /\
    Js.get (Specification.cdkResources spec) "AWS::S3::Bucket" = Some options /\
    valueTypeOf (ResourceOptions.attributes options) "Arn"
    = Some (Js.Obj [("primitive", Js.Str "string")]) /\
    valueTypeOf (ResourceOptions.attributes options) "DomainName"
    = Some (Js.Obj [("primitive", Js.Str "string")]) /\
    valueTypeOf (ResourceOptions.properties options) "Tags"
    = Some (Js.Obj [("mapOf", Js.Obj [("primitive", Js.Str "string")])]).
Proof.
  destruct (previous_type_precedence_by_field_kind
              Example.db _ [] [] Example.bucket
              eq_refl eq_refl (Forall_nil _))
    as [options [Hget [Hattrs Hprops]]].
  eexists. exists options.
  split; [reflexivity|]. split; [reflexivity|]. split; [exact Hget|].
  split; [|split].
  - destruct (Hattrs [] "Arn"
                     (Attribute.Make Example.string_
                                     (Some [Example.number_; Example.json_]))
                     [("DomainName", Attribute.Make Example.string_ None)]
                     eq_refl)
      as [rc [Hrc [Hvalue _]]].
    + simpl. intuition discriminate.
    + cbv in Hrc. injection Hrc as <-. exact Hvalue.
  - destruct (Hattrs [("Arn",
                       Attribute.Make Example.string_
                                      (Some [Example.number_; Example.json_]))]
                     "DomainName" (Attribute.Make Example.string_ None) []
                     eq_refl)
      as [rc [Hrc [Hvalue _]]].
    + simpl. tauto.
    + cbv in Hrc. injection Hrc as <-. exact Hvalue.
  - destruct (Hprops
                [ ("BucketName", Property.Make Example.string_ None (Some true));
                  ("Rules",
                    Property.Make (PropertyType.array (PropertyType.ref "T1"))
                                  (Some []) None) ]
                "Tags"
                (Property.Make
                   (PropertyType.array (PropertyType.primitive "tag"))
                   (Some [Example.json_; PropertyType.map Example.string_])
                   None)
                [("Created",
                   Property.Make Example.string_ (Some [Example.timestamp_])
                                 None)]
                eq_refl)
      as [rc [Hrc [Hprev _]]].
    + simpl. intuition discriminate.
    + destruct (Hprev [Example.json_] (PropertyType.map Example.string_)
                      eq_refl)
        as [rn [Hrn [_ Hdef]]].
      cbv in Hrn. injection Hrn as <-. apply Hdef. discriminate.
Defined.

(** ** The reference table at the end of pass 1 *)











(** ** Nested types *)

(** C4.  In a run that succeeds, let [D1] and [D2] be processed one
    after the other by pass 2, let the reference table that pass 1
    produced have an entry for [D1] with the owning resource [R], and
    none for [D2].  Then the loop of pass 2 reaches [D1] and resolves
    [R] for it, carries [R] over to the iteration of [D2] and resolves
    [R] again, records ["<R>.<D2.name>Property"] as the qualified name
    of [D2], and the nested-type document that the run returns has
    that key. *)
Theorem owner_carry_forward
        (db : Database.t) (spec : Specification.t) (st1 : Pass1.t)
        (before after : list TypeDefinition.t)
        (D1 D2 : TypeDefinition.t) (v R : string) :
  generate db = Ok spec ->
  pass1 db = Ok st1 ->
  Database.typeDefinitions db = (before ++ D1 :: D2 :: after)%list ->
  Js.get (RefTable.propertyRefList (Pass1.refs st1)) (TypeDefinition.id D1)
  = Some v ->
  entryOwner v = Some R ->
  Js.get (RefTable.propertyRefList (Pass1.refs st1)) (TypeDefinition.id D2)
  = None ->
  exists st0 sD1 sD2,
    foldM (typeStep db (RefTable.propertyRefList (Pass1.refs st1)))
          Pass2.init before = Ok st0 /\
    typeStep db (RefTable.propertyRefList (Pass1.refs st1)) st0 D1 = Ok sD1 /\
    Pass2.resourceName sD1 = Some R /\
    resolveOwner (RefTable.propertyRefList (Pass1.refs st1))
                 (Pass2.resourceName sD1) D2 = Ok (Some R) /\
    typeStep db (RefTable.propertyRefList (Pass1.refs st1)) sD1 D2 = Ok sD2 /\
    Pass2.resourceName sD2 = Some R /\
    Js.get (Pass2.propertyTypeKeyList sD2) (TypeDefinition.id D2)
    = Some (R ++ "." ++ TypeDefinition.name D2 ++ "Property") /\
    Js.get (Specification.cdkTypes spec)
           (R ++ "." ++ TypeDefinition.name D2 ++ "Property") <> None.
Proof.
  intros Hgen Hp1 Htypes Hentry Howner Habsent.
  destruct (generate_ok _ _ Hgen) as [st1' [st2 [Hp1' [Hp2 [_ Hdoc]]]]].
  rewrite Hp1 in Hp1'. injection Hp1' as <-.
  unfold pass2 in Hp2. rewrite Htypes in Hp2.
  destruct (foldM_split _ _ _ _ _ _ Hp2) as [st0 [sD1 [Hbefore [H1 Hrest]]]].
  cbn [foldM] in Hrest. apply bind_ok in Hrest.
  destruct Hrest as [sD2 [H2 Hafter]].
  exists st0, sD1, sD2.
  pose proof (@typeStep_ok _ _ _ _ _ H1)
    as [owner1 [s1 [d1 [Hres1 [_ [_ [Hname1 _]]]]]]].
  unfold resolveOwner in Hres1. rewrite Hentry in Hres1.
  injection Hres1 as Hres1. rewrite Howner in Hres1. injection Hres1 as <-.
  assert (Hres2 : resolveOwner (RefTable.propertyRefList (Pass1.refs st1))
                               (Pass2.resourceName sD1) D2 = Ok (Some R)).
  { unfold resolveOwner. rewrite Habsent, Hname1.
    rewrite (@entryOwner_idempotent v R Howner). reflexivity. }
  pose proof (@typeStep_ok _ _ _ _ _ H2)
    as [owner2 [s2 [d2 [Hres [_ [_ [Hname2 [Hstored Hkeys]]]]]]]].
  rewrite Hres2 in Hres. injection Hres as <-.
  repeat (split; [assumption|]).
  split; [rewrite Hkeys; apply get_set_same|].
  rewrite Hdoc.
  destruct (@pass2_fold_emits _ _ _ _ _ Hafter) as [Hkeep _].
  apply Hkeep. unfold emitted. rewrite Hstored, get_set_same. discriminate.
Qed.

Lemma owner_carry_forward_witness :
  exists spec st1,
    generate Example.db = Ok spec /\
    pass1 Example.db = Ok st1 /\
    Database.typeDefinitions Example.db
    = ([] ++ Example.rule :: Example.transition :: [])%list /\
    Js.get (RefTable.propertyRefList (Pass1.refs st1)) "T1"
    = Some "AWS::S3::Bucket.Rule" /\
    Js.get (RefTable.propertyRefList (Pass1.refs st1)) "T2" = None /\
    Js.get (Specification.cdkTypes spec) "AWS::S3::Bucket.TransitionProperty"
    <> None.
Proof.
  eassert (Hgen : generate Example.db = Ok _) by (vm_compute; reflexivity).
  eassert (Hp1 : pass1 Example.db = Ok _) by (vm_compute; reflexivity).
  destruct (owner_carry_forward
              Example.db _ _ [] [] Example.rule Example.transition
              "AWS::S3::Bucket.Rule" "AWS::S3::Bucket"
              Hgen Hp1 eq_refl eq_refl eq_refl eq_refl)
    as [st0 [sD1 [sD2 [_ [_ [_ [_ [_ [_ [_ Hkey]]]]]]]]]].
  do 2 eexists.
  split; [exact Hgen|]. split; [exact Hp1|]. split; [reflexivity|].
  split; [reflexivity|]. split; [reflexivity | exact Hkey].
Defined.

(** The sample run: the unreferenced [Transition] follows [Rule] and is
    emitted under the owner of [Rule]. *)
Example carry_forward_in_sample_run :
  exists spec,
    generate Example.db = Ok spec /\
    Js.keys (Specification.cdkTypes spec)
    = [ "AWS::S3::Bucket.RuleProperty";
        "AWS::S3::Bucket.TransitionProperty" ].
Proof. eexists. split; vm_compute; reflexivity. Qed.

Lemma typeProperty_fold_get_other (db : Database.t) (c : string)
      (fields : Js.obj Property.t) (k : string) :
  ~ In k (Js.keys fields) ->
  forall acc acc',
    foldM (typePropertyStep db c) acc fields = Ok acc' ->
    Js.get acc' k = Js.get acc k.
Proof.
  induction fields as [|[id p] fields IH]; intros Hnot acc acc' H; simpl in H.
  - injection H as <-. reflexivity.
  - inv_bind H. simpl in Hnot. rewrite (IH (fun h => Hnot (or_intror h)) _ _ H).
    apply typePropertyStep_ok in Ha. destruct Ha as [rc [prev [_ [_ ->]]]].
    apply get_set_other. intros ->. apply Hnot. left; reflexivity.
Qed.

Lemma typeProperty_fold_last (db : Database.t) (c : string)
      (fb fa : Js.obj Property.t) (id : string) (p : Property.t)
      (acc acc' : Js.obj Js.value) :
  ~ In id (Js.keys fa) ->
  foldM (typePropertyStep db c) acc (fb ++ (id, p) :: fa)%list = Ok acc' ->
  exists rc prev,
    getType db (Property.type p) c = Ok rc /\
    previousTypeOf db (Property.previousTypes p) c = Ok prev /\
    Js.get acc' id
    = Some (Js.Obj [ ("name", Js.Str id);
                     ("valueType", Js.nullish prev (TypeResult.type rc));
                     ("required", requiredValue (Property.required p)) ]).
Proof.
  intros Hlast H.
  destruct (foldM_split _ _ _ _ _ _ H) as [a1 [a2 [_ [Hstep Hrest]]]].
  rewrite (typeProperty_fold_get_other db c fa id Hlast _ _ Hrest).
  apply typePropertyStep_ok in Hstep.
  destruct Hstep as [rc [prev [Hrc [Hprev ->]]]].
  exists rc, prev. repeat split; try assumption. apply get_set_same.
Qed.

Lemma length_append (a b : string) :
  String.length (a ++ b) = String.length a + String.length b.
Proof. induction a as [|x a IH]; simpl; [reflexivity | rewrite IH; reflexivity]. Qed.

Lemma append_cancel_r (a b c : string) : a ++ c = b ++ c -> a = b.
Proof.
  revert b; induction a as [|x a IH]; intros [|y b] H; simpl in H.
  - reflexivity.
  - apply (f_equal String.length) in H. simpl in H.
    rewrite length_append in H. lia.
  - apply (f_equal String.length) in H. simpl in H.
    rewrite length_append in H. lia.
  - injection H as -> H. f_equal. apply IH, H.
Qed.

Lemma dot_prefix_inj (o1 o2 s1 s2 : string) :
  contains_char "." o1 = false -> contains_char "." o2 = false ->
  o1 ++ "." ++ s1 = o2 ++ "." ++ s2 -> o1 = o2 /\ s1 = s2.
Proof.
  revert o2; induction o1 as [|x o1 IH]; intros [|y o2] H1 H2 H;
    simpl in H, H1, H2.
  - injection H as ->. auto.
  - injection H as <- _. rewrite Ascii.eqb_refl in H2. discriminate.
  - injection H as -> _. rewrite Ascii.eqb_refl in H1. discriminate.
  - apply orb_false_iff in H1. apply orb_false_iff in H2.
    injection H as -> H.
    destruct (IH o2 (proj2 H1) (proj2 H2) H) as [-> ->]. auto.
Qed.

Lemma qualified_name_inj (o1 o2 : string) (D1 D2 : TypeDefinition.t) :
  contains_char "." o1 = false -> contains_char "." o2 = false ->
  fullPropertyNameOf o1 D1 = fullPropertyNameOf o2 D2 ->
  o1 = o2 /\ TypeDefinition.name D1 = TypeDefinition.name D2.
Proof.
  unfold fullPropertyNameOf. intros H1 H2 H.
  destruct (dot_prefix_inj _ _ _ _ H1 H2 H) as [-> Hn].
  split; [reflexivity | exact (append_cancel_r _ _ _ Hn)].
Qed.

Lemma typeStep_get_other (db : Database.t) (tbl : Js.obj string)
      (st st' : Pass2.t) (D : TypeDefinition.t) :
  typeStep db tbl st D = Ok st' ->
  exists owner,
    resolveOwner tbl (Pass2.resourceName st) D = Ok (Some owner) /\
    contains_char "." owner = false /\
    forall k, k <> fullPropertyNameOf owner D ->
              Js.get (Pass2.propertyTypes st') k
              = Js.get (Pass2.propertyTypes st) k.
Proof.
  intros H. pose proof (@typeStep_ok _ _ _ _ _ H)
    as [owner [s [d [Hres [_ [_ [_ [Hstored _]]]]]]]].
  exists owner. split; [exact Hres|].
  split; [exact (@resolveOwner_dot_free _ _ _ _ Hres)|].
  intros k Hk. rewrite Hstored. unfold fullPropertyNameOf in Hk.
  rewrite !get_set_other by exact Hk. reflexivity.
Qed.

(** Later definitions that are stored apart from [D] leave the entry of
    [D] as it is. *)
Lemma pass2_fold_get_apart (db : Database.t) (tbl : Js.obj string)
      (D : TypeDefinition.t) (owner : string) (ds : list TypeDefinition.t) :
  Forall (stored_apart tbl D) ds ->
  contains_char "." owner = false ->
  (forall v, Js.get tbl (TypeDefinition.id D) = Some v ->
             entryOwner v = Some owner) ->
  forall st st',
    foldM (typeStep db tbl) st ds = Ok st' ->
    Js.get (Pass2.propertyTypes st') (fullPropertyNameOf owner D)
    = Js.get (Pass2.propertyTypes st) (fullPropertyNameOf owner D).
Proof.
  intros Hapart Hfree Hown.
  induction Hapart as [|D' ds HD' _ IH]; intros st st' H; simpl in H.
  - injection H as <-. reflexivity.
  - inv_bind H. rewrite (IH _ _ H).
    destruct (typeStep_get_other _ _ _ _ _ Ha) as [owner' [Hres [Hfree' Hget]]].
    apply Hget. intros Heq.
    destruct (qualified_name_inj _ _ _ _ Hfree Hfree' Heq) as [<- Hname].
    destruct HD' as [Hne | [v [v' [Hv [Hv' Hdiff]]]]]; [congruence|].
    unfold resolveOwner in Hres. rewrite Hv' in Hres.
    injection Hres as Hres. rewrite (Hown v Hv) in Hdiff. congruence.
Qed.

(** What the nested-type document holds for a definition from which the
    later definitions are stored apart: the field table built in the
    iteration of that definition. *)
Lemma generate_definition_entry (db : Database.t) (spec : Specification.t)
      (st1 : Pass1.t) (before after : list TypeDefinition.t)
      (D : TypeDefinition.t) :
  generate db = Ok spec ->
  pass1 db = Ok st1 ->
  Database.typeDefinitions db = (before ++ D :: after)%list ->
  Forall (stored_apart (RefTable.propertyRefList (Pass1.refs st1)) D) after ->
  exists owner entry details,
    Js.get (Specification.cdkTypes spec)
           (owner ++ "." ++ TypeDefinition.name D ++ "Property") = Some entry /\
    propertiesOf entry = details /\
    foldM (typePropertyStep db owner) [] (TypeDefinition.properties D)
    = Ok details.
Proof.
  intros Hgen Hp1 Htypes Hapart.
  destruct (generate_ok _ _ Hgen) as [st1' [st2 [Hp1' [Hp2 [_ Hdoc]]]]].
  rewrite Hp1 in Hp1'. injection Hp1' as <-.
  unfold pass2 in Hp2. rewrite Htypes in Hp2.
  destruct (foldM_split _ _ _ _ _ _ Hp2) as [st0 [sD [_ [HD Hafter]]]].
  pose proof (@typeStep_ok _ _ _ _ _ HD)
    as [owner [s [details [Hres [_ [Hd [_ [Hstored _]]]]]]]].
  exists owner. eexists. exists details.
  split; [|split; [|exact Hd]].
  - rewrite Hdoc.
    change (owner ++ "." ++ TypeDefinition.name D ++ "Property")
      with (fullPropertyNameOf owner D).
    assert (Hown : forall v,
               Js.get (RefTable.propertyRefList (Pass1.refs st1))
                      (TypeDefinition.id D) = Some v ->
               entryOwner v = Some owner).
    { intros v Hv. unfold resolveOwner in Hres. rewrite Hv in Hres.
      injection Hres as Hres. exact Hres. }
    rewrite (pass2_fold_get_apart db _ D owner after Hapart
               (@resolveOwner_dot_free _ _ _ _ Hres) Hown _ _ Hafter).
    rewrite Hstored. apply get_set_same.
  - reflexivity.
Qed.

(** ** Empty lists of previous types *)

Lemma get_typeDefinition_withoutEmpty (db : Database.t) (id : string) :
  Database.get_typeDefinition (withoutEmptyPreviousTypes db) id
  = match Database.get_typeDefinition db id with
    | Ok D => Ok (dropEmptyDefinition D)
    | Err e => Err e
    end.
Proof.
  unfold Database.get_typeDefinition, withoutEmptyPreviousTypes.
  cbn [Database.typeDefinitions].
  induction (Database.typeDefinitions db) as [|D ds IH]; [reflexivity|].
  cbn [map find dropEmptyDefinition TypeDefinition.id].
  destruct (String.eqb (TypeDefinition.id D) id); [reflexivity | exact IH].
Qed.

Lemma doGetType_withoutEmpty (db : Database.t) (p : PropertyType.t) :
  forall c ids,
    doGetType (withoutEmptyPreviousTypes db) p c ids = doGetType db p c ids.
Proof.
  induction p as [tag r e ts IHe IHts] using PropertyType_induction.
  intros c ids.
  destruct (tag_kind tag) as [->|[->|[->|[->|Hsimple]]]].
  - rewrite !doGetType_ref. destruct r as [id|]; [|reflexivity].
    rewrite get_typeDefinition_withoutEmpty.
    destruct (Database.get_typeDefinition db id); reflexivity.
  - rewrite !doGetType_array. destruct e as [x|]; [|reflexivity].
    simpl in IHe. rewrite IHe. reflexivity.
  - rewrite !doGetType_map. destruct e as [x|]; [|reflexivity].
    simpl in IHe. rewrite IHe. reflexivity.
  - rewrite !doGetType_union. destruct ts as [l|]; [|reflexivity].
    simpl in IHts. f_equal. revert ids.
    induction IHts as [|t l Ht _ IH]; intros ids; [reflexivity|].
    cbn [unionMembers]. rewrite Ht.
    destruct (doGetType db t c ids) as [[v i]|]; [|reflexivity].
    cbn [bind]. rewrite IH. reflexivity.
  - rewrite !doGetType_simple by exact Hsimple. reflexivity.
Qed.

Lemma getType_withoutEmpty (db : Database.t) (p : PropertyType.t) (c : string) :
  getType (withoutEmptyPreviousTypes db) p c = getType db p c.
Proof. unfold getType. rewrite doGetType_withoutEmpty. reflexivity. Qed.

Lemma previousTypeOf_withoutEmpty (db : Database.t)
      (previous : option (list PropertyType.t)) (c : string) :
  previousTypeOf (withoutEmptyPreviousTypes db) (dropEmpty previous) c
  = previousTypeOf db previous c.
Proof.
  destruct previous as [[|t ts]|]; [reflexivity| |reflexivity].
  cbn [dropEmpty]. unfold previousTypeOf. f_equal.
  induction (t :: ts) as [|x xs IH]; [reflexivity|].
  cbn [mapM]. rewrite getType_withoutEmpty, IH. reflexivity.
Qed.

Lemma foldM_map {A B C} (step' : A -> C -> result A) (step : A -> B -> result A)
      (g : B -> C) :
  (forall acc x, step' acc (g x) = step acc x) ->
  forall xs acc, foldM step' acc (map g xs) = foldM step acc xs.
Proof.
  intros Hstep; induction xs as [|x xs IH]; intros acc; [reflexivity|].
  cbn [map foldM]. rewrite Hstep.
  destruct (step acc x); [apply IH | reflexivity].
Qed.

Lemma attributeStep_withoutEmpty (db : Database.t) (c : string)
      (acc : Js.obj Js.value * RefTable.t) (e : string * Attribute.t) :
  attributeStep (withoutEmptyPreviousTypes db) c acc (dropEmptyAttribute e)
  = attributeStep db c acc e.
Proof.
  destruct acc as [attrs tbl]. destruct e as [id a].
  unfold attributeStep, dropEmptyAttribute.
  cbn [fst snd Attribute.type Attribute.previousTypes].
  rewrite getType_withoutEmpty, previousTypeOf_withoutEmpty. reflexivity.
Qed.

Lemma propertyStep_withoutEmpty (db : Database.t) (c : string)
      (acc : Js.obj Js.value * RefTable.t) (e : string * Property.t) :
  propertyStep (withoutEmptyPreviousTypes db) c acc (dropEmptyProperty e)
  = propertyStep db c acc e.
Proof.
  destruct acc as [props tbl]. destruct e as [id p].
  unfold propertyStep, dropEmptyProperty.
  cbn [fst snd Property.type Property.previousTypes Property.required].
  rewrite getType_withoutEmpty, previousTypeOf_withoutEmpty. reflexivity.
Qed.

Lemma typePropertyStep_withoutEmpty (db : Database.t) (c : string)
      (acc : Js.obj Js.value) (e : string * Property.t) :
  typePropertyStep (withoutEmptyPreviousTypes db) c acc (dropEmptyProperty e)
  = typePropertyStep db c acc e.
Proof.
  destruct e as [id p]. unfold typePropertyStep, dropEmptyProperty.
  cbn [fst snd Property.type Property.previousTypes Property.required].
  rewrite getType_withoutEmpty, previousTypeOf_withoutEmpty. reflexivity.
Qed.

Lemma resourceStep_withoutEmpty (db : Database.t) (st : Pass1.t)
      (r : Resource.t) :
  resourceStep (withoutEmptyPreviousTypes db) st (dropEmptyResource r)
  = resourceStep db st r.
Proof.
  unfold resourceStep, dropEmptyResource.
  cbn [Resource.cloudFormationType Resource.name
       Resource.attributes Resource.properties].
  change (Database.lookup_service (withoutEmptyPreviousTypes db))
    with (Database.lookup_service db).
  destruct (Database.only _) as [service|]; [|reflexivity]. cbn [bind].
  rewrite (foldM_map _ _ _ (attributeStep_withoutEmpty db _)).
  destruct (foldM _ _ (Resource.attributes r)) as [[attrs tbl]|];
    [|reflexivity].
  cbn [bind].
  rewrite (foldM_map _ _ _ (propertyStep_withoutEmpty db _)). reflexivity.
Qed.

Lemma typeStep_withoutEmpty (db : Database.t) (tbl : Js.obj string)
      (st : Pass2.t) (D : TypeDefinition.t) :
  typeStep (withoutEmptyPreviousTypes db) tbl st (dropEmptyDefinition D)
  = typeStep db tbl st D.
Proof.
  unfold typeStep, resolveOwner, dropEmptyDefinition.
  cbn [TypeDefinition.id TypeDefinition.name TypeDefinition.properties].
  change (Database.lookup_service (withoutEmptyPreviousTypes db))
    with (Database.lookup_service db).
  destruct (match Js.get tbl (TypeDefinition.id D) with
            | Some v => Some v
            | None => Pass2.resourceName st
            end) as [v|]; [|reflexivity].
  cbn [bind]. destruct (entryOwner v) as [owner|]; [|reflexivity].
  cbn [bind]. destruct (Js.pop (Js.split owner "::")) as [last parts].
  destruct (Database.only _) as [service|]; [|reflexivity]. cbn [bind].
  rewrite (foldM_map _ _ _ (typePropertyStep_withoutEmpty db _)). reflexivity.
Qed.

Lemma generate_withoutEmpty (db : Database.t) :
  generate (withoutEmptyPreviousTypes db) = generate db.
Proof.
  unfold generate.
  assert (H1 : pass1 (withoutEmptyPreviousTypes db) = pass1 db).
  { unfold pass1, withoutEmptyPreviousTypes at 2.
    cbn [Database.resources].
    apply (foldM_map _ _ _ (resourceStep_withoutEmpty db)). }
  rewrite H1. destruct (pass1 db) as [st1|]; [|reflexivity]. cbn [bind].
  assert (H2 : forall tbl, pass2 (withoutEmptyPreviousTypes db) tbl
                           = pass2 db tbl).
  { intros tbl. unfold pass2, withoutEmptyPreviousTypes at 2.
    cbn [Database.typeDefinitions].
    apply (foldM_map _ _ _ (typeStep_withoutEmpty db tbl)). }
  rewrite H2. reflexivity.
Qed.

(** C10.  A [previousTypes] that is declared but empty is treated as an
    absent one: a run on the database with every empty [previousTypes]
    list taken away gives the same result as the run on the database
    itself.  And in the documents of a successful run, for a property
    with an empty [previousTypes] list (with an id that no later
    property of the same table repeats), the emitted [valueType] is the
    result of the current type: in the entry of its resource (of a type
    that no later resource repeats), and in the entry of its type
    definition (from which the later definitions are stored apart). *)
Theorem empty_previousTypes_as_absent (db : Database.t) :
  generate (withoutEmptyPreviousTypes db) = generate db /\
  (forall spec before R after fb id p fa,
      generate db = Ok spec ->
      Database.resources db = (before ++ R :: after)%list ->
      Forall (fun r => Resource.cloudFormationType r
                       <> Resource.cloudFormationType R) after ->
      Resource.properties R = (fb ++ (id, p) :: fa)%list ->
      ~ In id (Js.keys fa) ->
      Property.previousTypes p = Some [] ->
      exists options rc,
        Js.get (Specification.cdkResources spec)
               (Resource.cloudFormationType R) = Some options /\
        getType db (Property.type p) (Resource.cloudFormationType R) = Ok rc /\
        valueTypeOf (ResourceOptions.properties options) id
        = Some (TypeResult.type rc)) /\
  (forall spec st1 before D after fb id p fa,
      generate db = Ok spec ->
      pass1 db = Ok st1 ->
      Database.typeDefinitions db = (before ++ D :: after)%list ->
      Forall (stored_apart (RefTable.propertyRefList (Pass1.refs st1)) D)
             after ->
      TypeDefinition.properties D = (fb ++ (id, p) :: fa)%list ->
      ~ In id (Js.keys fa) ->
      Property.previousTypes p = Some [] ->
      exists owner entry rc,
        Js.get (Specification.cdkTypes spec)
               (owner ++ "." ++ TypeDefinition.name D ++ "Property")
        = Some entry /\
        getType db (Property.type p) owner = Ok rc /\
        valueTypeOf (propertiesOf entry) id = Some (TypeResult.type rc)).
Proof.
  split; [apply generate_withoutEmpty|]. split.
  - intros spec before R after fb id p fa Hgen Hres Hlast Hfields Hid Hempty.
    destruct (generate_resource_entry _ _ _ _ _ Hgen Hres Hlast)
      as [st [service [attrs [tbl1 [props [tbl2 [_ [_ [_ [Hp Hget]]]]]]]]]].
    rewrite Hfields in Hp.
    destruct (property_fold_last _ _ _ _ _ _ _ _ Hid Hp)
      as [rc [prev [Hrc [Hprev Hentry]]]]. cbn [fst] in Hentry.
    rewrite Hempty in Hprev. cbn in Hprev. injection Hprev as <-.
    eexists. exists rc. split; [exact Hget|]. split; [exact Hrc|].
    cbn [ResourceOptions.properties].
    exact (valueTypeOf_get _ _ _ _ _ Hentry).
  - intros spec st1 before D after fb id p fa
           Hgen Hp1 Htypes Hapart Hfields Hid Hempty.
    destruct (generate_definition_entry _ _ _ _ _ _ Hgen Hp1 Htypes Hapart)
      as [owner [entry [details [Hget [Hdetails Hfold]]]]].
    rewrite Hfields in Hfold.
    destruct (typeProperty_fold_last _ _ _ _ _ _ _ _ Hid Hfold)
      as [rc [prev [Hrc [Hprev Hentry]]]].
    rewrite Hempty in Hprev. cbn in Hprev. injection Hprev as <-.
    exists owner, entry, rc. split; [exact Hget|]. split; [exact Hrc|].
    rewrite Hdetails. exact (valueTypeOf_get _ _ _ _ _ Hentry).
Qed.

Lemma empty_previousTypes_as_absent_witness :
  exists spec st1 owner entry,
    generate Example.db = Ok spec /\
    pass1 Example.db = Ok st1 /\
    generate (withoutEmptyPreviousTypes Example.db) = Ok spec /\
    Js.get (Specification.cdkTypes spec) (owner ++ "." ++ "Rule" ++ "Property")
    = Some entry /\
    valueTypeOf (propertiesOf entry) "Status"
    = Some (Js.Obj [("primitive", Js.Str "string")]) /\
    exists options,
      Js.get (Specification.cdkResources spec) "AWS::S3::Bucket"
      = Some options /\
      valueTypeOf (ResourceOptions.properties options) "Rules"
      = Some (Js.Obj [("listOf",
                       Js.Obj [("named", Js.Str "AWS::S3::Bucket.Rule")])]).
Proof.
  eassert (Hgen : generate Example.db = Ok _) by (vm_compute; reflexivity).
  eassert (Hp1 : pass1 Example.db = Ok _) by (vm_compute; reflexivity).
  destruct (empty_previousTypes_as_absent Example.db) as [Hsame [Hres Hdef]].
  destruct (Hdef _ _ [] Example.rule [Example.transition]
                 [] "Status"
                 (Property.Make Example.string_ (Some []) (Some true))
                 [("Days",
                    Property.Make Example.number_
                                  (Some [Example.json_; Example.string_]) None)]
                 Hgen Hp1 eq_refl)
    as [owner [entry [rc [Hentry [Hrc Hvalue]]]]].
  { constructor; [|constructor]. left. discriminate. }
  { reflexivity. }
  { simpl. intuition discriminate. }
  { reflexivity. }
  destruct (Hres _ [] Example.bucket []
                 [("BucketName",
                    Property.Make Example.string_ None (Some true))]
                 "Rules"
                 (Property.Make (PropertyType.array (PropertyType.ref "T1"))
                                (Some []) None)
                 [ ("Tags",
                     Property.Make
                       (PropertyType.array (PropertyType.primitive "tag"))
                       (Some [Example.json_; PropertyType.map Example.string_])
                       None);
                   ("Created",
                     Property.Make Example.string_ (Some [Example.timestamp_])
                                   None) ]
                 Hgen eq_refl (Forall_nil _) eq_refl)
    as [options [rc' [Hoptions [Hrc' Hvalue']]]].
  { simpl. intuition discriminate. }
  { reflexivity. }
  do 2 eexists. exists owner, entry.
  split; [exact Hgen|]. split; [exact Hp1|].
  split; [rewrite Hsame; exact Hgen|].
  split; [exact Hentry|]. split.
  - cbv in Hrc. injection Hrc as <-. exact Hvalue.
  - exists options. split; [exact Hoptions|].
    cbv in Hrc'. injection Hrc' as <-. exact Hvalue'.
Defined.

(** The same entries, computed. *)
Example empty_previousTypes_in_sample_run :
  exists spec entry,
    generate Example.db = Ok spec /\
    Js.get (Specification.cdkTypes spec) "AWS::S3::Bucket.RuleProperty"
    = Some entry /\
    valueTypeOf (propertiesOf entry) "Status"
    = Some (Js.Obj [("primitive", Js.Str "string")]).
Proof.
  do 2 eexists. split; [vm_compute; reflexivity|].
  split; vm_compute; reflexivity.
Qed.
